(** * InvestAnalyzer backend: scoring, validation, retry, job status,
      notification and report rendering

    A shallow embedding of the pipeline code of the InvestAnalyzer backend
    (backend/server.js, backend/ai/analyzeWithGemini.js,
    backend/routes/analysis.js, backend/middleware/authMiddleware.js) and
    of the client's slide pre-check
    (frontend/src/components/FileUpload.tsx), followed by the properties
    established for it.

    Conventions.
    - A JavaScript number is an IEEE-754 binary64 value: Rocq's primitive
      [float].  Numbers that the code only ever produces as integers (the
      result of [Math.round], a slide count, an attempt counter, a delay in
      milliseconds) are carried as [Z] or [nat].
    - A value produced by [JSON.parse] is a [json]; a property that is
      absent (JavaScript's [undefined]) is [None].
    - A function that may throw returns a [result]. *)

From Stdlib Require Import ZArith QArith Qround Floats List Bool Ascii String Lia
  Sorted.
From stdpp Require Import base option list gmap strings pretty.
Import ListNotations.

Set Warnings "-inexact-float".
Local Open Scope Z_scope.

(* ===================================================================== *)
(** ** JavaScript values *)
(* ===================================================================== *)

Module Js.

(** The outcome of a call that may throw: the value, or the message of
    the [Error] that was thrown. *)
Inductive result (A : Type) : Type :=
| Ok (a : A)
| Throw (msg : string).
Arguments Ok {A} a.
Arguments Throw {A} msg.

Definition bind {A B} (r : result A) (k : A -> result B) : result B :=
  match r with
  | Ok a => k a
  | Throw m => Throw m
  end.

Definition is_ok {A} (r : result A) : bool :=
  match r with Ok _ => true | Throw _ => false end.

(** Values of [JSON.parse]. *)
Unset Elimination Schemes.
Inductive json : Type :=
| JNull
| JBool (b : bool)
| JNum (x : float)
| JStr (s : string)
| JArr (l : list json)
| JObj (m : gmap string json).
Set Elimination Schemes.

(** [o[k]] for a non-null [o]: an own property of an object, and
    [undefined] for the keys used here on a boolean, a number, a string
    or an array. *)
Definition get (o : json) (k : string) : option json :=
  match o with
  | JObj m => m !! k
  | _ => None
  end.

(** [o.k = v] on an object. *)
Definition set (o : json) (k : string) (v : json) : json :=
  match o with
  | JObj m => JObj (<[k := v]> m)
  | _ => o
  end.

(** ToBoolean: [undefined], [null], [false], [0], [-0], [NaN] and the
    empty string are falsy. *)
Definition truthy (v : option json) : bool :=
  match v with
  | None => false
  | Some JNull => false
  | Some (JBool b) => b
  | Some (JNum x) => negb (PrimFloat.eqb x 0 || PrimFloat.is_nan x)
  | Some (JStr s) => negb (String.eqb s "")
  | Some (JArr _) => true
  | Some (JObj _) => true
  end.

(** ToBoolean of a value that is a string or missing. *)
Definition truthy_str (v : option string) : bool :=
  match v with
  | None => false
  | Some s => negb (String.eqb s "")
  end.

(** [v === undefined || v === null]. *)
Definition nullish (v : option json) : bool :=
  match v with
  | None => true
  | Some JNull => true
  | Some _ => false
  end.

(** [Math.round] on a finite number: the nearest integer, a tie going
    towards plus infinity.  A binary64 value is [v * 2^e] for integers
    [v] and [e], which [Prim2SF] exposes, so the rounding is computed
    exactly.  (The sign of a zero result is not kept; [NaN] and the
    infinities, which [Math.round] returns unchanged, are not integers
    and are mapped to 0.) *)
Definition Math_round (x : float) : Z :=
  match Prim2SF x with
  | S754_finite s m e =>
      let v := if s then Z.neg m else Z.pos m in
      if 0 <=? e then v * 2 ^ e
      else (2 * v + 2 ^ (- e)) / 2 ^ (- e + 1)
  | _ => 0
  end.

(** [Math.abs]. *)
Definition Math_abs (x : float) : float := PrimFloat.abs x.

(** The exact rational value of a finite binary64 number. *)
Definition float_to_Q (x : float) : Q :=
  match Prim2SF x with
  | S754_finite s m e =>
      let v := if s then Z.neg m else Z.pos m in
      if 0 <=? e then inject_Z (v * 2 ^ e)
      else Qmake v (Z.to_pos (2 ^ (- e)))
  | _ => 0%Q
  end.

(** The number whose value is the integer [n], for [0 <= n < 2^53]. *)
Definition of_int (n : Z) : float := PrimFloat.of_uint63 (Uint63.of_Z n).

(** [s.substring(0, n)]. *)
Definition substring0 (n : nat) (s : string) : string :=
  String.substring 0 n s.

(** [parts.join(sep)]. *)
Fixpoint join (sep : string) (parts : list string) : string :=
  match parts with
  | [] => ""
  | [p] => p
  | p :: rest => p +:+ sep +:+ join sep rest
  end.

(** A reading of the clock, as the fields that date-fns's [format]
    prints. *)
Record instant : Type := {
  year : nat;
  month : nat;    (* 1..12 *)
  day : nat;      (* 1..31 *)
  hour : nat;
  minute : nat;
  second : nat
}.

(** The built-in operations of the JavaScript runtime that the code
    calls and whose algorithms are not part of the repository.  They are
    deterministic functions of their arguments; everything below is
    stated for an arbitrary runtime.

    - [ToString v] is the text that a template literal [`${v}`] inserts.
    - [JSON_parse s] is [JSON.parse(s)]: the parsed value, or the
      message of the [SyntaxError].
    - [re_strip_control s] is [s.replace(/[\x00-\x1F\x7F-\x9F]/g, '')].
    - [re_fix_quotes s] is the [replace] of sanitizeJsonString with the
      pattern [/(\\*")(.*?)(")/g] and its callback.
    - [re_quote_keys s] is the [replace] with the pattern that puts
      property names between double quotes.
    - [re_match_braces s] is the first element of
      [s.match(/\{[\s\S]*\}/)], when there is a match.
    - [Date_parse v] is [new Date(v)] for a JSON value: the instant, or
      [None] for an invalid date (which [format] refuses by throwing). *)
Class Builtins : Type := {
  ToString : option json -> string;
  JSON_parse : string -> result json;
  re_strip_control : string -> string;
  re_fix_quotes : string -> string;
  re_quote_keys : string -> string;
  re_match_braces : string -> option string;
  Date_parse : json -> option instant
}.

End Js.

Import Js.

(* ===================================================================== *)
(** ** Scoring aggregator: [calculateOverallScore] *)
(* ===================================================================== *)

Module Scoring.

(** The [weights] object literal, in its insertion order, which is the
    order of [for (const category in weights)]. *)
Definition weights : list (string * float) :=
  [ ("Problem Statement", 0.10%float);
    ("Solution/Product", 0.15%float);
    ("Market Opportunity", 0.20%float);
    ("Business Model", 0.15%float);
    ("Competitive Landscape", 0.10%float);
    ("Team", 0.10%float);
    ("Traction/Milestones", 0.10%float);
    ("Financial Projections", 0.05%float);
    ("Clarity and Presentation", 0.05%float) ].

(** [categoryData && typeof categoryData.score === 'number' &&
    categoryData.score >= 0 && categoryData.score <= 10], returning the
    score when the test passes. *)
Definition valid_score (categoryData : option json) : option float :=
  if truthy categoryData then
    match categoryData with
    | Some d =>
        match get d "score" with
        | Some (JNum score) =>
            if PrimFloat.leb 0 score && PrimFloat.leb score 10
            then Some score else None
        | _ => None
        end
    | None => None
    end
  else None.

(** One iteration of the loop over [weights]; the state is
    [(totalScore, totalWeightUsed)]. *)
Definition loop_body (analysisResult : json) (acc : float * float)
    (entry : string * float) : float * float :=
  let '(totalScore, totalWeightUsed) := acc in
  let '(category, weight) := entry in
  let categoryData := get analysisResult category in
  let totalScore :=
    match valid_score categoryData with
    | Some score => (totalScore + score * weight)%float
    | None => (totalScore + 0 * weight)%float
    end in
  (totalScore, (totalWeightUsed + weight)%float).

Definition calculateOverallScore (analysisResult : json) : Z :=
  let '(totalScore, totalWeightUsed) :=
    fold_left (loop_body analysisResult) weights (0%float, 0%float) in
  if PrimFloat.ltb 0.001 (Math_abs (totalWeightUsed - 1.0))
     && PrimFloat.eqb totalWeightUsed 0
  then 0
  else
    let effectiveTotalWeight := 1.0%float in
    let overall :=
      Math_round ((totalScore / effectiveTotalWeight) * 10)%float in
    Z.max 0 (Z.min 100 overall).

(** *** The formula of the specification, in exact arithmetic

    [round(sum_i (score_i / 10 * weight_i) * 100)], clamped to the range
    0..100, over the rationals, with the weight table in percent.  An
    absent or invalid category has score 0. *)
Definition weight_table : list (string * Q) :=
  [ ("Problem Statement", 10 # 100);
    ("Solution/Product", 15 # 100);
    ("Market Opportunity", 20 # 100);
    ("Business Model", 15 # 100);
    ("Competitive Landscape", 10 # 100);
    ("Team", 10 # 100);
    ("Traction/Milestones", 10 # 100);
    ("Financial Projections", 5 # 100);
    ("Clarity and Presentation", 5 # 100) ]%Q.

Definition exact_score (analysisResult : json) (category : string) : Q :=
  match valid_score (get analysisResult category) with
  | Some score => float_to_Q score
  | None => 0%Q
  end.

Definition exact_weighted_sum (analysisResult : json) : Q :=
  fold_left
    (fun acc '(category, weight) =>
       (acc + exact_score analysisResult category / 10 * weight)%Q)
    weight_table 0%Q.

(** Rounding to the nearest integer, a tie going up. *)
Definition round_half_up (q : Q) : Z := Qfloor (q + (1 # 2))%Q.

Definition spec_overall_score (analysisResult : json) : Z :=
  Z.max 0 (Z.min 100
    (round_half_up (exact_weighted_sum analysisResult * 100)%Q)).

(** The same formula with every operation carried out in binary64, in
    the order in which it is written. *)
Definition spec_overall_score_binary64 (analysisResult : json) : Z :=
  let sum :=
    fold_left
      (fun acc '(category, weight) =>
         let score :=
           default 0%float (valid_score (get analysisResult category)) in
         (acc + score / 10 * weight)%float)
      weights 0%float in
  Z.max 0 (Z.min 100 (Math_round (sum * 100)%float)).

(** An analysis object holding exactly the given categories, each with a
    [score] and a [qualitative_feedback]. *)
Definition category (score : float) : json :=
  JObj (<["score" := JNum score]>
        (<["qualitative_feedback" := JStr "feedback"]> ∅)).

Definition analysis_of (scores : list (string * float)) : json :=
  JObj (list_to_map (map (fun '(c, s) => (c, category s)) scores)).

(** All nine categories present, every score an integer of the range. *)
Definition tie_scores : json :=
  analysis_of
    [ ("Problem Statement", 6%float);
      ("Solution/Product", 6%float);
      ("Market Opportunity", 6%float);
      ("Business Model", 6%float);
      ("Competitive Landscape", 6%float);
      ("Team", 7%float);
      ("Traction/Milestones", 6%float);
      ("Financial Projections", 6%float);
      ("Clarity and Presentation", 7%float) ].

End Scoring.

(* ===================================================================== *)
(** ** The sums that integer scores can produce *)
(* ===================================================================== *)

Module ScoreTable.

(** A partial sum of the loop of [calculateOverallScore], paired with the
    exact value of the same sum in hundredths. *)
Definition partial : Type := float * Z.

Definition partial_eqb (a b : partial) : bool :=
  PrimFloat.Leibniz.eqb (fst a) (fst b) && (snd a =? snd b).

Definition add_partial (x : partial) (l : list partial) : list partial :=
  if existsb (partial_eqb x) l then l else x :: l.

(** The integer scores, 0 to 10. *)
Definition scores : list Z := [0; 1; 2; 3; 4; 5; 6; 7; 8; 9; 10].

(** One more category, of weight [w] (in binary64) and [p] percent. *)
Definition extend (x : partial) (w : float) (p : Z) (n : Z) : partial :=
  ((fst x + of_int n * w)%float, snd x + n * p).

Definition next_partials (w : float) (p : Z) (l : list partial)
    : list partial :=
  fold_left
    (fun acc x => fold_left (fun acc n => add_partial (extend x w p n) acc)
                            scores acc)
    l [].

(** The weights of [Scoring.weights] with their percentages. *)
Definition table : list (float * Z) :=
  [ (0.10%float, 10); (0.15%float, 15); (0.20%float, 20); (0.15%float, 15);
    (0.10%float, 10); (0.10%float, 10); (0.10%float, 10); (0.05%float, 5);
    (0.05%float, 5) ].

(** Every pair that nine integer scores can produce. *)
Definition partials : list partial :=
  fold_left (fun l e => next_partials (fst e) (snd e) l) table
            [(0%float, 0)].

(** The score that the code derives from a sum, and the score of the
    specification's formula for the same exact sum. *)
Definition code_score (totalScore : float) : Z :=
  Z.max 0 (Z.min 100 (Math_round ((totalScore / 1.0) * 10)%float)).

Definition formula_score (hundredths : Z) : Z :=
  Z.max 0 (Z.min 100 (Scoring.round_half_up (inject_Z hundredths / 10)%Q)).

(** The code gives the formula's score, or one point less. *)
Definition close (x : partial) : bool :=
  (formula_score (snd x) - 1 <=? code_score (fst x))
  && (code_score (fst x) <=? formula_score (snd x)).

(** Every category of [r] is missing, invalid, or has an integer score. *)
Definition integer_scores (r : json) : Prop :=
  forall c, In c (map fst Scoring.weights) ->
    exists n, 0 <= n <= 10
              /\ default 0%float (Scoring.valid_score (get r c)) = of_int n.

End ScoreTable.

(* ===================================================================== *)
(** ** JSON repair: [sanitizeJsonString] (ai/analyzeWithGemini.js) *)
(* ===================================================================== *)

Module Sanitize.
Section WithRuntime.
Context `{!Builtins}.

(** The argument is a string, the case [typeof jsonString === 'string'];
    any other value is returned as it is. *)
Definition sanitizeJsonString (jsonString : string) : result string :=
  match JSON_parse jsonString with
  | Ok _ => Ok jsonString
  | Throw _ =>
      let sanitized := re_strip_control jsonString in
      let sanitized := re_fix_quotes sanitized in
      let sanitized := re_quote_keys sanitized in
      match JSON_parse sanitized with
      | Ok _ => Ok sanitized
      | Throw e =>
          match re_match_braces jsonString with
          | Some extractedJson =>
              match JSON_parse extractedJson with
              | Ok _ => Ok extractedJson
              | Throw e' =>
                  Throw ("Unable to sanitize malformed JSON: " +:+ e')
              end
          | None =>
              Throw ("Unable to extract valid JSON structure: " +:+ e)
          end
      end
  end.

(** [s] is valid JSON: [JSON.parse(s)] does not throw. *)
Definition parses (s : string) : bool := is_ok (JSON_parse s).

End WithRuntime.
End Sanitize.

(* ===================================================================== *)
(** ** External analysis client: [callGeminiWithRetry] *)
(* ===================================================================== *)

Module Retry.

(** What [result.response] offers when it is present: whether its
    [text] property is truthy, what calling [text()] does, and the text
    of the first part of the first candidate, if there is one. *)
Record response : Type := {
  has_text : bool;
  text_call : result string;
  candidate_part_text : option string
}.

(** The outcome of one [await geminiModel.generateContent(prompt)]. *)
Inductive api_outcome : Type :=
| Rejects (message : string)
| Resolves (resp : option response).

(** The body of the [try] block: the text returned, or the message of
    the error thrown. *)
Definition attempt (o : api_outcome) : result string :=
  match o with
  | Rejects message => Throw message
  | Resolves None => Throw "API returned no response object."
  | Resolves (Some r) =>
      if negb (has_text r) then
        match candidate_part_text r with
        | Some part =>
            if truthy_str (Some part) then Ok part
            else Throw "API response text is empty or undefined."
        | None => Throw "API response text is empty or undefined."
        end
      else text_call r
  end.

(** What the caller can observe besides the result: the number of calls
    made to the API and the delays slept, in milliseconds, oldest
    first. *)
Record trace : Type := {
  calls : nat;
  sleeps : list Z
}.

Definition called (t : trace) : trace :=
  {| calls := S (calls t); sleeps := sleeps t |}.

Definition slept (delay : Z) (t : trace) : trace :=
  {| calls := calls t; sleeps := sleeps t ++ [delay] |}.

(** The [while (retries <= maxRetries)] loop.  [api n] is the outcome of
    the call number [n], counting from 0.  Each iteration uses one unit
    of [fuel]; [None] means the fuel ran out. *)
Fixpoint retry_loop (fuel : nat) (api : nat -> api_outcome)
    (maxRetries retries : nat) (t : trace)
    : option (result string * trace) :=
  match fuel with
  | O => None
  | S fuel =>
      if (retries <=? maxRetries)%nat then
        let outcome := api (calls t) in
        let t := called t in
        match attempt outcome with
        | Ok text => Some (Ok text, t)
        | Throw message =>
            let retries := S retries in
            if (maxRetries <? retries)%nat then
              Some (Throw ("Failed to get valid Gemini analysis after "
                           +:+ pretty (maxRetries + 1)%nat
                           +:+ " attempts: " +:+ message), t)
            else
              let delay := 1500 * 2 ^ (Z.of_nat retries - 1) in
              retry_loop fuel api maxRetries retries (slept delay t)
        end
      else Some (Throw "Gemini analysis failed after all retries.", t)
  end.

Definition no_trace : trace := {| calls := 0; sleeps := [] |}.

Definition callGeminiWithRetry (api : nat -> api_outcome)
    (maxRetries : nat) : option (result string * trace) :=
  retry_loop (maxRetries + 2) api maxRetries 0 no_trace.


(** A response whose [text()] returns [t]. *)
Definition text_response (t : string) : api_outcome :=
  Resolves (Some {| has_text := true; text_call := Ok t;
                    candidate_part_text := None |}).


(** An API that never answers. *)
Definition dead_api (n : nat) : api_outcome := Rejects "fetch failed".

End Retry.

(* ===================================================================== *)
(** ** Response validation: [analyzeWithGemini] *)
(* ===================================================================== *)

Module Validation.
Section WithRuntime.
Context `{!Builtins}.

Definition requiredCategories : list string :=
  [ "Problem Statement"; "Solution/Product"; "Market Opportunity";
    "Business Model"; "Competitive Landscape"; "Team";
    "Traction/Milestones"; "Financial Projections";
    "Clarity and Presentation" ].

Definition requiredTopLevelFields : list string :=
  [ "overall_strengths"; "overall_weaknesses"; "recommendation";
    "confidence_score"; "recommendations_for_investor";
    "processing_date" ].

(** [!categoryData]. *)
Definition category_missing (analysisResult : json) (cat : string) : bool :=
  negb (truthy (get analysisResult cat)).

(** [typeof categoryData.score !== 'number' || categoryData.score < 0 ||
    categoryData.score > 10]. *)
Definition score_invalid (categoryData : json) : bool :=
  match get categoryData "score" with
  | Some (JNum score) => PrimFloat.ltb score 0 || PrimFloat.ltb 10 score
  | _ => true
  end.

(** The category is present and its score is refused. *)
Definition category_invalid (analysisResult : json) (cat : string) : bool :=
  match get analysisResult cat with
  | Some categoryData =>
      truthy (Some categoryData) && score_invalid categoryData
  | None => false
  end.

Definition missingCategories (analysisResult : json) : list string :=
  filter (fun cat => category_missing analysisResult cat = true)
         requiredCategories.

Definition categoriesWithInvalidScores (analysisResult : json)
    : list string :=
  omap (fun cat =>
          if category_invalid analysisResult cat then
            Some (cat +:+ " (Score: "
                  +:+ ToString (get analysisResult cat ≫= λ d, get d "score")
                  +:+ ")")
          else None)
       requiredCategories.

Definition missingTopLevelFields (analysisResult : json) : list string :=
  filter (fun field => nullish (get analysisResult field) = true)
         requiredTopLevelFields.

Definition nonempty {A} (l : list A) : bool := (0 <? length l)%nat.

Definition validationErrors (analysisResult : json) : list string :=
  (if nonempty (missingCategories analysisResult)
   then ["Missing categories: "
         +:+ join ", " (missingCategories analysisResult)] else [])
  ++ (if nonempty (categoriesWithInvalidScores analysisResult)
      then ["Invalid scores: "
            +:+ join ", " (categoriesWithInvalidScores analysisResult)]
      else [])
  ++ (if nonempty (missingTopLevelFields analysisResult)
      then ["Missing top-level fields: "
            +:+ join "; " (missingTopLevelFields analysisResult)]
      else []).

Definition missing_warning (analysisResult : json) : string :=
  "Warning: Gemini response missing categories: "
  +:+ join ", " (missingCategories analysisResult)
  +:+ ". These will be scored as 0.".

(** The checks that follow [JSON.parse], up to [return analysisResult]:
    the value returned or the error thrown, and the lines written with
    [console.warn].  Indexing [null] throws a [TypeError]. *)
Definition validate_and_score (analysisResult : json)
    : result json * list string :=
  match analysisResult with
  | JNull =>
      (Throw "Cannot read properties of null (reading 'Problem Statement')",
       [])
  | _ =>
      if nonempty (categoriesWithInvalidScores analysisResult)
         || nonempty (missingTopLevelFields analysisResult)
      then
        (Throw ("Analysis validation failed: "
                +:+ join "; " (validationErrors analysisResult)), [])
      else
        let warnings :=
          if nonempty (missingCategories analysisResult)
          then [missing_warning analysisResult] else [] in
        (Ok (set analysisResult "overall_score"
               (JNum (of_int (Scoring.calculateOverallScore analysisResult)))),
         warnings)
  end.





(** [!extractedSlides || !Array.isArray(extractedSlides) ||
    extractedSlides.length === 0]. *)
Definition slides_of (extractedSlides : option json) : option (list json) :=
  match extractedSlides with
  | Some (JArr (s :: l)) => Some (s :: l)
  | _ => None
  end.








End WithRuntime.
End Validation.

(* ===================================================================== *)
(** ** The job row of table [analysis_results] and the handlers' monad *)
(* ===================================================================== *)

Module EmailStatus.
(** The values written to column [email_status]. *)
Inductive t : Type := SENDING | SENT | FAILED.
End EmailStatus.

Module Job.

(** The values written to column [processing_status]. *)
Inductive status : Type :=
| PENDING
| UPLOADING_DECK
| EXTRACTING_TEXT
| ANALYZING_AI
| SAVING_ANALYSIS
| GENERATING_PDF
| UPLOADING_PDF
| COMPLETED
| FAILED
| FILE_UNAVAILABLE.

Definition status_eqb (a b : status) : bool :=
  match a, b with
  | PENDING, PENDING | UPLOADING_DECK, UPLOADING_DECK
  | EXTRACTING_TEXT, EXTRACTING_TEXT | ANALYZING_AI, ANALYZING_AI
  | SAVING_ANALYSIS, SAVING_ANALYSIS | GENERATING_PDF, GENERATING_PDF
  | UPLOADING_PDF, UPLOADING_PDF | COMPLETED, COMPLETED
  | FAILED, FAILED | FILE_UNAVAILABLE, FILE_UNAVAILABLE => true
  | _, _ => false
  end.

(** One job: the columns of its row that the handlers write. *)
Record row : Type := {
  processing_status : status;
  failure_reason : option string;
  pdf_s3_key : option string;
  email_status : option EmailStatus.t;
  email_failure_reason : option string;
  analysis_data : json;
  overall_score : Z;
  recommendation : option json;
  confidence_score : option json
}.

(** The [UPDATE] statements issued for one job. *)
Inductive db_write : Type :=
| SetStatus (s : status) (reason : option string)
    (* updateAnalysisStatus: processing_status, failure_reason *)
| SetAnalysis (data : json) (score : Z) (rec conf : option json)
    (* updateAnalysisResultInDB *)
| SetPdfKeyCompleted (key : string)
    (* updatePdfKeyAndComplete: pdf_s3_key, processing_status *)
| SetEmailStatus (s : EmailStatus.t) (reason : option string)
    (* updateEmailStatus: email_status, email_failure_reason *)
| SetFileUnavailable.
    (* the download route: processing_status only *)

Definition apply_write (w : db_write) (r : row) : row :=
  match w with
  | SetStatus s reason =>
      {| processing_status := s; failure_reason := reason;
         pdf_s3_key := pdf_s3_key r; email_status := email_status r;
         email_failure_reason := email_failure_reason r;
         analysis_data := analysis_data r;
         overall_score := overall_score r;
         recommendation := recommendation r;
         confidence_score := confidence_score r |}
  | SetAnalysis data score rec conf =>
      {| processing_status := processing_status r;
         failure_reason := failure_reason r;
         pdf_s3_key := pdf_s3_key r; email_status := email_status r;
         email_failure_reason := email_failure_reason r;
         analysis_data := data; overall_score := score;
         recommendation := rec; confidence_score := conf |}
  | SetPdfKeyCompleted key =>
      {| processing_status := COMPLETED;
         failure_reason := failure_reason r;
         pdf_s3_key := Some key; email_status := email_status r;
         email_failure_reason := email_failure_reason r;
         analysis_data := analysis_data r;
         overall_score := overall_score r;
         recommendation := recommendation r;
         confidence_score := confidence_score r |}
  | SetEmailStatus s reason =>
      {| processing_status := processing_status r;
         failure_reason := failure_reason r;
         pdf_s3_key := pdf_s3_key r; email_status := Some s;
         email_failure_reason := reason;
         analysis_data := analysis_data r;
         overall_score := overall_score r;
         recommendation := recommendation r;
         confidence_score := confidence_score r |}
  | SetFileUnavailable =>
      {| processing_status := FILE_UNAVAILABLE;
         failure_reason := failure_reason r;
         pdf_s3_key := pdf_s3_key r; email_status := email_status r;
         email_failure_reason := email_failure_reason r;
         analysis_data := analysis_data r;
         overall_score := overall_score r;
         recommendation := recommendation r;
         confidence_score := confidence_score r |}
  end.

(** The row inserted by [saveAnalysisToDB(s3KeyDeck, {}, userId,
    originalFileName)]: status PENDING, an empty analysis with score 0,
    every other column NULL. *)
Definition inserted_row : row :=
  {| processing_status := PENDING; failure_reason := None;
     pdf_s3_key := None; email_status := None;
     email_failure_reason := None; analysis_data := JObj ∅;
     overall_score := 0; recommendation := None;
     confidence_score := None |}.

End Job.

(** A handler runs in a state and error monad: the state is the value of
    the variable [currentStage] and the writes made to the job's row so
    far, oldest first; an exception carries its message. *)
Module Handler.
Import Job.

Record state : Type := {
  currentStage : string;
  writes : list db_write
}.

Definition M (A : Type) : Type := state -> result A * state.

Definition ret {A} (a : A) : M A := fun s => (Ok a, s).

Definition throw {A} (msg : string) : M A := fun s => (Throw msg, s).

Definition bind {A B} (m : M A) (k : A -> M B) : M B :=
  fun s =>
    match m s with
    | (Ok a, s') => k a s'
    | (Throw e, s') => (Throw e, s')
    end.

(** [try { body } catch (error) { handler }]. *)
Definition try_catch {A} (body : M A) (handler : string -> M A) : M A :=
  fun s =>
    match body s with
    | (Ok a, s') => (Ok a, s')
    | (Throw e, s') => handler e s'
    end.

(** [await f()] for an operation of the environment whose outcome is
    [r]. *)
Definition await {A} (r : result A) : M A := fun s => (r, s).

Definition write (w : db_write) : M unit :=
  fun s => (Ok tt, {| currentStage := currentStage s;
                      writes := writes s ++ [w] |}).

Definition set_stage (name : string) : M unit :=
  fun s => (Ok tt, {| currentStage := name; writes := writes s |}).

Definition get_stage : M string := fun s => (Ok (currentStage s), s).

Definition start : state := {| currentStage := "Initiating"; writes := [] |}.

(** A specification of a handler: from any state it appends writes [ws]
    to the log, with [Qok a ws] when it returns [a] and [Qthrow e ws] when
    it throws [e]. *)
Definition extends {A} (m : M A) (Qok : A -> list db_write -> Prop)
    (Qthrow : string -> list db_write -> Prop) : Prop :=
  forall st,
    exists ws,
      writes (snd (m st)) = writes st ++ ws
      /\ match fst (m st) with
         | Ok a => Qok a ws
         | Throw e => Qthrow e ws
         end.

Declare Scope handler_scope.
Delimit Scope handler_scope with handler.
Notation "'let*' x ':=' m 'in' k" :=
  (bind m (fun x => k))
    (at level 10, x name, k at level 200, only parsing) : handler_scope.
Notation "m ';;' k" :=
  (bind m (fun _ => k))
    (at level 100, k at level 200, only parsing, right associativity)
    : handler_scope.

End Handler.

(* ===================================================================== *)
(** ** Notification dispatcher: [updateEmailStatus], [sendCompletionEmail] *)
(* ===================================================================== *)

Module Email.
Import Job Handler.
Local Open Scope handler_scope.

(** What the dispatcher finds around it: the two environment variables,
    the outcome of [getSignedUrl], the outcome of creating the transport
    and sending (the message id, or the error's message), and whether
    the [UPDATE] of [updateEmailStatus] for a given status goes through
    or fails in the database. *)
Record env : Type := {
  GMAIL_USER : option string;
  GMAIL_APP_PASSWORD : option string;
  signed_url : result string;
  sendMail : result string;
  db_email_ok : EmailStatus.t -> bool
}.

Definition is_failed (s : EmailStatus.t) : bool :=
  match s with EmailStatus.FAILED => true | _ => false end.

(** [(status === 'FAILED' && failureReason) ?
     failureReason.substring(0, 255) : null]. *)
Definition reasonToStore (status : EmailStatus.t)
    (failureReason : option string) : option string :=
  match failureReason with
  | Some reason =>
      if is_failed status && truthy_str (Some reason)
      then Some (substring0 255 reason) else None
  | None => None
  end.

(** The [catch] clause swallows a database error and returns [false]. *)
Definition updateEmailStatus (e : env) (status : EmailStatus.t)
    (failureReason : option string) : M bool :=
  if db_email_ok e status then
    write (SetEmailStatus status (reasonToStore status failureReason)) ;;
    ret true
  else ret false.

Definition sendCompletionEmail (e : env) (recipientEmail : option string)
    (deckOriginalFilename : option string) (pdfS3Key : option string)
    : M bool :=
  if negb (truthy_str (GMAIL_USER e))
     || negb (truthy_str (GMAIL_APP_PASSWORD e)) then
    updateEmailStatus e EmailStatus.FAILED
      (Some "Gmail API configuration missing in server") ;;
    ret false
  else if negb (truthy_str recipientEmail) then
    updateEmailStatus e EmailStatus.FAILED
      (Some "Recipient email address missing") ;;
    ret false
  else if negb (truthy_str pdfS3Key) then
    updateEmailStatus e EmailStatus.FAILED (Some "PDF S3 Key missing") ;;
    ret false
  else
    let* downloadUrl :=
      try_catch
        (let* url := await (signed_url e) in ret (Some url))
        (fun message =>
           updateEmailStatus e EmailStatus.FAILED
             (Some ("Failed to generate report download link: "
                    +:+ message)) ;;
           ret None) in
    match downloadUrl with
    | None => ret false
    | Some downloadUrl =>
        (* the subject and the two bodies are built from the file name,
           the analysis id and [downloadUrl] and handed to [sendMail] *)
        updateEmailStatus e EmailStatus.SENDING None ;;
        try_catch
          (let* info := await (sendMail e) in
           updateEmailStatus e EmailStatus.SENT None ;;
           ret true)
          (fun message =>
             let errorMessage :=
               if truthy_str (Some message) then message
               else "Unknown Gmail SMTP error" in
             updateEmailStatus e EmailStatus.FAILED
               (Some ("Gmail SMTP Error: " +:+ errorMessage)) ;;
             ret false)
    end.

(** The five ways in which the dispatch fails, in the order in which the
    code meets them. *)
Inductive failure : Type :=
| MissingCredentials
| MissingRecipient
| MissingReportKey
| SignedUrlFailed (message : string)
| TransportFailed (message : string).

Definition outcome (e : env) (recipientEmail pdfS3Key : option string)
    : option failure :=
  if negb (truthy_str (GMAIL_USER e))
     || negb (truthy_str (GMAIL_APP_PASSWORD e)) then
    Some MissingCredentials
  else if negb (truthy_str recipientEmail) then Some MissingRecipient
  else if negb (truthy_str pdfS3Key) then Some MissingReportKey
  else
    match signed_url e, sendMail e with
    | Throw m, _ => Some (SignedUrlFailed m)
    | Ok _, Throw m => Some (TransportFailed m)
    | Ok _, Ok _ => None
    end.

(** The text handed to [updateEmailStatus] for each failure. *)
Definition failure_message (f : failure) : string :=
  match f with
  | MissingCredentials => "Gmail API configuration missing in server"
  | MissingRecipient => "Recipient email address missing"
  | MissingReportKey => "PDF S3 Key missing"
  | SignedUrlFailed m => "Failed to generate report download link: " +:+ m
  | TransportFailed m =>
      "Gmail SMTP Error: "
      +:+ (if truthy_str (Some m) then m else "Unknown Gmail SMTP error")
  end.

(** The write of one [updateEmailStatus], if the database carries it
    out. *)
Definition recorded (e : env) (status : EmailStatus.t)
    (failureReason : option string) : list db_write :=
  if db_email_ok e status
  then [SetEmailStatus status (reasonToStore status failureReason)] else [].

(** The writes of the dispatch, by outcome: the status SENDING is written
    once the link has been signed. *)
Definition email_writes (e : env) (recipientEmail pdfS3Key : option string)
    : list db_write :=
  match outcome e recipientEmail pdfS3Key with
  | Some (TransportFailed m) =>
      recorded e EmailStatus.SENDING None
      ++ recorded e EmailStatus.FAILED
           (Some (failure_message (TransportFailed m)))
  | Some f => recorded e EmailStatus.FAILED (Some (failure_message f))
  | None =>
      recorded e EmailStatus.SENDING None ++ recorded e EmailStatus.SENT None
  end.

(** The row after some writes. *)
Definition after (ws : list db_write) (r : row) : row :=
  fold_left (fun r w => apply_write w r) ws r.

Definition working_mail : env :=
  {| GMAIL_USER := Some "reports@example.com";
     GMAIL_APP_PASSWORD := Some "app-password";
     signed_url := Ok "https://bucket.example/reports/x.pdf?sig=1";
     sendMail := Ok "<message-id>";
     db_email_ok := fun _ => true |}.

Definition smtp_down : env :=
  {| GMAIL_USER := Some "reports@example.com";
     GMAIL_APP_PASSWORD := Some "app-password";
     signed_url := Ok "https://bucket.example/reports/x.pdf?sig=1";
     sendMail := Throw "connect ETIMEDOUT";
     db_email_ok := fun _ => true |}.

End Email.

(* ===================================================================== *)
(** ** Job orchestrator: the upload route and the download route *)
(* ===================================================================== *)

Module Pipeline.
Import Job Handler.
Local Open Scope handler_scope.

(** What one run of the upload handler finds around it: the outcome of
    each stage's side effect, and for each [UPDATE] whether the database
    carries it out; for the final [UPDATE] also the number of rows that
    it reports to have matched, which is 0 when the row has been deleted
    in the meantime ([DELETE /record/:analysisId]). *)
Record env : Type := {
  db_insert : result unit;          (* saveAnalysisToDB *)
  db_status_ok : status -> bool;    (* updateAnalysisStatus, per status *)
  deck_upload : result unit;        (* uploadToS3 of the deck *)
  extraction : result (option json);(* runTextExtraction *)
  analysis : result json;           (* analyzeWithGemini *)
  db_save_ok : bool;                (* updateAnalysisResultInDB *)
  pdf : result string;              (* generateInvestmentThesisPDF:
                                       the report's file name *)
  pdf_upload : result unit;         (* uploadToS3 of the report *)
  db_finalize_ok : bool;            (* updatePdfKeyAndComplete *)
  finalize_rowCount : nat;          (* its [result.rowCount] *)
  mail : Email.env
}.

(** The [catch] clause logs a database error and does not rethrow. *)
Definition updateAnalysisStatus (db_ok : bool) (s : status)
    (failureReason : option string) : M unit :=
  let reasonToStore :=
    match failureReason with
    | Some reason =>
        if status_eqb s FAILED && truthy_str (Some reason)
        then Some (substring0 500 reason) else None
    | None => None
    end in
  if db_ok then write (SetStatus s reasonToStore) else ret tt.

(** [analysisResult?.recommendation || null]. *)
Definition or_null (v : option json) : option json :=
  if truthy v then v else None.

Definition updateAnalysisResultInDB (db_ok : bool) (analysisResult : json)
    : M unit :=
  let overallScore := Scoring.calculateOverallScore analysisResult in
  let recommendation := or_null (get analysisResult "recommendation") in
  let confidence := or_null (get analysisResult "confidence_score") in
  if db_ok then
    write (SetAnalysis analysisResult overallScore recommendation confidence)
  else throw "Failed to update analysis details in database.".

(** The statement is carried out or the database throws.  When it is
    carried out, the function returns whether a row matched
    ([result.rowCount > 0]); it does not throw when none did. *)
Definition updatePdfKeyAndComplete (db_ok : bool) (rowCount : nat)
    (pdfS3Key : string) : M bool :=
  if db_ok then
    write (SetPdfKeyCompleted pdfS3Key) ;; ret (0 <? rowCount)%nat
  else throw "Failed to finalize PDF location in database.".

Inductive response : Type :=
| Complete (pdfReportKey : string) (analysisResult : json)   (* 200 *)
| Failed500 (message : string) (stageFailed : string).       (* 500 *)

(** The callback of [POST /api/analysis/upload] once the file has been
    received and the user is known. *)
Definition upload_handler (e : env) (userEmail originalFileName : string)
    : M response :=
  try_catch
    (set_stage "Database Initialization" ;;
     await (db_insert e) ;;

     set_stage "Deck Upload to S3" ;;
     updateAnalysisStatus (db_status_ok e UPLOADING_DECK)
       UPLOADING_DECK None ;;
     await (deck_upload e) ;;

     set_stage "Text Extraction" ;;
     updateAnalysisStatus (db_status_ok e EXTRACTING_TEXT)
       EXTRACTING_TEXT None ;;
     let* extractedTextData := await (extraction e) in
     match Validation.slides_of extractedTextData with
     | None => throw "Text extraction yielded no slides or invalid data."
     | Some slides =>
         (* outside 3..30 slides: console.warn only *)
         set_stage "AI Analysis" ;;
         updateAnalysisStatus (db_status_ok e ANALYZING_AI)
           ANALYZING_AI None ;;
         let* analysisResult := await (analysis e) in

         set_stage "Saving Analysis Results" ;;
         updateAnalysisStatus (db_status_ok e SAVING_ANALYSIS)
           SAVING_ANALYSIS None ;;
         updateAnalysisResultInDB (db_save_ok e) analysisResult ;;

         set_stage "PDF Generation" ;;
         updateAnalysisStatus (db_status_ok e GENERATING_PDF)
           GENERATING_PDF None ;;
         let* reportFilename := await (pdf e) in
         let pdfS3Key := "reports/" +:+ reportFilename in

         set_stage "PDF Upload to S3" ;;
         updateAnalysisStatus (db_status_ok e UPLOADING_PDF)
           UPLOADING_PDF None ;;
         await (pdf_upload e) ;;

         set_stage "Finalizing Database Record" ;;
         updatePdfKeyAndComplete (db_finalize_ok e) (finalize_rowCount e)
           pdfS3Key ;;

         set_stage "Email Notification" ;;
         Email.sendCompletionEmail (mail e) (Some userEmail)
           (Some originalFileName) (Some pdfS3Key) ;;

         ret (Complete pdfS3Key analysisResult)
     end)
    (fun message =>
       let* currentStage := get_stage in
       (* [if (analysisId)]: the row exists once the insert succeeded *)
       (if is_ok (db_insert e)
        then updateAnalysisStatus (db_status_ok e FAILED) FAILED
               (Some message)
        else ret tt) ;;
       ret (Failed500
              ("Processing failed during '" +:+ currentStage
               +:+ "'. Please check server logs for details. Error: "
               +:+ message)
              currentStage)).

(** The writes of one run, oldest first. *)
Definition upload_writes (e : env) (userEmail originalFileName : string)
    : list db_write :=
  writes (snd (upload_handler e userEmail originalFileName start)).

(** [GET /api/analysis/report/:analysisId/download] for a row that
    exists and belongs to the caller.  [s3] is the outcome of the [try]
    block (the HEAD request, then the signing): the signed URL or the
    error; [db_ok] tells whether the [UPDATE] in the [catch] clause goes
    through. *)
Inductive download_response : Type :=
| NotAvailableYet                 (* 404 *)
| AnalysisFailed                  (* 400 *)
| DownloadUrl (signedUrl : string)
| FileAccessError.                (* 404, FILE_ACCESS_ERROR *)

Definition download (s3 : result string) (db_ok : bool) (r : row)
    : download_response * list db_write :=
  if negb (truthy_str (pdf_s3_key r)) then (NotAvailableYet, [])
  else if status_eqb (processing_status r) FAILED then (AnalysisFailed, [])
  else
    match s3 with
    | Ok signedUrl => (DownloadUrl signedUrl, [])
    | Throw _ =>
        (FileAccessError, if db_ok then [SetFileUnavailable] else [])
    end.

(** *** The life of one job

    The upload handler never reads the row: its writes are fixed by its
    environment.  A job is therefore its row together with the writes
    that the handler has still to make; download requests may arrive
    between any two of them, and after the last.  The row is followed
    while it exists: once it has been deleted, the statements that are
    carried out match no row, and there is no row left to describe. *)
Record sys : Type := {
  job : row;
  pending : list db_write
}.

Inductive event : Type :=
| HandlerWrite
| DownloadRequest (s3 : result string) (db_ok : bool).

Definition step (s : sys) (ev : event) : sys :=
  match ev with
  | HandlerWrite =>
      match pending s with
      | [] => s
      | w :: ws => {| job := apply_write w (job s); pending := ws |}
      end
  | DownloadRequest s3 db_ok =>
      {| job := Email.after (snd (download s3 db_ok (job s))) (job s);
         pending := pending s |}
  end.

Definition run (evs : list event) (s : sys) : sys := fold_left step evs s.

(** The job right after its row has been inserted. *)
Definition submitted (e : env) (userEmail originalFileName : string) : sys :=
  {| job := inserted_row;
     pending := upload_writes e userEmail originalFileName |}.

Definition reachable (r : row) : Prop :=
  exists e userEmail originalFileName evs,
    job (run evs (submitted e userEmail originalFileName)) = r.

(** *** The stage sequence *)

Definition stage_index (s : status) : option nat :=
  match s with
  | PENDING => Some 0%nat
  | UPLOADING_DECK => Some 1%nat
  | EXTRACTING_TEXT => Some 2%nat
  | ANALYZING_AI => Some 3%nat
  | SAVING_ANALYSIS => Some 4%nat
  | GENERATING_PDF => Some 5%nat
  | UPLOADING_PDF => Some 6%nat
  | COMPLETED => Some 7%nat
  | FAILED | FILE_UNAVAILABLE => None
  end.

Definition terminal (s : status) : bool :=
  match s with
  | COMPLETED | FAILED | FILE_UNAVAILABLE => true
  | _ => false
  end.

(** [b] comes later than [a] in the stage sequence. *)
Definition forward (a b : status) : bool :=
  match stage_index a, stage_index b with
  | Some i, Some j => (i <? j)%nat
  | _, _ => false
  end.

(** [b] is the stage right after [a]. *)
Definition next (a b : status) : bool :=
  match stage_index a, stage_index b with
  | Some i, Some j => (S i =? j)%nat
  | _, _ => false
  end.

(** The moves of the status that the state machine allows; [step_ok] is
    [forward] or [next]. *)
Definition allowed (step_ok : status -> status -> bool) (a b : status)
    : bool :=
  status_eqb a b
  || step_ok a b
  || (status_eqb b FAILED && negb (terminal a))
  || (status_eqb a COMPLETED && status_eqb b FILE_UNAVAILABLE).

(** *** Invariant of a job *)

Definition is_null {A} (v : option A) : bool :=
  match v with None => true | Some _ => false end.

Definition is_email_write (w : db_write) : bool :=
  match w with SetEmailStatus _ _ => true | _ => false end.

(** The writes that may remain while the status is the stage of index
    [k <= 6]: status writes for later stages in increasing order and
    writes of the analysis, closed by nothing, by a write of FAILED, or
    by the completion followed by email writes only. *)
Fixpoint remaining_ok (k : nat) (ws : list db_write) : bool :=
  match ws with
  | [] => true
  | SetStatus FAILED _ :: ws' => match ws' with [] => true | _ => false end
  | SetStatus s _ :: ws' =>
      match stage_index s with
      | Some j => (k <? j)%nat && (j <? 7)%nat && remaining_ok j ws'
      | None => false
      end
  | SetAnalysis _ _ _ _ :: ws' => remaining_ok k ws'
  | SetPdfKeyCompleted key :: ws' =>
      truthy_str (Some key) && forallb is_email_write ws'
  | SetEmailStatus _ _ :: _ => false
  | SetFileUnavailable :: _ => false
  end.

Definition invariant (s : sys) : bool :=
  match processing_status (job s) with
  | COMPLETED | FILE_UNAVAILABLE =>
      truthy_str (pdf_s3_key (job s)) && forallb is_email_write (pending s)
  | FAILED =>
      is_null (pdf_s3_key (job s))
      && match pending s with [] => true | _ => false end
  | st =>
      is_null (pdf_s3_key (job s))
      && match stage_index st with
         | Some k => (k <? 7)%nat && remaining_ok k (pending s)
         | None => false
         end
  end.

(** *** Specifications of the parts of the upload handler

    [rises k ws k']: the writes [ws] are writes of the analysis and status
    writes for non-terminal stages of increasing index, all above [k] and
    none above [k']. *)
Fixpoint rises (k : nat) (ws : list db_write) (k' : nat) : bool :=
  match ws with
  | [] => (k <=? k')%nat
  | SetStatus s _ :: ws' =>
      match stage_index s with
      | Some j => (k <? j)%nat && (j <? 7)%nat && rises j ws' k'
      | None => false
      end
  | SetAnalysis _ _ _ _ :: ws' => rises k ws' k'
  | _ => false
  end.

(** A part of the handler that takes it from stage [k] to stage [k'],
    or throws on the way. *)
Definition stage (k : nat) {A} (m : M A) (k' : nat) : Prop :=
  extends m (fun _ ws => rises k ws k' = true)
            (fun _ ws => rises k ws k' = true).

(** A part of the handler that starts at stage [k] and runs to the end of
    the [try] block, or throws before the completion is written. *)
Definition finishing (k : nat) {A} (m : M A) : Prop :=
  extends m (fun _ ws => remaining_ok k ws = true)
            (fun _ ws => rises k ws 6 = true).

(** *** Sample environments *)

Definition slide : json :=
  JObj (<["text" := JStr "Problem"]> (<["notes" := JStr ""]> ∅)).

Definition all_well : env :=
  {| db_insert := Ok tt;
     db_status_ok := fun _ => true;
     deck_upload := Ok tt;
     extraction := Ok (Some (JArr (replicate 10 slide)));
     analysis := Ok Scoring.tie_scores;
     db_save_ok := true;
     pdf := Ok "Investment_Thesis_deck_01012025.pdf";
     pdf_upload := Ok tt;
     db_finalize_ok := true;
     finalize_rowCount := 1;
     mail := Email.working_mail |}.

(** The text extraction fails. *)
Definition extraction_fails : env :=
  {| db_insert := Ok tt;
     db_status_ok := fun _ => true;
     deck_upload := Ok tt;
     extraction := Throw "Extraction script error: not a presentation";
     analysis := Ok Scoring.tie_scores;
     db_save_ok := true;
     pdf := Ok "Investment_Thesis_deck_01012025.pdf";
     pdf_upload := Ok tt;
     db_finalize_ok := true;
     finalize_rowCount := 1;
     mail := Email.working_mail |}.

(** A deck of four slides reaches the upload route. *)
Definition four_slides : env :=
  {| db_insert := Ok tt;
     db_status_ok := fun _ => true;
     deck_upload := Ok tt;
     extraction := Ok (Some (JArr (replicate 4 slide)));
     analysis := Ok Scoring.tie_scores;
     db_save_ok := true;
     pdf := Ok "Investment_Thesis_deck_01012025.pdf";
     pdf_upload := Ok tt;
     db_finalize_ok := true;
     finalize_rowCount := 1;
     mail := Email.working_mail |}.

(** The statuses of the row after each of the handler's writes. *)
Definition statuses (e : env) : list status :=
  map (fun n =>
         processing_status
           (job (run (replicate n HandlerWrite)
                   (submitted e "founder@example.com" "deck.pptx"))))
      (seq 0 (S (length (upload_writes e "founder@example.com" "deck.pptx")))).

(** The ten writes of a successful run, after which the stored report is found missing. *)
Definition report_lost : list event :=
  replicate 10 HandlerWrite ++ [DownloadRequest (Throw "NotFound") true].

End Pipeline.

(* ===================================================================== *)
(** ** Report renderer: [prepareReportData], [generateInvestmentThesisPDF] *)
(* ===================================================================== *)

Module Report.

(** *** Strings *)

Definition chars (s : string) : list ascii := list_ascii_of_string s.
Definition text (l : list ascii) : string := string_of_list_ascii l.

Definition is_slash (c : ascii) : bool := Ascii.eqb c "/".
Definition is_dot (c : ascii) : bool := Ascii.eqb c ".".

Fixpoint drop_while (p : ascii -> bool) (l : list ascii) : list ascii :=
  match l with
  | c :: l' => if p c then drop_while p l' else l
  | [] => []
  end.

Fixpoint take_while (p : ascii -> bool) (l : list ascii) : list ascii :=
  match l with
  | c :: l' => if p c then c :: take_while p l' else []
  | [] => []
  end.

(** The last segment of a POSIX path, trailing slashes put aside: what
    [path.basename(p)] returns. *)
Definition last_segment (p : list ascii) : list ascii :=
  rev (take_while (fun c => negb (is_slash c))
         (drop_while is_slash (rev p))).

(** Cuts the reversed segment at its last dot: what comes before the
    dot, and the dot with what follows. *)
Fixpoint cut_at_last_dot (reversed ext : list ascii)
    : option (list ascii * list ascii) :=
  match reversed with
  | [] => None
  | c :: before =>
      if is_dot c then Some (rev before, c :: ext)
      else cut_at_last_dot before (c :: ext)
  end.

(** [path.extname(p)]: from the last dot of the last segment, and empty
    when there is no dot, when the only dot starts the segment, and for
    the segment [..]. *)
Definition extname (p : string) : string :=
  let segment := last_segment (chars p) in
  match cut_at_last_dot (rev segment) [] with
  | Some (before, ext) =>
      match before with
      | [] => ""
      | _ => if String.eqb (text segment) ".." then "" else text ext
      end
  | None => ""
  end.

(** [path.basename(p, path.extname(p))]. *)
Definition basename_without_ext (p : string) : string :=
  let segment := last_segment (chars p) in
  let ext := chars (extname p) in
  text (take (length segment - length ext) segment).

(** The class [[a-zA-Z0-9\-_ ]]. *)
Definition is_name_char (c : ascii) : bool :=
  let n := nat_of_ascii c in
  ((97 <=? n) && (n <=? 122))%nat || ((65 <=? n) && (n <=? 90))%nat
  || ((48 <=? n) && (n <=? 57))%nat
  || Ascii.eqb c "-" || Ascii.eqb c "_" || Ascii.eqb c " ".

Definition keep (p : ascii -> bool) (l : list ascii) : list ascii :=
  List.filter p l.

Definition space_to_underscore (c : ascii) : ascii :=
  if Ascii.eqb c " " then "_"%char else c.

(** [s.split('_')]. *)
Fixpoint split_underscore (l current : list ascii) : list string :=
  match l with
  | [] => [text (rev current)]
  | c :: l' =>
      if Ascii.eqb c "_" then text (rev current) :: split_underscore l' []
      else split_underscore l' (c :: current)
  end.

(** *** date-fns's [format] for the two patterns used *)

Definition two_digits (n : nat) : string :=
  if (n <? 10)%nat then "0" +:+ pretty n else pretty n.

Definition four_digits (n : nat) : string :=
  if (n <? 10)%nat then "000" +:+ pretty n
  else if (n <? 100)%nat then "00" +:+ pretty n
  else if (n <? 1000)%nat then "0" +:+ pretty n
  else pretty n.

(** [format(t, 'ddMMyyyy')]. *)
Definition format_ddMMyyyy (t : instant) : string :=
  two_digits (day t) +:+ two_digits (month t) +:+ four_digits (year t).

Definition month_name (m : nat) : string :=
  nth (m - 1)
    [ "January"; "February"; "March"; "April"; "May"; "June"; "July";
      "August"; "September"; "October"; "November"; "December" ] "".

(** [format(t, "MMMM dd, yyyy HH:mm:ss 'UTC'")]. *)
Definition format_long (t : instant) : string :=
  month_name (month t) +:+ " " +:+ two_digits (day t) +:+ ", "
  +:+ four_digits (year t) +:+ " " +:+ two_digits (hour t) +:+ ":"
  +:+ two_digits (minute t) +:+ ":" +:+ two_digits (second t) +:+ " UTC".

(** *** [prepareReportData] *)

Record report_details : Type := {
  reportData : json;
  filename : string
}.

(** The name derived from the uploaded file's name.  ([path.basename]
    and [path.extname] do not throw on a string.) *)
Definition startupName_of (originalFileName : option string)
    (analysisId : Z) : string :=
  if truthy_str originalFileName then
    match originalFileName with
    | Some name =>
        let startupName :=
          substring0 50
            (text (map space_to_underscore
                     (keep is_name_char
                        (chars (basename_without_ext name))))) in
        if truthy_str (Some startupName) then startupName
        else "Analysis_" +:+ pretty analysisId
    | None => "Analysis_" +:+ pretty analysisId
    end
  else "Analysis_" +:+ pretty analysisId.

(** [today] is the value of [new Date()]. *)
Definition prepareReportData (today : instant) (analysisResult : json)
    (originalFileName : option string) (analysisId : Z) : report_details :=
  let startupName := startupName_of originalFileName analysisId in
  let dateStr := format_ddMMyyyy today in
  {| reportData := analysisResult;
     filename := "Investment_Thesis_" +:+ startupName +:+ "_" +:+ dateStr
                 +:+ ".pdf" |}.

(** *** The document

    The calls made on the PDFKit document, in order; PDFKit lays them
    out. *)
Inductive op : Type :=
| H1 (txt : string)
| H2 (txt : string)
| SubHeading (txt : string)
| P (txt : string) (indent : nat) (oblique : bool)
| MoveDown (tenths : nat)
| PageNumbers.
    (* the loop over [doc.bufferedPageRange()] writing "Page i of n" *)

(** [addP]: [txt || 'N/A']. *)
Definition addP (txt : string) (indent : nat) (oblique : bool) : op :=
  P (if truthy_str (Some txt) then txt else "N/A") indent oblique.

(** [addP] for an argument [v || fallback] with a non-empty [fallback]:
    the argument is truthy, and PDFKit prints it. *)
Definition addP_or (printed : string) (indent : nat) (oblique : bool) : op :=
  P printed indent oblique.

(** [addBullet(txt)], where [inner] is the text of [txt || 'N/A']. *)
Definition addBullet (inner : string) : op :=
  addP ("•  " +:+ inner) 15 false.

(** [(w * 100).toFixed(0)] for a weight of the table. *)
Definition percent (weight : float) : string :=
  pretty (Math_round (weight * 100)%float).

Definition categoryOrder : list string := Validation.requiredCategories.

Definition categoryWeights : list (string * float) := Scoring.weights.

Definition weight_of (category : string) : float :=
  match List.find (fun e => String.eqb (fst e) category) categoryWeights with
  | Some (_, w) => w
  | None => 0%float
  end.

Section WithRuntime.
Context `{!Builtins}.

(** [`${v ?? fallback}`]. *)
Definition or_else (v : option json) (fallback : string) : string :=
  if nullish v then fallback else ToString v.

(** [v || fallback], printed. *)
Definition or_default (v : option json) (fallback : string) : string :=
  if truthy v then ToString v else fallback.

Definition category_section (analysisData : json) (category : string)
    : list op :=
  let catData := get analysisData category in
  [H2 (category +:+ " (" +:+ percent (weight_of category) +:+ "%)")]
  ++ (if truthy catData then
        [ SubHeading "Score:";
          addP (or_else (catData ≫= λ d, get d "score") "N/A" +:+ " / 10")
               20 false;
          SubHeading "Feedback:";
          addP_or (or_default (catData ≫= λ d, get d "qualitative_feedback")
                     "No specific feedback provided.") 20 false ]
      else [addP "Analysis data missing for this category." 20 true])
  ++ [MoveDown 7].

(** [Array.isArray(v) && v.length > 0 ? v.forEach(addBullet) :
    addBullet("None explicitly identified in the analysis.")]. *)
Definition bullets (v : option json) : list op :=
  match v with
  | Some (JArr (x :: l)) =>
      map (fun s => addBullet (or_default (Some s) "N/A")) (x :: l)
  | _ => [addBullet "None explicitly identified in the analysis."]
  end.

(** [format(new Date(analysisData.processing_date || Date.now()), ...)]:
    reading a property of [null] throws a [TypeError], and [format]
    throws a [RangeError] on an invalid date.  [now] is the value of
    [Date.now()]. *)
Definition analysisDateStr (now : instant) (analysisData : json)
    : result string :=
  match analysisData with
  | JNull =>
      Throw "Cannot read properties of null (reading 'processing_date')"
  | _ =>
      let recorded := get analysisData "processing_date" in
      let date :=
        if truthy recorded then recorded ≫= Date_parse else Some now in
      match date with
      | Some t => Ok (format_long t)
      | None => Throw "Invalid time value"
      end
  end.

(** The body of the promise of [generateInvestmentThesisPDF], up to
    [doc.end()]: the report's file name and the calls made on the
    document.  [today] and [now] are the two readings of the clock.
    (Failures of the file system are not part of this model.) *)
Definition generateInvestmentThesisPDF (today now : instant)
    (analysisData : json) (analysisId : Z)
    (originalFileName : option string) : result (string * list op) :=
  let reportDetails :=
    prepareReportData today analysisData originalFileName analysisId in
  let pdfFilename := filename reportDetails in
  let startupName :=
    let part := nth 2 (split_underscore (chars pdfFilename) []) "" in
    if truthy_str (Some part) then part else "Startup" in
  Js.bind (analysisDateStr now analysisData) (fun dateStr =>
  let overallScore := Scoring.calculateOverallScore analysisData in
  Ok (pdfFilename,
      [ H1 "Investment Thesis Summary";
        addP ("Startup Reference: " +:+ startupName) 0 false;
        addP ("Analysis Date: " +:+ dateStr) 0 false;
        MoveDown 5;
        SubHeading "Overall Recommendation:";
        addP_or (or_default (get analysisData "recommendation")
                   "Not Available") 20 false;
        SubHeading "Calculated Overall Score:";
        addP (pretty overallScore +:+ " / 100") 20 false;
        SubHeading "AI Confidence Score:";
        addP (or_else (get analysisData "confidence_score") "N/A"
              +:+ " / 100") 20 false;
        addP "Note: Confidence reflects AI certainty based on text completeness/coherence, not investment success."
             20 true;
        H1 "Category Analysis" ]
      ++ flat_map (category_section analysisData) categoryOrder
      ++ [ H1 "Overall Strengths & Weaknesses";
           SubHeading "Identified Strengths:" ]
      ++ bullets (get analysisData "overall_strengths")
      ++ [ MoveDown 5; SubHeading "Identified Weaknesses / Gaps:" ]
      ++ bullets (get analysisData "overall_weaknesses")
      ++ [ MoveDown 10;
           H1 "Recommendations for Investor Due Diligence";
           addP_or
             (or_default (get analysisData "recommendations_for_investor")
                "No specific recommendations provided beyond the category feedback.")
             0 false;
           MoveDown 10;
           PageNumbers ])).

End WithRuntime.

Definition new_year : instant :=
  {| year := 2025; month := 1; day := 1;
     hour := 9; minute := 30; second := 0 |}.



End Report.

(* ===================================================================== *)
(** ** The renderer over the heap: what it reads and what it writes *)
(* ===================================================================== *)

(** The analysis is an object that the upload handler holds by reference
    and hands to the renderer; [prepareReportData] hands the same
    reference on in [reportData].  Here the renderer runs on a state made
    of the objects that [JSON.parse] has built, each reached by its
    reference and taken with everything it holds, and of the PDFKit
    document, taken as the calls made on it so far.  Each statement of
    the renderer reads the analysis through its reference at the moment
    it runs. *)
Module Heap.
Import Report.

Definition ref : Type := nat.

Record state : Type := {
  objects : ref -> json;
  document : list op
}.

Definition R (A : Type) : Type := state -> result A * state.

Definition ret {A} (a : A) : R A := fun s => (Ok a, s).

Definition bind {A B} (m : R A) (k : A -> R B) : R B :=
  fun s =>
    match m s with
    | (Ok a, s') => k a s'
    | (Throw e, s') => (Throw e, s')
    end.

(** An expression that returns or throws. *)
Definition lift {A} (r : result A) : R A := fun s => (r, s).

(** The object behind a reference. *)
Definition read (l : ref) : R json := fun s => (Ok (objects s l), s).

(** A call on the document. *)
Definition draw (o : op) : R unit :=
  fun s => (Ok tt, {| objects := objects s; document := document s ++ [o] |}).

Declare Scope heap_scope.
Delimit Scope heap_scope with heap.
Notation "'let*' x ':=' m 'in' k" :=
  (bind m (fun x => k))
    (at level 10, x name, k at level 200, only parsing) : heap_scope.
Notation "m ';;' k" :=
  (bind m (fun _ => k))
    (at level 100, k at level 200, only parsing, right associativity)
    : heap_scope.
Local Open Scope heap_scope.

(** [for (const x of l) body(x)] and [l.forEach(body)]. *)
Fixpoint for_each {A} (l : list A) (body : A -> R unit) : R unit :=
  match l with
  | [] => ret tt
  | x :: rest => body x ;; for_each rest body
  end.

(** What [prepareReportData] returns: [reportData] is the reference it
    was given. *)
Record report_details : Type := {
  reportData : ref;
  filename : string
}.

Definition prepareReportData (today : instant) (analysisResult : ref)
    (originalFileName : option string) (analysisId : Z) : report_details :=
  let startupName := startupName_of originalFileName analysisId in
  let dateStr := format_ddMMyyyy today in
  {| reportData := analysisResult;
     filename := "Investment_Thesis_" +:+ startupName +:+ "_" +:+ dateStr
                 +:+ ".pdf" |}.

Section WithRuntime.
Context `{!Builtins}.

(** The body of the loop over [categoryOrder]. *)
Definition category_section (analysisData : ref) (category : string)
    : R unit :=
  let* a := read analysisData in
  let catData := get a category in
  draw (H2 (category +:+ " (" +:+ percent (weight_of category) +:+ "%)")) ;;
  (if truthy catData then
     draw (SubHeading "Score:") ;;
     draw (addP (or_else (catData ≫= λ d, get d "score") "N/A" +:+ " / 10")
             20 false) ;;
     draw (SubHeading "Feedback:") ;;
     draw (addP_or (or_default (catData ≫= λ d, get d "qualitative_feedback")
                      "No specific feedback provided.") 20 false)
   else
     draw (addP "Analysis data missing for this category." 20 true)) ;;
  draw (MoveDown 7).

(** The bullets of [analysisData[field]]. *)
Definition bullets (analysisData : ref) (field : string) : R unit :=
  let* a := read analysisData in
  match get a field with
  | Some (JArr (x :: l)) =>
      for_each (x :: l) (fun s => draw (addBullet (or_default (Some s) "N/A")))
  | _ => draw (addBullet "None explicitly identified in the analysis.")
  end.

(** The body of the promise of [generateInvestmentThesisPDF], up to
    [doc.end()], statement by statement: it returns the report's file
    name. *)
Definition generateInvestmentThesisPDF (today now : instant)
    (analysisData : ref) (analysisId : Z)
    (originalFileName : option string) : R string :=
  let reportDetails :=
    prepareReportData today analysisData originalFileName analysisId in
  let pdfFilename := filename reportDetails in
  let startupName :=
    let part := nth 2 (split_underscore (chars pdfFilename) []) "" in
    if truthy_str (Some part) then part else "Startup" in
  let* dateStr :=
    (let* a := read analysisData in lift (analysisDateStr now a)) in
  let* overallScore :=
    (let* a := read analysisData in
     ret (Scoring.calculateOverallScore a)) in
  draw (H1 "Investment Thesis Summary") ;;
  draw (addP ("Startup Reference: " +:+ startupName) 0 false) ;;
  draw (addP ("Analysis Date: " +:+ dateStr) 0 false) ;;
  draw (MoveDown 5) ;;
  draw (SubHeading "Overall Recommendation:") ;;
  (let* a := read analysisData in
   draw (addP_or (or_default (get a "recommendation") "Not Available")
           20 false)) ;;
  draw (SubHeading "Calculated Overall Score:") ;;
  draw (addP (pretty overallScore +:+ " / 100") 20 false) ;;
  draw (SubHeading "AI Confidence Score:") ;;
  (let* a := read analysisData in
   draw (addP (or_else (get a "confidence_score") "N/A" +:+ " / 100")
           20 false)) ;;
  draw (addP "Note: Confidence reflects AI certainty based on text completeness/coherence, not investment success."
          20 true) ;;
  draw (H1 "Category Analysis") ;;
  for_each categoryOrder (category_section analysisData) ;;
  draw (H1 "Overall Strengths & Weaknesses") ;;
  draw (SubHeading "Identified Strengths:") ;;
  bullets analysisData "overall_strengths" ;;
  draw (MoveDown 5) ;;
  draw (SubHeading "Identified Weaknesses / Gaps:") ;;
  bullets analysisData "overall_weaknesses" ;;
  draw (MoveDown 10) ;;
  draw (H1 "Recommendations for Investor Due Diligence") ;;
  (let* a := read analysisData in
   draw (addP_or
           (or_default (get a "recommendations_for_investor")
              "No specific recommendations provided beyond the category feedback.")
           0 false)) ;;
  draw (MoveDown 10) ;;
  draw PageNumbers ;;
  ret pdfFilename.

End WithRuntime.



End Heap.

(* ===================================================================== *)
(** ** Slide-count pre-check: [POST /api/analysis/validate-slides] and the
       client's [handleFile] *)
(* ===================================================================== *)

Module SlideCheck.

(** *** Server side

    What the extraction script printed, once parsed: the [error] field,
    and the field [data.slideCount].  A slide count is an integer (the
    script prints the length of a list), carried as [Z]; [count] is
    [None] when [data] is missing or [slideCount] is not a number. *)
Record script_result : Type := {
  error : option string;
  count : option Z
}.

(** How the script's process ended: its exit code and its parsed
    output, or the message of [JSON.parse]'s error. *)
Record script_run : Type := {
  exit_code : Z;
  output : result script_result
}.

(** The JSON body of the route's answer. *)
Record body : Type := {
  slideCount : option Z;
  message : string
}.

(** The answer: the HTTP status and the body.  The route issues no SQL
    statement at all: its answer is all it produces. *)
Definition validate_slides (run : script_run) : nat * body :=
  if exit_code run =? 0 then
    match output run with
    | Ok result =>
        if truthy_str (error result) then
          (400%nat,
           {| slideCount := None;
              message := "Slide validation failed: "
                         +:+ default "" (error result) |})
        else
          match count result with
          | None =>
              (400%nat,
               {| slideCount := None;
                  message := "Invalid response format from slide validation" |})
          | Some n =>
              (200%nat,
               {| slideCount := Some n;
                  message := "Slide validation complete. File has "
                             +:+ pretty n +:+ " slides." |})
          end
    | Throw e =>
        (500%nat,
         {| slideCount := None;
            message := "Failed to parse validation result: " +:+ e |})
    end
  else
    (500%nat,
     {| slideCount := None;
        message := "Failed to validate slides. Python script error." |}).

(** *** Client side *)

Record file : Type := {
  name : string;
  type : string;
  size : Z
}.

Inductive message_type : Type := info | success | error_message.

(** The state of the upload form. *)
Record form : Type := {
  selectedFile : option file;
  shown : string;
  shownType : message_type;
  isLoading : bool
}.

Inductive request : Type :=
| PostValidateSlides (f : file)
| PostUpload (f : file).

(** What [axios.post] does: it resolves on a 2xx answer, and throws
    otherwise, with the answer when there is one. *)
Inductive http : Type :=
| NoAnswer
| Answer (status : nat) (b : body).

Definition validTypes : list string :=
  [ "application/vnd.ms-powerpoint";
    "application/vnd.openxmlformats-officedocument.presentationml.presentation" ].

Definition ends_with (suffix s : string) : bool :=
  let n := String.length s in
  let k := String.length suffix in
  (k <=? n)%nat && String.eqb (String.substring (n - k) k s) suffix.

Definition type_ok (f : file) : bool :=
  existsb (String.eqb (type f)) validTypes
  || ends_with ".ppt" (name f) || ends_with ".pptx" (name f).

Definition maxSize : Z := 50 * 1024 * 1024.

Definition show_error (ui : form) (msg : string) : form :=
  {| selectedFile := selectedFile ui; shown := msg;
     shownType := error_message; isLoading := false |}.

(** [handleFile]: the form afterwards and the requests sent.  [server]
    answers the request to validate-slides. *)
Definition handleFile (server : file -> http) (ui : form) (f : file)
    : form * list request :=
  if negb (type_ok f) then
    ({| selectedFile := selectedFile ui;
        shown := "Please upload a PowerPoint file (.ppt or .pptx)";
        shownType := error_message; isLoading := isLoading ui |}, [])
  else if maxSize <? size f then
    ({| selectedFile := selectedFile ui;
        shown := "File is too large. Maximum size is 50MB";
        shownType := error_message; isLoading := isLoading ui |}, [])
  else
    let ui' :=
      match server f with
      | Answer status b =>
          if ((200 <=? status) && (status <? 300))%nat then
            match slideCount b with
            | None =>
                show_error ui
                  "Could not determine slide count. Please try again."
            | Some n =>
                if n <? 5 then
                  show_error ui
                    ("Slides too low: Your presentation has " +:+ pretty n
                     +:+ " slides. Minimum is 5.")
                else if 35 <? n then
                  show_error ui
                    ("Slides too high: Your presentation has " +:+ pretty n
                     +:+ " slides. Maximum is 35.")
                else
                  {| selectedFile := Some f; shown := "";
                     shownType := info; isLoading := false |}
            end
          else
            show_error ui
              ("Validation failed: "
               +:+ (if truthy_str (Some (message b)) then message b
                    else "Could not validate slide count"))
      | NoAnswer =>
          show_error ui
            "Could not validate presentation. Please try again."
      end in
    (ui', [PostValidateSlides f]).

(** [handleUpload]: the requests sent when the upload button is used. *)
Definition handleUpload (ui : form) (token : option string)
    : list request :=
  match selectedFile ui with
  | Some f => if truthy_str token then [PostUpload f] else []
  | None => []
  end.

(** The upload route inserts the job's row; the pre-check route issues no
    SQL statement. *)
Definition creates_job (q : request) : bool :=
  match q with
  | PostUpload _ => true
  | PostValidateSlides _ => false
  end.

(** The server answering for a deck of [n] slides. *)
Definition deck_of (n : Z) (f : file) : http :=
  let '(status, b) :=
    validate_slides
      {| exit_code := 0;
         output := Ok {| error := None; count := Some n |} |} in
  Answer status b.

Definition empty_form : form :=
  {| selectedFile := None; shown := ""; shownType := info;
     isLoading := false |}.

Definition deck : file :=
  {| name := "deck.pptx";
     type := "application/vnd.openxmlformats-officedocument.presentationml.presentation";
     size := 1048576 |}.

Definition accepted (server : file -> http) (f : file) : bool :=
  match selectedFile (fst (handleFile server empty_form f)) with
  | Some _ => true
  | None => false
  end.

End SlideCheck.

(* ===================================================================== *)
(** ** A small runtime, to run the definitions on examples *)
(* ===================================================================== *)

Module Sample.

(** Prints the values met in the examples: a number is printed as the
    integer nearest to it. *)
Definition to_string (v : option json) : string :=
  match v with
  | None => "undefined"
  | Some JNull => "null"
  | Some (JBool true) => "true"
  | Some (JBool false) => "false"
  | Some (JNum x) => pretty (Math_round x)
  | Some (JStr s) => s
  | Some (JArr _) => ""
  | Some (JObj _) => "[object Object]"
  end.

(** Parses the JSON texts of the examples and refuses any other. *)
Definition parse (s : string) : result json :=
  if String.eqb s "{}" then Ok (JObj ∅)
  else if String.eqb s "[]" then Ok (JArr [])
  else if String.eqb s "null" then Ok JNull
  else Throw "Unexpected token".

(** From the first opening brace to the last closing brace. *)
Definition match_braces (s : string) : option string :=
  let from_open :=
    Report.drop_while (fun c => negb (Ascii.eqb c "{")) (Report.chars s) in
  let trimmed :=
    rev (Report.drop_while (fun c => negb (Ascii.eqb c "}"))
           (rev from_open)) in
  match trimmed with
  | [] => None
  | _ => Some (Report.text trimmed)
  end.

Definition is_control (c : ascii) : bool :=
  let n := nat_of_ascii c in
  (n <? 32)%nat || ((127 <=? n) && (n <=? 159))%nat.

Definition strip_control (s : string) : string :=
  Report.text (Report.keep (fun c => negb (is_control c)) (Report.chars s)).

(** Reads the one time stamp of the examples. *)
Definition date_parse (v : json) : option instant :=
  match v with
  | JStr s =>
      if String.eqb s "2024-12-31 23:59:59 UTC"
      then Some {| year := 2024; month := 12; day := 31;
                   hour := 23; minute := 59; second := 59 |}
      else None
  | _ => None
  end.

(** The two passes that repair quotes are left as the identity. *)
#[export] Instance runtime : Builtins := {|
  ToString := to_string;
  JSON_parse := parse;
  re_strip_control := strip_control;
  re_fix_quotes := fun s => s;
  re_quote_keys := fun s => s;
  re_match_braces := match_braces;
  Date_parse := date_parse
|}.

(** A complete, valid response. *)
Definition full_response : json :=
  match Scoring.tie_scores with
  | JObj m =>
      JObj (<["overall_strengths" := JArr [JStr "Clear problem"] ]>
            (<["overall_weaknesses" := JArr [JStr "No financials"] ]>
             (<["recommendation" := JStr "Hold"]>
              (<["confidence_score" := JNum 70]>
               (<["recommendations_for_investor" := JStr "Ask for the model"]>
                (<["processing_date" := JStr "2024-12-31 23:59:59 UTC"]>
                 m))))))
  | other => other
  end.






(** The same response, claiming a score of 99 for itself. *)
Definition with_claimed_score : json :=
  set full_response "overall_score" (JNum 99).



End Sample.

(* ===================================================================== *)
(** ** The delays of [callGeminiWithRetry] *)
(* ===================================================================== *)

Module Backoff.

(** The delays slept after the failures number 1 to [n]:
    [1500 * Math.pow(2, retries - 1)] for [retries] from 1 to [n]. *)
Definition delays (n : nat) : list Z :=
  map (fun k => 1500 * 2 ^ Z.of_nat k) (seq 0 n).

(** The message of the error thrown once the last call has failed with
    [message]. *)
Definition giving_up (maxRetries : nat) (message : string) : string :=
  "Failed to get valid Gemini analysis after " +:+ pretty (maxRetries + 1)%nat
  +:+ " attempts: " +:+ message.

(** An API that fails [n] times and then answers. *)
Definition failing_first (n : nat) (k : nat) : Retry.api_outcome :=
  if (k <? n)%nat then Retry.Rejects "fetch failed"
  else Retry.text_response "{}".

End Backoff.

(* ===================================================================== *)
(** ** The upload handler, by outcome *)
(* ===================================================================== *)

Module Upload.
Import Job Handler Pipeline.

(** How the [try] block of the upload handler ends: with the key of the
    report and the analysis, or at the first operation that throws, with
    the value that [currentStage] has at that moment and the message of
    the error.  The updates of the status by [updateAnalysisStatus] and
    the notification by email are not among these operations. *)
Inductive outcome : Type :=
| Succeeds (pdfS3Key : string) (analysisResult : json)
| FailsAt (stage message : string).

Definition outcome_of (e : env) : outcome :=
  match db_insert e with
  | Throw m => FailsAt "Database Initialization" m
  | Ok _ =>
  match deck_upload e with
  | Throw m => FailsAt "Deck Upload to S3" m
  | Ok _ =>
  match extraction e with
  | Throw m => FailsAt "Text Extraction" m
  | Ok extractedTextData =>
  match Validation.slides_of extractedTextData with
  | None =>
      FailsAt "Text Extraction"
        "Text extraction yielded no slides or invalid data."
  | Some _ =>
  match analysis e with
  | Throw m => FailsAt "AI Analysis" m
  | Ok analysisResult =>
  if negb (db_save_ok e) then
    FailsAt "Saving Analysis Results"
      "Failed to update analysis details in database."
  else
  match pdf e with
  | Throw m => FailsAt "PDF Generation" m
  | Ok reportFilename =>
  match pdf_upload e with
  | Throw m => FailsAt "PDF Upload to S3" m
  | Ok _ =>
  if negb (db_finalize_ok e) then
    FailsAt "Finalizing Database Record"
      "Failed to finalize PDF location in database."
  else Succeeds ("reports/" +:+ reportFilename) analysisResult
  end end end end end end end.

(** The message of the 500 answer. *)
Definition clientErrorMessage (currentStage message : string) : string :=
  "Processing failed during '" +:+ currentStage
  +:+ "'. Please check server logs for details. Error: " +:+ message.

Definition response_of (o : outcome) : response :=
  match o with
  | Succeeds pdfS3Key analysisResult => Complete pdfS3Key analysisResult
  | FailsAt stage message =>
      Failed500 (clientErrorMessage stage message) stage
  end.

(** The reason that [updateAnalysisStatus(id, 'FAILED', message)]
    stores. *)
Definition stored_reason (message : string) : option string :=
  if truthy_str (Some message) then Some (substring0 500 message) else None.

(** The row once the handler has made all its writes, no other request
    having touched it. *)
Definition final_row (e : env) (userEmail originalFileName : string) : row :=
  Email.after (upload_writes e userEmail originalFileName) inserted_row.

(** *** Assertions on the row, for the handler's steps

    [hoare P m Qok Qthrow]: run on a row that satisfies [P], the writes of
    [m] lead to a row that satisfies [Qok a] when [m] returns [a] and
    [Qthrow message] when it throws. *)
Definition hoare {A} (P : row -> Prop) (m : M A) (Qok : A -> row -> Prop)
    (Qthrow : string -> row -> Prop) : Prop :=
  extends m
    (fun a ws => forall r, P r -> Qok a (Email.after ws r))
    (fun message ws => forall r, P r -> Qthrow message (Email.after ws r)).

(** The row of a job in progress: no terminal status, no failure reason,
    no report key. *)
Definition in_progress (r : row) : Prop :=
  terminal (processing_status r) = false
  /\ failure_reason r = None
  /\ pdf_s3_key r = None.

(** The analysis columns hold [analysisResult] and its score. *)
Definition holds (analysisResult : json) (r : row) : Prop :=
  analysis_data r = analysisResult
  /\ overall_score r = Scoring.calculateOverallScore analysisResult.

(** In progress, with the analysis saved or not yet. *)
Definition progress (saved : option json) (r : row) : Prop :=
  in_progress r
  /\ match saved with
     | Some analysisResult => holds analysisResult r
     | None => True
     end.

(** The row of a completed job. *)
Definition completed (pdfS3Key : string) (analysisResult : json) (r : row)
    : Prop :=
  processing_status r = COMPLETED
  /\ pdf_s3_key r = Some pdfS3Key
  /\ failure_reason r = None
  /\ holds analysisResult r.

(** The row of a completed job whose report may have been found missing
    by a download request since. *)
Definition delivered (pdfS3Key : string) (analysisResult : json) (r : row)
    : Prop :=
  (processing_status r = COMPLETED
   \/ processing_status r = FILE_UNAVAILABLE)
  /\ pdf_s3_key r = Some pdfS3Key
  /\ failure_reason r = None
  /\ holds analysisResult r.

(** The row after the [catch] clause, which was entered with [message]:
    FAILED with the stored reason if the status could be written, still
    in progress otherwise. *)
Definition closed (created written : bool) (message : string) (r : row)
    : Prop :=
  if created && written then
    processing_status r = FAILED
    /\ failure_reason r = stored_reason message
    /\ pdf_s3_key r = None
  else in_progress r.

(** *** The reason columns

    A reason is stored only with a status FAILED, is never empty, and is
    at most [limit] characters long. *)
Definition reason_ok (limit : nat) (failed : bool) (reason : option string)
    : bool :=
  match reason with
  | None => true
  | Some t =>
      failed && (0 <? String.length t)%nat && (String.length t <=? limit)%nat
  end.

Definition write_ok (w : db_write) : bool :=
  match w with
  | SetStatus s reason => reason_ok 500 (status_eqb s FAILED) reason
  | SetEmailStatus s reason => reason_ok 255 (Email.is_failed s) reason
  | _ => true
  end.

Definition email_failed (s : option EmailStatus.t) : bool :=
  match s with Some EmailStatus.FAILED => true | _ => false end.

Definition columns_ok (r : row) : bool :=
  reason_ok 500 (status_eqb (processing_status r) FAILED) (failure_reason r)
  && reason_ok 255 (email_failed (email_status r)) (email_failure_reason r)
  && (is_null (email_status r)
      || status_eqb (processing_status r) COMPLETED
      || status_eqb (processing_status r) FILE_UNAVAILABLE).

(** A handler all of whose writes satisfy [p], whether it returns or
    throws. *)
Definition writes_only (p : db_write -> bool) {A} (m : M A) : Prop :=
  extends m (fun _ ws => forallb p ws = true)
            (fun _ ws => forallb p ws = true).

(** The PDF cannot be written. *)
Definition pdf_fails : env :=
  {| db_insert := Ok tt;
     db_status_ok := fun _ => true;
     deck_upload := Ok tt;
     extraction := Ok (Some (JArr (replicate 10 slide)));
     analysis := Ok Scoring.tie_scores;
     db_save_ok := true;
     pdf := Throw "Invalid time value";
     pdf_upload := Ok tt;
     db_finalize_ok := true;
     finalize_rowCount := 1;
     mail := Email.working_mail |}.

End Upload.

(* ===================================================================== *)
(** ** Text extraction: [runTextExtraction] *)
(* ===================================================================== *)

Module TextExtraction.
Section WithRuntime.
Context `{!Builtins}.

(** How the extraction script ended: it could not be started, or it
    closed with an exit code ([None] for [null], when a signal ended it)
    after writing [scriptOutput] and [scriptError]. *)
Inductive process_end : Type :=
| FailedToStart (message : string)
| Closed (code : option Z) (scriptOutput scriptError : string).

Definition newline : string := String (ascii_of_nat 10) "".

(** [s || 'None']. *)
Definition or_None (s : string) : string :=
  if truthy_str (Some s) then s else "None".

Definition print_code (code : option Z) : string :=
  match code with Some n => pretty n | None => "null" end.

(** The promise of [runTextExtraction]: the value it resolves with
    ([result.data], which may be [undefined]), or the message of the
    error it rejects with.  Reading a property of [null] throws a
    [TypeError], which the [catch] clauses receive. *)
Definition runTextExtraction (p : process_end) : result (option json) :=
  match p with
  | FailedToStart message =>
      Throw ("Failed to start extraction script: " +:+ message)
  | Closed code scriptOutput scriptError =>
      if bool_decide (code = Some 0) then
        let parse_failure e :=
          Throw ("Failed to parse extraction script output: " +:+ e
                 +:+ newline +:+ "Output: " +:+ scriptOutput) in
        match JSON_parse scriptOutput with
        | Ok JNull =>
            parse_failure "Cannot read properties of null (reading 'error')"
        | Ok result =>
            if truthy (get result "error") then
              Throw ("Extraction script error: "
                     +:+ ToString (get result "error"))
            else Ok (get result "data")
        | Throw e => parse_failure e
        end
      else
        let failure :=
          Throw ("Python script failed (code " +:+ print_code code
                 +:+ "). Stderr: " +:+ or_None scriptError
                 +:+ ". Stdout: " +:+ or_None scriptOutput) in
        match JSON_parse scriptError with
        | Ok errJson =>
            if truthy (get errJson "error") then
              Throw ("Extraction script failed: "
                     +:+ ToString (get errJson "error"))
            else failure
        | Throw _ => failure
        end
  end.

End WithRuntime.

(** A runtime that reads the text [<ten slides>] as what the script
    prints for a deck of ten slides, and any other text as
    [Sample.runtime] does. *)
Definition reading_ten_slides : Builtins :=
  {| ToString := Sample.to_string;
     JSON_parse := fun s =>
       if String.eqb s "<ten slides>"
       then Ok (JObj (<["data" := JArr (replicate 10 Pipeline.slide)]> ∅))
       else Sample.parse s;
     re_strip_control := Sample.strip_control;
     re_fix_quotes := fun s => s;
     re_quote_keys := fun s => s;
     re_match_braces := Sample.match_braces;
     Date_parse := Sample.date_parse |}.

(** The script printed an empty list of slides. *)
Definition no_slides : Pipeline.env :=
  {| Pipeline.db_insert := Ok tt;
     Pipeline.db_status_ok := fun _ => true;
     Pipeline.deck_upload := Ok tt;
     Pipeline.extraction := Ok (Some (JArr []));
     Pipeline.analysis := Ok Scoring.tie_scores;
     Pipeline.db_save_ok := true;
     Pipeline.pdf := Ok "Investment_Thesis_deck_01012025.pdf";
     Pipeline.pdf_upload := Ok tt;
     Pipeline.db_finalize_ok := true;
     Pipeline.finalize_rowCount := 1;
     Pipeline.mail := Email.working_mail |}.

End TextExtraction.

(* ===================================================================== *)
(** ** File names: the stored deck, the report, the download *)
(* ===================================================================== *)

(** A string is the sequence of its code units, each an [ascii]; the
    classes of the regular expressions below only list characters of
    ASCII. *)
Module Names.
Import Report.

Definition is_digit (c : ascii) : bool :=
  let n := nat_of_ascii c in ((48 <=? n) && (n <=? 57))%nat.

(** The class [[a-zA-Z0-9]]. *)
Definition is_alnum (c : ascii) : bool :=
  let n := nat_of_ascii c in
  ((97 <=? n) && (n <=? 122))%nat || ((65 <=? n) && (n <=? 90))%nat
  || ((48 <=? n) && (n <=? 57))%nat.

(** Every character of [s] is in the class [p]. *)
Definition all_chars (p : ascii -> bool) (s : string) : bool :=
  forallb p (chars s).

(** [s.replace(/[^...]/g, '_')] for a class [keep]: every character
    outside the class becomes an underscore. *)
Definition replace_outside (keep : ascii -> bool) (s : string) : string :=
  text (map (fun c => if keep c then c else "_"%char) (chars s)).

(** *** server.js: the storage of multer *)

(** The class [[a-zA-Z0-9.\-_]]. *)
Definition is_upload_char (c : ascii) : bool :=
  is_alnum c || is_dot c || Ascii.eqb c "-" || Ascii.eqb c "_".

(** [file.originalname.replace(/[^a-zA-Z0-9.\-_]/g, '_')]. *)
Definition safeOriginalName (originalname : string) : string :=
  replace_outside is_upload_char originalname.

(** [Date.now() + '-' + safeOriginalName]: the name of the temporary
    file, which is also the key of the deck in the bucket. *)
Definition stored_filename (now : N) (originalname : string) : string :=
  pretty now +:+ "-" +:+ safeOriginalName originalname.

(** A letter of ASCII in lower case. *)
Definition lower (c : ascii) : ascii :=
  let n := nat_of_ascii c in
  if ((65 <=? n) && (n <=? 90))%nat then ascii_of_nat (n + 32) else c.

(** [l] starts with the characters of [p], up to the case of the
    letters of [l]. *)
Fixpoint starts_with (p l : list ascii) : bool :=
  match p, l with
  | [], _ => true
  | a :: p', b :: l' => Ascii.eqb a (lower b) && starts_with p' l'
  | _ :: _, [] => false
  end.

(** [/\.(ppt|pptx)$/i.test(ext)]: the text ends with [.ppt] or with
    [.pptx], in any case of the letters; the test reads the text from
    its end. *)
Definition allowedExtensions (ext : string) : bool :=
  let reversed := rev (chars ext) in
  starts_with ["t"; "p"; "p"; "."]%char reversed
  || starts_with ["x"; "t"; "p"; "p"; "."]%char reversed.

(** The [fileFilter] of multer: whether the file is accepted. *)
Definition fileFilter (originalname : string) : bool :=
  allowedExtensions (extname originalname).

(** *** server.js: the report *)

(** The class that is left of [[a-zA-Z0-9\-_ ]] once the spaces have
    been replaced. *)
Definition is_key_char (c : ascii) : bool :=
  is_alnum c || Ascii.eqb c "-" || Ascii.eqb c "_".

Definition is_file_char (c : ascii) : bool := is_key_char c || is_dot c.

(** [s.split('_')[0]]. *)
Definition first_piece (s : string) : string :=
  text (take_while (fun c => negb (Ascii.eqb c "_")) (chars s)).

(** The startup reference printed in the report. *)
Definition startup_reference (startupName : string) : string :=
  if truthy_str (Some (first_piece startupName))
  then first_piece startupName else "Startup".

Definition is_heading (o : op) : bool :=
  match o with
  | H1 _ | H2 _ => true
  | _ => false
  end.

(** The headings of every report. *)
Definition headings : list op :=
  [ H1 "Investment Thesis Summary";
    H1 "Category Analysis";
    H2 "Problem Statement (10%)";
    H2 "Solution/Product (15%)";
    H2 "Market Opportunity (20%)";
    H2 "Business Model (15%)";
    H2 "Competitive Landscape (10%)";
    H2 "Team (10%)";
    H2 "Traction/Milestones (10%)";
    H2 "Financial Projections (5%)";
    H2 "Clarity and Presentation (5%)";
    H1 "Overall Strengths & Weaknesses";
    H1 "Recommendations for Investor Due Diligence" ].

(** *** routes/analysis.js: the name offered for the download *)

(** [s.replace(/\.[^/.]+$/, "")]: a final dot followed by one or more
    characters other than a dot and a slash is cut off with them. *)
Definition strip_extension (s : string) : string :=
  let reversed := rev (chars s) in
  let tail := take_while (fun c => negb (is_dot c || is_slash c)) reversed in
  match tail, drop (length tail) reversed with
  | _ :: _, c :: before => if is_dot c then text (rev before) else s
  | _, _ => s
  end.

Definition cleanName (originalFilename : option string) (analysisId : Z)
    : string :=
  match originalFilename with
  | Some name =>
      if truthy_str (Some name)
      then replace_outside is_alnum (strip_extension name)
      else "Analysis_" +:+ pretty analysisId
  | None => "Analysis_" +:+ pretty analysisId
  end.

Definition downloadFilename (originalFilename : option string)
    (analysisId : Z) : string :=
  "InvestAnalyzer_Thesis_" +:+ cleanName originalFilename analysisId
  +:+ "_" +:+ pretty analysisId +:+ ".pdf".

(** The character written in place of [c] by [safeOriginalName]. *)
Definition upload_char (c : ascii) : ascii :=
  if is_upload_char c then c else "_"%char.

Definition no_slash (s : string) : bool :=
  all_chars (fun c => negb (is_slash c)) s.

End Names.

(* ===================================================================== *)
(** ** Authentication: [authMiddleware] (middleware/authMiddleware.js) *)
(* ===================================================================== *)

Module Auth.
Import Report.

(** [s.split(sep)] for a separator of one character. *)
Fixpoint split_on (sep : ascii) (l current : list ascii) : list string :=
  match l with
  | [] => [text (rev current)]
  | c :: l' =>
      if Ascii.eqb c sep then text (rev current) :: split_on sep l' []
      else split_on sep l' (c :: current)
  end.

(** What [jwt.verify(token, secret)] does: it returns the payload, or
    throws an error, of which the middleware reads the [name]. *)
Inductive verified : Type :=
| Decoded (payload : json)
| Rejected (name : string).

(** What the middleware does with the request: it calls [next()] with
    [req.user] set, or it answers. *)
Inductive verdict : Type :=
| Next (user : json)
| Deny (status : nat) (message : string).

Definition quote : string := String (ascii_of_nat 34) "".

Definition format_message : string :=
  "Access denied. Token format is " +:+ quote +:+ "Bearer <token>"
  +:+ quote +:+ ".".

(** [authHeader] is the value of [req.header('Authorization')]. *)
Definition authMiddleware (verify : string -> verified)
    (authHeader : option string) : verdict :=
  if negb (truthy_str authHeader) then
    Deny 401 "Access denied. No token provided."
  else
    match split_on " " (chars (default "" authHeader)) [] with
    | [scheme; token] =>
        if negb (String.eqb scheme "Bearer") then Deny 401 format_message
        else
          match verify token with
          | Decoded decoded => Next decoded
          | Rejected name =>
              if String.eqb name "TokenExpiredError" then
                Deny 401 "Access denied. Token has expired."
              else if String.eqb name "JsonWebTokenError" then
                Deny 401 "Access denied. Invalid token."
              else Deny 500 "Internal server error during authentication."
          end
    | _ => Deny 401 format_message
    end.

Definition has_no_space (s : string) : bool :=
  forallb (fun c => negb (Ascii.eqb c " ")) (chars s).

(** A verifier that knows one token. *)
Definition sample_verify (token : string) : verified :=
  if String.eqb token "good.token"
  then Decoded (JObj (<["userId" := JNum 7]>
                      (<["email" := JStr "founder@example.com"]> ∅)))
  else if String.eqb token "old.token" then Rejected "TokenExpiredError"
  else Rejected "JsonWebTokenError".

End Auth.

(* ===================================================================== *)
(** ** The routes of routes/analysis.js, over the table *)
(* ===================================================================== *)

Module Store.
Import Job.

(** One row of [analysis_results]: its owner, the columns set when it is
    inserted, and the columns of the job.  A column that is NULL is
    [None]; [created_at] is a point in time, as a number. *)
Record record : Type := {
  user_id : option Z;
  s3_key : string;
  original_filename : option string;
  created_at : Z;
  columns : row
}.

(** The table, by [id]. *)
Abbreviation table := (gmap Z record) (only parsing).

(** [user_id = $n], which no row with a NULL [user_id] satisfies. *)
Definition owned_by (userId : Z) (r : record) : bool :=
  match user_id r with
  | Some u => u =? userId
  | None => false
  end.

(** The rows of [... WHERE id = $1 AND user_id = $2]: one at most. *)
Definition select (analysisId userId : Z) (t : table) : option record :=
  match t !! analysisId with
  | Some r => if owned_by userId r then Some r else None
  | None => None
  end.

(** [user_id = $1 AND processing_status = 'FILE_UNAVAILABLE']. *)
Definition unavailable_of (userId : Z) (r : record) : bool :=
  owned_by userId r
  && status_eqb (processing_status (columns r)) FILE_UNAVAILABLE.

(** What the database does during one request: [pool.connect()] and each
    statement of the request, counted from 0, go through or throw. *)
Record db : Type := {
  connect : result unit;
  query : nat -> result unit
}.

(** The columns that [GET /history] selects. *)
Module Listing.
Record t : Type := {
  id : Z;
  s3_key : string;
  original_filename : option string;
  pdf_s3_key : option string;
  overall_score : Z;
  recommendation : option json;
  processing_status : status;
  created_at : Z;
  email_status : option EmailStatus.t;
  email_failure_reason : option string
}.
End Listing.

Definition listing (id : Z) (r : record) : Listing.t :=
  {| Listing.id := id;
     Listing.s3_key := s3_key r;
     Listing.original_filename := original_filename r;
     Listing.pdf_s3_key := pdf_s3_key (columns r);
     Listing.overall_score := overall_score (columns r);
     Listing.recommendation := recommendation (columns r);
     Listing.processing_status := processing_status (columns r);
     Listing.created_at := created_at r;
     Listing.email_status := email_status (columns r);
     Listing.email_failure_reason := email_failure_reason (columns r) |}.

(** [ORDER BY created_at DESC].  Among rows created at the same time the
    database is free to choose; the order taken here is one it may
    choose. *)
Fixpoint insert_row (x : Listing.t) (l : list Listing.t) : list Listing.t :=
  match l with
  | [] => [x]
  | y :: l' =>
      if Listing.created_at y <=? Listing.created_at x then x :: l
      else y :: insert_row x l'
  end.

Definition newest_first (l : list Listing.t) : list Listing.t :=
  foldr insert_row [] l.

(** [a] was created no earlier than [b]. *)
Definition newer (a b : Listing.t) : Prop :=
  Listing.created_at b <= Listing.created_at a.

(** The answers of the five routes: the HTTP status and what the JSON
    body carries besides fixed text. *)
Inductive response : Type :=
| InvalidId                        (* 400 "Invalid Analysis ID." *)
| RecordNotFound                   (* 404, DELETE /record/:analysisId *)
| Deleted (deletedId : Z)          (* 200 *)
| ServerError (message : string)   (* 500 *)
| History (rows : list Listing.t)  (* 200 *)
| Removed (message : string) (removedCount : nat)            (* 200 *)
| ReportNotFound                   (* 404 "Report not found or access
                                      denied." *)
| NotAvailableYet                  (* 404 *)
| AnalysisFailed                   (* 400 *)
| Download (downloadUrl filename : string) (expiresIn : Z)   (* 200 *)
| FileAccessError                  (* 404, errorType FILE_ACCESS_ERROR *)
| DownloadError (error : string)   (* 500, with [error.message] *)
| StatusInvalidId                  (* 400, status INVALID_ID *)
| Status (s : status)              (* 200 *)
| StatusError.                     (* 500, status ERROR *)

(** In all routes [analysisId] is the value of
    [parseInt(req.params.analysisId, 10)], [None] when it is NaN, and
    [userId] is [req.user.userId], the [id] of the user that logged in. *)

(** [DELETE /record/:analysisId]. *)
Definition delete_record (d : db) (userId : Z) (analysisId : option Z)
    (t : table) : response * table :=
  let failed := ServerError "Server error deleting analysis record." in
  match analysisId with
  | None => (InvalidId, t)
  | Some id =>
      match connect d with
      | Throw _ => (failed, t)
      | Ok _ =>
      match query d 0 with
      | Throw _ => (failed, t)
      | Ok _ =>
          match select id userId t with
          | None => (RecordNotFound, t)
          | Some _ =>
              match query d 1 with
              | Throw _ => (failed, t)
              | Ok _ =>
                  (Deleted id,
                   filter (fun p => negb ((fst p =? id)
                                          && owned_by userId (snd p)) = true)
                          t)
              end
          end
      end end
  end.

(** [GET /history]. *)
Definition history (d : db) (userId : Z) (t : table) : response * table :=
  let failed := ServerError "Server error fetching analysis history." in
  match connect d with
  | Throw _ => (failed, t)
  | Ok _ =>
  match query d 0 with
  | Throw _ => (failed, t)
  | Ok _ =>
      (History
         (newest_first
            (map (fun p => listing (fst p) (snd p))
               (map_to_list
                  (filter (fun p => owned_by userId (snd p) = true) t)))),
       t)
  end end.

(** [DELETE /history/unavailable].  The route counts and then deletes,
    in two statements and without a transaction: [seen] is the table as
    it is when the [SELECT COUNT] runs and [t] as it is when the
    [DELETE] runs.  They are the same table when no other statement has
    run in between. *)
Definition delete_unavailable (d : db) (userId : Z) (seen t : table)
    : response * table :=
  let failed := ServerError "Server error removing unavailable records." in
  match connect d with
  | Throw _ => (failed, t)
  | Ok _ =>
  match query d 0 with
  | Throw _ => (failed, t)
  | Ok _ =>
      let count :=
        size (filter (fun p => unavailable_of userId (snd p) = true) seen) in
      match query d 1 with
      | Throw _ => (failed, t)
      | Ok _ =>
          (Removed ("Successfully removed " +:+ pretty count
                    +:+ " unavailable records") count,
           filter (fun p => unavailable_of userId (snd p) = false) t)
      end
  end end.

Definition with_columns (c : row) (r : record) : record :=
  {| user_id := user_id r; s3_key := s3_key r;
     original_filename := original_filename r;
     created_at := created_at r; columns := c |}.

(** [UPDATE analysis_results SET ... WHERE id = $2], issued for a row
    that exists. *)
Definition update (id : Z) (ws : list db_write) (t : table) : table :=
  match ws with
  | [] => t
  | _ => alter (fun r => with_columns (Email.after ws (columns r)) r) id t
  end.

(** [GET /report/:analysisId/download].  [s3] is the outcome of the inner
    [try] block: the signed URL, or the error. *)
Definition download (d : db) (s3 : result string) (userId : Z)
    (analysisId : option Z) (t : table) : response * table :=
  match analysisId with
  | None => (InvalidId, t)
  | Some id =>
      match connect d with
      | Throw m => (DownloadError m, t)
      | Ok _ =>
      match query d 0 with
      | Throw m => (DownloadError m, t)
      | Ok _ =>
          match select id userId t with
          | None => (ReportNotFound, t)
          | Some r =>
              let '(answer, ws) :=
                Pipeline.download s3 (is_ok (query d 1)) (columns r) in
              (match answer with
               | Pipeline.NotAvailableYet => NotAvailableYet
               | Pipeline.AnalysisFailed => AnalysisFailed
               | Pipeline.DownloadUrl signedUrl =>
                   Download signedUrl
                     (Names.downloadFilename (original_filename r) id) 600
               | Pipeline.FileAccessError => FileAccessError
               end,
               update id ws t)
          end
      end end
  end.

(** [GET /status/:analysisId]. *)
Definition status_of (d : db) (userId : Z) (analysisId : option Z)
    (t : table) : response * table :=
  match analysisId with
  | None => (StatusInvalidId, t)
  | Some id =>
      match connect d with
      | Throw _ => (StatusError, t)
      | Ok _ =>
      match query d 0 with
      | Throw _ => (StatusError, t)
      | Ok _ =>
          match select id userId t with
          | None => (Status PENDING, t)
          | Some r => (Status (processing_status (columns r)), t)
          end
      end end
  end.

(** A request to the router, once [authMiddleware] has let it through.
    A request to delete the unavailable records comes with the table
    that its first statement sees. *)
Inductive request : Type :=
| DeleteRecord (analysisId : option Z)
| GetHistory
| DeleteUnavailable (seen : table)
| GetDownload (analysisId : option Z) (s3 : result string)
| GetStatus (analysisId : option Z).

Definition handle (d : db) (userId : Z) (q : request) (t : table)
    : response * table :=
  match q with
  | DeleteRecord analysisId => delete_record d userId analysisId t
  | GetHistory => history d userId t
  | DeleteUnavailable seen => delete_unavailable d userId seen t
  | GetDownload analysisId s3 => download d s3 userId analysisId t
  | GetStatus analysisId => status_of d userId analysisId t
  end.

(** Two requests that the user [userId] cannot tell apart: the same
    request, up to the rows of other users in the table that the first
    statement of [DELETE /history/unavailable] sees. *)
Definition alike (userId : Z) (q q' : request) : Prop :=
  match q, q' with
  | DeleteUnavailable seen, DeleteUnavailable seen' =>
      forall id, select id userId seen = select id userId seen'
  | _, _ => q = q'
  end.

(** The table after a sequence of requests, each with its user and the
    database's behaviour at that time. *)
Definition serve (t : table) (qs : list (db * Z * request)) : table :=
  fold_left (fun t '(d, userId, q) => snd (handle d userId q t)) qs t.

(** *** A sample table: two users, three jobs *)

Definition finished (key : string) : row :=
  Email.after [SetPdfKeyCompleted key] inserted_row.

Definition lost (key : string) : row :=
  Email.after [SetPdfKeyCompleted key; SetFileUnavailable] inserted_row.

Definition sample_table : table :=
  <[1 := {| user_id := Some 7; s3_key := "uploads/1-a.pptx";
            original_filename := Some "a.pptx"; created_at := 100;
            columns := finished "reports/a.pdf" |}]>
  (<[2 := {| user_id := Some 7; s3_key := "uploads/2-b.pptx";
             original_filename := Some "b.pptx"; created_at := 200;
             columns := lost "reports/b.pdf" |}]>
  (<[3 := {| user_id := Some 8; s3_key := "uploads/3-c.pptx";
             original_filename := Some "c.pptx"; created_at := 150;
             columns := lost "reports/c.pdf" |}]> ∅)).

Definition working : db :=
  {| connect := Ok tt; query := fun _ => Ok tt |}.

End Store.

(* ===================================================================== *)
(** * Properties *)
(* ===================================================================== *)

(** ** Scoring aggregator *)

Section ScoringFacts.
Import Scoring.

(** The guard on the sum of the weights never fires: the weights add up
    to exactly 1 in binary64. *)
Lemma weights_sum_to_one :
  fold_left (fun acc e => (acc + snd e)%float) weights 0%float = 1%float.
Proof. vm_compute. reflexivity. Qed.

(** The result is clamped: it always lies between 0 and 100. *)
Lemma calculateOverallScore_range (r : json) :
  0 <= calculateOverallScore r <= 100.
Proof.
  unfold calculateOverallScore.
  destruct (fold_left (loop_body r) weights (0%float, 0%float)) as [t w].
  destruct (_ && _); lia.
Qed.

(** A category whose entry is falsy, or whose score is refused, adds
    [0 * weight] to the sum, exactly as a score of 0 does. *)
Lemma loop_body_missing (r : json) (acc : float * float) (c : string)
    (w : float) :
  valid_score (get r c) = None ->
  loop_body r acc (c, w) = ((fst acc + 0 * w)%float, (snd acc + w)%float).
Proof.
  intros Hm. destruct acc as [t u]. unfold loop_body. rewrite Hm.
  reflexivity.
Qed.

(** The score that the loop uses for a category: the valid score, and 0
    for a category that is missing or whose score is refused. *)
Lemma loop_body_effective (r : json) (acc : float * float)
    (e : string * float) :
  loop_body r acc e =
  ((fst acc + default 0%float (valid_score (get r (fst e))) * snd e)%float,
   (snd acc + snd e)%float).
Proof.
  destruct acc as [t u], e as [c w]. unfold loop_body. simpl.
  destruct (valid_score (get r c)); reflexivity.
Qed.

Lemma loop_body_ext (r r' : json) (acc : float * float)
    (e : string * float) :
  default 0%float (valid_score (get r (fst e)))
  = default 0%float (valid_score (get r' (fst e))) ->
  loop_body r acc e = loop_body r' acc e.
Proof. intros He. rewrite !loop_body_effective, He. reflexivity. Qed.

Lemma fold_loop_ext (r r' : json) (l : list (string * float)) :
  (forall e, In e l ->
     default 0%float (valid_score (get r (fst e)))
     = default 0%float (valid_score (get r' (fst e)))) ->
  forall acc, fold_left (loop_body r) l acc = fold_left (loop_body r') l acc.
Proof.
  induction l as [|e l IH]; intros Hl acc; [reflexivity|].
  simpl. rewrite (loop_body_ext r r') by (apply Hl; left; reflexivity).
  apply IH. intros e' He'. apply Hl. right. exact He'.
Qed.

(** The score only depends on the scores that the loop uses for the nine
    categories. *)
Lemma calculateOverallScore_ext (r r' : json) :
  (forall c, In c (map fst weights) ->
     default 0%float (valid_score (get r c))
     = default 0%float (valid_score (get r' c))) ->
  calculateOverallScore r = calculateOverallScore r'.
Proof.
  intros H. unfold calculateOverallScore.
  rewrite (fold_loop_ext r r'); [reflexivity|].
  intros e He. apply H. apply in_map. exact He.
Qed.

End ScoringFacts.

(** C1.  [calculateOverallScore] accumulates [score * weight] in binary64
    arithmetic, where the products by 0.15, 0.2 and 0.05 and the running
    sum are rounded.  For the nine valid integer scores
    6, 6, 6, 6, 6, 7, 6, 6, 7 the weighted sum is exactly 6.15, so the
    formula round(sum(score/10 * weight) * 100) is round(61.5) = 62, and
    it is 62 as well when the formula is evaluated in binary64 as it is
    written; the code's sum is 6.1499999999999995, ten times it is below
    61.5, and the code returns 61. *)
Theorem calculateOverallScore_tie_rounds_down :
  Scoring.calculateOverallScore Scoring.tie_scores = 61
  /\ Scoring.spec_overall_score Scoring.tie_scores = 62
  /\ Scoring.spec_overall_score_binary64 Scoring.tie_scores = 62
  /\ (Scoring.exact_weighted_sum Scoring.tie_scores * 100 == 615 # 10)%Q
  /\ fst (fold_left (Scoring.loop_body Scoring.tie_scores) Scoring.weights
            (0%float, 0%float)) = 6.1499999999999995%float.
Proof. vm_compute. repeat split. Qed.

(** ** The scores of integer score sets *)

Section ScoreTableFacts.
Import Scoring ScoreTable.

Lemma partial_eqb_eq (a b : partial) : partial_eqb a b = true -> a = b.
Proof.
  destruct a as [f z], b as [f' z']. unfold partial_eqb. simpl.
  intros H. apply andb_true_iff in H. destruct H as [Hf Hz].
  apply FloatAxioms.Leibniz.eqb_spec in Hf. apply Z.eqb_eq in Hz.
  congruence.
Qed.

Lemma add_partial_new (x : partial) (l : list partial) :
  In x (add_partial x l).
Proof.
  unfold add_partial. destruct (existsb (partial_eqb x) l) eqn:He.
  - apply existsb_exists in He. destruct He as (y & Hy & Hxy).
    apply partial_eqb_eq in Hxy. congruence.
  - left. reflexivity.
Qed.

Lemma add_partial_old (x y : partial) (l : list partial) :
  In y l -> In y (add_partial x l).
Proof.
  unfold add_partial. destruct (existsb (partial_eqb x) l); [auto|].
  intros Hy. right. exact Hy.
Qed.

Lemma add_scores_old (x : partial) (w : float) (p : Z) (ns : list Z) :
  forall acc y, In y acc ->
    In y (fold_left (fun acc n => add_partial (extend x w p n) acc) ns acc).
Proof.
  induction ns as [|n ns IH]; intros acc y Hy; [exact Hy|].
  simpl. apply IH, add_partial_old, Hy.
Qed.

Lemma add_scores_new (x : partial) (w : float) (p : Z) (ns : list Z) :
  forall acc n, In n ns ->
    In (extend x w p n)
       (fold_left (fun acc n => add_partial (extend x w p n) acc) ns acc).
Proof.
  induction ns as [|m ns IH]; intros acc n Hn; [destruct Hn|].
  simpl. destruct Hn as [->|Hn].
  - apply add_scores_old, add_partial_new.
  - apply IH, Hn.
Qed.

Lemma add_all_from (w : float) (p : Z) (ns : list Z) (l : list partial) :
  forall acc,
    (forall y, In y acc ->
       In y (fold_left
               (fun acc x =>
                  fold_left (fun acc n => add_partial (extend x w p n) acc)
                            ns acc) l acc))
    /\ (forall x n, In x l -> In n ns ->
          In (extend x w p n)
             (fold_left
                (fun acc x =>
                   fold_left (fun acc n => add_partial (extend x w p n) acc)
                             ns acc) l acc)).
Proof.
  induction l as [|x0 l IH]; intros acc.
  - split; [auto|intros x n []].
  - cbn [fold_left].
    destruct (IH (fold_left
                    (fun acc n => add_partial (extend x0 w p n) acc)
                    ns acc)) as [Hold Hnew].
    split.
    + intros y Hy. apply Hold, add_scores_old, Hy.
    + intros x n [->|Hx] Hn.
      * apply Hold, add_scores_new, Hn.
      * apply Hnew; assumption.
Qed.

(** An integer from 0 to 10 is [Z.of_nat k] for some [k <= 10]. *)
Lemma small_integer (n : Z) :
  0 <= n <= 10 -> exists k, (k <= 10)%nat /\ n = Z.of_nat k.
Proof. intros Hn. exists (Z.to_nat n). lia. Qed.

Lemma in_scores (n : Z) : 0 <= n <= 10 -> In n scores.
Proof.
  intros Hn. destruct (small_integer n Hn) as (k & Hk & ->).
  do 11 (destruct k as [|k]; [simpl; tauto|]). lia.
Qed.

(** One more category with an integer score stays in the table. *)
Lemma next_partials_in (w : float) (p : Z) (l : list partial) (x : partial)
    (n : Z) :
  In x l -> 0 <= n <= 10 -> In (extend x w p n) (next_partials w p l).
Proof.
  intros Hx Hn.
  apply (proj2 (add_all_from w p scores l [])); [exact Hx|].
  apply in_scores, Hn.
Qed.

(** Nine categories with integer scores end in the table. *)
Lemma partials_reached (n1 n2 n3 n4 n5 n6 n7 n8 n9 : Z) :
  0 <= n1 <= 10 -> 0 <= n2 <= 10 -> 0 <= n3 <= 10 -> 0 <= n4 <= 10 ->
  0 <= n5 <= 10 -> 0 <= n6 <= 10 -> 0 <= n7 <= 10 -> 0 <= n8 <= 10 ->
  0 <= n9 <= 10 ->
  In ((0 + of_int n1 * 0.10 + of_int n2 * 0.15 + of_int n3 * 0.20
       + of_int n4 * 0.15 + of_int n5 * 0.10 + of_int n6 * 0.10
       + of_int n7 * 0.10 + of_int n8 * 0.05 + of_int n9 * 0.05)%float,
      0 + n1 * 10 + n2 * 15 + n3 * 20 + n4 * 15 + n5 * 10 + n6 * 10
      + n7 * 10 + n8 * 5 + n9 * 5)
     partials.
Proof.
  intros H1 H2 H3 H4 H5 H6 H7 H8 H9.
  unfold partials, table. cbn [fold_left fst snd].
  repeat match goal with
    | |- In ((?f + of_int ?n * ?w)%float, ?z + ?n * ?p)
            (next_partials ?w ?p ?l) =>
        apply (next_partials_in w p l (f, z) n); [|assumption]
    end.
  left. reflexivity.
Qed.

(** Checked on the whole table. *)
Lemma partials_close : forallb close partials = true.
Proof. vm_compute. reflexivity. Qed.

Lemma partials_all_close (x : partial) : In x partials -> close x = true.
Proof.
  intros Hx. exact (proj1 (forallb_forall close partials) partials_close x Hx).
Qed.

Lemma close_bounds (f : float) (hundredths : Z) :
  close (f, hundredths) = true ->
  formula_score hundredths - 1 <= code_score f <= formula_score hundredths.
Proof.
  unfold close. cbn [fst snd].
  generalize (code_score f) (formula_score hundredths). intros code formula H.
  apply andb_true_iff in H. destruct H as [Hlow Hhigh].
  apply Z.leb_le in Hlow. apply Z.leb_le in Hhigh. lia.
Qed.

(** The two sums of the loop, separately. *)
Lemma fold_loop_body (r : json) (l : list (string * float)) :
  forall acc,
    fold_left (loop_body r) l acc =
    (fold_left
       (fun t e =>
          (t + default 0%float (valid_score (get r (fst e))) * snd e)%float)
       l (fst acc),
     fold_left (fun u e => (u + snd e)%float) l (snd acc)).
Proof.
  induction l as [|e l IH]; intros acc; [destruct acc; reflexivity|].
  simpl. rewrite IH, loop_body_effective. reflexivity.
Qed.

(** The code's score is [code_score] of the first sum. *)
Lemma calculateOverallScore_code_score (r : json) :
  calculateOverallScore r =
  code_score
    (fold_left
       (fun t e =>
          (t + default 0%float (valid_score (get r (fst e))) * snd e)%float)
       weights 0%float).
Proof.
  unfold calculateOverallScore. rewrite fold_loop_body.
  cbn [fst snd]. rewrite weights_sum_to_one. reflexivity.
Qed.

(** The exact value of an integer score. *)
Lemma exact_score_integer (r : json) (c : string) (n : Z) :
  0 <= n <= 10 ->
  default 0%float (valid_score (get r c)) = of_int n ->
  (exact_score r c == inject_Z n)%Q.
Proof.
  intros Hn Hs.
  assert (He : exact_score r c
               = float_to_Q (default 0%float (valid_score (get r c))))
    by (unfold exact_score; destruct (valid_score (get r c)); reflexivity).
  rewrite He, Hs. destruct (small_integer n Hn) as (k & Hk & ->).
  do 11 (destruct k as [|k]; [vm_compute; reflexivity|]). lia.
Qed.

End ScoreTableFacts.

Section IntegerScores.
Import Scoring ScoreTable.
Variable r : json.
Variables n1 n2 n3 n4 n5 n6 n7 n8 n9 : Z.
Hypothesis Hn1 : 0 <= n1 <= 10.
Hypothesis Hn2 : 0 <= n2 <= 10.
Hypothesis Hn3 : 0 <= n3 <= 10.
Hypothesis Hn4 : 0 <= n4 <= 10.
Hypothesis Hn5 : 0 <= n5 <= 10.
Hypothesis Hn6 : 0 <= n6 <= 10.
Hypothesis Hn7 : 0 <= n7 <= 10.
Hypothesis Hn8 : 0 <= n8 <= 10.
Hypothesis Hn9 : 0 <= n9 <= 10.
Hypothesis H1 :
  default 0%float (valid_score (get r "Problem Statement")) = of_int n1.
Hypothesis H2 :
  default 0%float (valid_score (get r "Solution/Product")) = of_int n2.
Hypothesis H3 :
  default 0%float (valid_score (get r "Market Opportunity")) = of_int n3.
Hypothesis H4 :
  default 0%float (valid_score (get r "Business Model")) = of_int n4.
Hypothesis H5 :
  default 0%float (valid_score (get r "Competitive Landscape")) = of_int n5.
Hypothesis H6 : default 0%float (valid_score (get r "Team")) = of_int n6.
Hypothesis H7 :
  default 0%float (valid_score (get r "Traction/Milestones")) = of_int n7.
Hypothesis H8 :
  default 0%float (valid_score (get r "Financial Projections")) = of_int n8.
Hypothesis H9 :
  default 0%float (valid_score (get r "Clarity and Presentation"))
  = of_int n9.

(** The exact sum, in hundredths. *)
Let total : Z :=
  0 + n1 * 10 + n2 * 15 + n3 * 20 + n4 * 15 + n5 * 10 + n6 * 10 + n7 * 10
  + n8 * 5 + n9 * 5.

Lemma exact_weighted_sum_integer :
  (exact_weighted_sum r * 100 == inject_Z total / 10)%Q.
Proof.
  unfold exact_weighted_sum, weight_table. cbn [fold_left].
  rewrite (exact_score_integer r _ n1 Hn1 H1),
    (exact_score_integer r _ n2 Hn2 H2),
    (exact_score_integer r _ n3 Hn3 H3),
    (exact_score_integer r _ n4 Hn4 H4),
    (exact_score_integer r _ n5 Hn5 H5),
    (exact_score_integer r _ n6 Hn6 H6),
    (exact_score_integer r _ n7 Hn7 H7),
    (exact_score_integer r _ n8 Hn8 H8),
    (exact_score_integer r _ n9 Hn9 H9).
  unfold total. rewrite !inject_Z_plus, !inject_Z_mult. field.
Qed.

Lemma spec_overall_score_integer :
  spec_overall_score r = formula_score total.
Proof.
  unfold spec_overall_score, formula_score, round_half_up.
  do 2 f_equal. apply Qfloor_comp. apply Qplus_comp; [|reflexivity].
  apply exact_weighted_sum_integer.
Qed.

Lemma calculateOverallScore_integer :
  exists f, calculateOverallScore r = code_score f /\ In (f, total) partials.
Proof.
  rewrite calculateOverallScore_code_score.
  unfold weights. cbn [fold_left fst snd].
  rewrite H1, H2, H3, H4, H5, H6, H7, H8, H9.
  eexists. split; [reflexivity|].
  exact (partials_reached n1 n2 n3 n4 n5 n6 n7 n8 n9
           Hn1 Hn2 Hn3 Hn4 Hn5 Hn6 Hn7 Hn8 Hn9).
Qed.

Lemma within_one_of_formula :
  spec_overall_score r - 1 <= calculateOverallScore r <= spec_overall_score r.
Proof.
  destruct calculateOverallScore_integer as (f & Hcode & Hin).
  rewrite spec_overall_score_integer, Hcode.
  exact (close_bounds f total (partials_all_close (f, total) Hin)).
Qed.

End IntegerScores.

(** For every analysis whose nine categories are missing, invalid, or
    scored with an integer from 0 to 10, the code returns the score of
    the formula or one point less. *)
Theorem integer_scores_within_one (r : json) :
  ScoreTable.integer_scores r ->
  Scoring.spec_overall_score r - 1 <= Scoring.calculateOverallScore r
  <= Scoring.spec_overall_score r.
Proof.
  intros H.
  destruct (H "Problem Statement") as (n1 & Hn1 & H1); [simpl; tauto|].
  destruct (H "Solution/Product") as (n2 & Hn2 & H2); [simpl; tauto|].
  destruct (H "Market Opportunity") as (n3 & Hn3 & H3); [simpl; tauto|].
  destruct (H "Business Model") as (n4 & Hn4 & H4); [simpl; tauto|].
  destruct (H "Competitive Landscape") as (n5 & Hn5 & H5); [simpl; tauto|].
  destruct (H "Team") as (n6 & Hn6 & H6); [simpl; tauto|].
  destruct (H "Traction/Milestones") as (n7 & Hn7 & H7); [simpl; tauto|].
  destruct (H "Financial Projections") as (n8 & Hn8 & H8); [simpl; tauto|].
  destruct (H "Clarity and Presentation") as (n9 & Hn9 & H9);
    [simpl; tauto|].
  exact (within_one_of_formula r n1 n2 n3 n4 n5 n6 n7 n8 n9
           Hn1 Hn2 Hn3 Hn4 Hn5 Hn6 Hn7 Hn8 Hn9 H1 H2 H3 H4 H5 H6 H7 H8 H9).
Qed.

(** The score set of the tie lies within the bounds. *)
Lemma integer_scores_within_one_witness :
  Scoring.spec_overall_score Scoring.tie_scores - 1
  <= Scoring.calculateOverallScore Scoring.tie_scores
  <= Scoring.spec_overall_score Scoring.tie_scores.
Proof.
  apply integer_scores_within_one. intros c Hc. simpl in Hc.
  repeat (destruct Hc as [<-|Hc];
          [first [ exists 6; split; [lia|vm_compute; reflexivity]
                 | exists 7; split; [lia|vm_compute; reflexivity] ]|]).
  destruct Hc.
Defined.

(** ** External analysis client *)

Section RetryFacts.
Import Retry.




End RetryFacts.



(** ** JSON repair *)

(** C10.  For any runtime: [sanitizeJsonString] returns a string that
    [JSON.parse] accepts unchanged, and every string it returns is
    accepted by [JSON.parse]. *)
Theorem sanitizeJsonString_sound `{!Builtins} (s : string) :
  (Sanitize.parses s = true -> Sanitize.sanitizeJsonString s = Ok s)
  /\ (forall out,
        Sanitize.sanitizeJsonString s = Ok out -> Sanitize.parses out = true).
Proof.
  unfold Sanitize.parses, Sanitize.sanitizeJsonString. split.
  - destruct (JSON_parse s); [reflexivity|discriminate].
  - intros out.
    destruct (JSON_parse s) as [v|e] eqn:Hs.
    + intros [= <-]. rewrite Hs. reflexivity.
    + destruct (JSON_parse (re_quote_keys (re_fix_quotes (re_strip_control s))))
        as [v|e1] eqn:H1.
      * intros [= <-]. rewrite H1. reflexivity.
      * destruct (re_match_braces s) as [x|]; [|discriminate].
        destruct (JSON_parse x) as [v|e2] eqn:H2; [|discriminate].
        intros [= <-]. rewrite H2. reflexivity.
Qed.

(** A valid text is returned as it is, and a text wrapped in prose is
    repaired into one that parses. *)
Lemma sanitizeJsonString_sound_witness :
  @Sanitize.sanitizeJsonString Sample.runtime "{}" = Ok "{}"
  /\ @Sanitize.parses Sample.runtime "{}" = true.
Proof.
  split.
  - apply (proj1 (@sanitizeJsonString_sound Sample.runtime "{}")).
    reflexivity.
  - apply (proj2 (@sanitizeJsonString_sound Sample.runtime
                    "Here you go: {} thanks") "{}").
    reflexivity.
Defined.

(** ** Slide-count pre-check *)

Section SlideCheckFacts.
Import SlideCheck.

(** The server's answer for a deck of [n] slides. *)
Lemma deck_of_answer (n : Z) (f : file) :
  deck_of n f =
  Answer 200 {| slideCount := Some n;
                message := "Slide validation complete. File has "
                           +:+ pretty n +:+ " slides." |}.
Proof. reflexivity. Qed.

(** A file of the wrong type or above 50 MiB is refused without any
    request being sent. *)
Lemma handleFile_local_checks (server : file -> http) (ui : form) (f : file) :
  type_ok f = false \/ maxSize < size f ->
  selectedFile (fst (handleFile server ui f)) = selectedFile ui
  /\ snd (handleFile server ui f) = [].
Proof.
  unfold handleFile. intros [Ht|Hs].
  - rewrite Ht. simpl. auto.
  - destruct (type_ok f); simpl; [|auto].
    destruct (Z.ltb_spec maxSize (size f)); [simpl; auto|lia].
Qed.

End SlideCheckFacts.

(** The form of the browser.  For a presentation file that passes the
    type and size checks
    and whose pre-check reports [n] slides, [handleFile] sends the
    pre-check request and nothing else; it selects the file for upload
    exactly when [5 <= n <= 35]; otherwise it leaves the selection as it
    was and shows an error that names [n] ("Slides too low" below 5,
    "Slides too high" above 35), so that with no file selected before,
    neither [handleFile] nor a later [handleUpload] sends a request that
    creates a job.  In particular 4 is refused, 5 and 35 are accepted, 36
    is refused. *)
Lemma handleFile_slide_range (ui : SlideCheck.form) (f : SlideCheck.file)
    (n : Z) :
  SlideCheck.type_ok f = true ->
  SlideCheck.size f <= SlideCheck.maxSize ->
  let ui' := fst (SlideCheck.handleFile (SlideCheck.deck_of n) ui f) in
  snd (SlideCheck.handleFile (SlideCheck.deck_of n) ui f)
  = [SlideCheck.PostValidateSlides f]
  /\ (5 <= n <= 35 ->
      SlideCheck.selectedFile ui' = Some f /\ SlideCheck.shown ui' = "")
  /\ (n < 5 ->
      SlideCheck.selectedFile ui' = SlideCheck.selectedFile ui
      /\ SlideCheck.shownType ui' = SlideCheck.error_message
      /\ SlideCheck.shown ui' =
         "Slides too low: Your presentation has " +:+ pretty n
         +:+ " slides. Minimum is 5.")
  /\ (35 < n ->
      SlideCheck.selectedFile ui' = SlideCheck.selectedFile ui
      /\ SlideCheck.shownType ui' = SlideCheck.error_message
      /\ SlideCheck.shown ui' =
         "Slides too high: Your presentation has " +:+ pretty n
         +:+ " slides. Maximum is 35.")
  /\ (n < 5 \/ 35 < n ->
      SlideCheck.selectedFile ui = None ->
      forall token,
        existsb SlideCheck.creates_job
          (snd (SlideCheck.handleFile (SlideCheck.deck_of n) ui f)
           ++ SlideCheck.handleUpload ui' token) = false)
  /\ SlideCheck.accepted (SlideCheck.deck_of 4) SlideCheck.deck = false
  /\ SlideCheck.accepted (SlideCheck.deck_of 5) SlideCheck.deck = true
  /\ SlideCheck.accepted (SlideCheck.deck_of 35) SlideCheck.deck = true
  /\ SlideCheck.accepted (SlideCheck.deck_of 36) SlideCheck.deck = false.
Proof.
  intros Ht Hs ui'. subst ui'. unfold SlideCheck.handleFile.
  rewrite Ht. simpl negb. cbv iota.
  destruct (Z.ltb_spec SlideCheck.maxSize (SlideCheck.size f)) as [Hbig|_];
    [lia|].
  rewrite deck_of_answer. cbn [fst snd SlideCheck.slideCount].
  change ((200 <=? 200)%nat && (200 <? 300)%nat) with true. cbv iota.
  split; [reflexivity|].
  destruct (Z.ltb_spec n 5) as [Hlow|Hge5].
  - repeat split; try reflexivity; try lia.
    intros _ Hnone token. unfold SlideCheck.handleUpload. simpl.
    rewrite Hnone. reflexivity.
  - destruct (Z.ltb_spec 35 n) as [Hhigh|Hle35].
    + repeat split; try reflexivity; try lia.
      intros _ Hnone token. unfold SlideCheck.handleUpload. simpl.
      rewrite Hnone. reflexivity.
    + repeat split; try reflexivity; try lia.
Qed.

(** ** Response validation *)

Section ListFacts.
Context {A B : Type}.

Lemma filter_ext_in (P Q : A -> Prop)
    `{!forall x, Decision (P x), !forall x, Decision (Q x)} (l : list A) :
  (forall x, x ∈ l -> P x <-> Q x) -> filter P l = filter Q l.
Proof.
  induction l as [|a l IH]; intros Hl; [reflexivity|].
  assert (Ha : P a <-> Q a) by (apply Hl; left).
  assert (Htl : filter P l = filter Q l)
    by (apply IH; intros x Hx; apply Hl; right; exact Hx).
  destruct (decide (P a)) as [Hp|Hp].
  - rewrite !filter_cons_True by tauto. rewrite Htl. reflexivity.
  - rewrite !filter_cons_False by tauto. exact Htl.
Qed.

Lemma omap_ext_in (f g : A -> option B) (l : list A) :
  (forall x, x ∈ l -> f x = g x) -> omap f l = omap g l.
Proof.
  induction l as [|a l IH]; intros Hl; [reflexivity|].
  cbn. rewrite (Hl a) by left. rewrite IH; [reflexivity|].
  intros x Hx. apply Hl. right. exact Hx.
Qed.

Lemma filter_has (P : A -> Prop) `{!forall x, Decision (P x)}
    (l : list A) (x : A) :
  x ∈ l -> P x -> Validation.nonempty (filter P l) = true.
Proof.
  intros Hx Hp.
  assert (Hin : x ∈ filter P l) by (apply list_elem_of_filter; auto).
  destruct (filter P l); [inversion Hin|reflexivity].
Qed.


End ListFacts.

Section ValidationFacts.
Context `{!Builtins}.
Import Validation.

(** Writing [overall_score] leaves every other property as it was. *)
Lemma get_set_other (r v : json) (k : string) :
  k <> "overall_score" -> get (set r "overall_score" v) k = get r k.
Proof.
  intros Hk. destruct r; try reflexivity. simpl.
  apply lookup_insert_ne. congruence.
Qed.

Lemma get_set_same (m : gmap string json) (v : json) :
  get (set (JObj m) "overall_score" v) "overall_score" = Some v.
Proof. simpl. apply lookup_insert_eq. Qed.

Lemma category_is_not_overall_score (c : string) :
  c ∈ requiredCategories -> c <> "overall_score".
Proof.
  intros Hc ->. apply list_elem_of_In in Hc. simpl in Hc.
  intuition discriminate.
Qed.

Lemma field_is_not_overall_score (c : string) :
  c ∈ requiredTopLevelFields -> c <> "overall_score".
Proof.
  intros Hc ->. apply list_elem_of_In in Hc. simpl in Hc.
  intuition discriminate.
Qed.

(** The three lists of the validation only look at the nine categories and
    the six top-level fields. *)
Lemma missingCategories_ext (r r' : json) :
  (forall c, c ∈ requiredCategories -> get r c = get r' c) ->
  missingCategories r = missingCategories r'.
Proof.
  intros Hg. unfold missingCategories. apply filter_ext_in.
  intros c Hc. unfold category_missing. rewrite (Hg c Hc). tauto.
Qed.

Lemma categoriesWithInvalidScores_ext (r r' : json) :
  (forall c, c ∈ requiredCategories -> get r c = get r' c) ->
  categoriesWithInvalidScores r = categoriesWithInvalidScores r'.
Proof.
  intros Hg. unfold categoriesWithInvalidScores. apply omap_ext_in.
  intros c Hc. unfold category_invalid. rewrite (Hg c Hc). reflexivity.
Qed.

Lemma missingTopLevelFields_ext (r r' : json) :
  (forall c, c ∈ requiredTopLevelFields -> get r c = get r' c) ->
  missingTopLevelFields r = missingTopLevelFields r'.
Proof.
  intros Hg. unfold missingTopLevelFields. apply filter_ext_in.
  intros c Hc. rewrite (Hg c Hc). tauto.
Qed.

(** A value that is not an object has no top-level field. *)
Lemma fields_present_object (r : json) :
  missingTopLevelFields r = [] -> exists m, r = JObj m.
Proof.
  intros Hnil. destruct r as [| | | | |m]; [..|eauto]; exfalso;
    match type of Hnil with
    | missingTopLevelFields ?x = _ =>
        assert (Hne : nonempty (missingTopLevelFields x) = true)
          by (apply (filter_has _ _ "overall_strengths"); [left|reflexivity])
    end;
    rewrite Hnil in Hne; discriminate.
Qed.

Lemma validate_and_score_object (m : gmap string json) :
  validate_and_score (JObj m) =
  if nonempty (categoriesWithInvalidScores (JObj m))
     || nonempty (missingTopLevelFields (JObj m))
  then (Throw ("Analysis validation failed: "
               +:+ join "; " (validationErrors (JObj m))), [])
  else (Ok (set (JObj m) "overall_score"
              (JNum (of_int (Scoring.calculateOverallScore (JObj m))))),
        if nonempty (missingCategories (JObj m))
        then [missing_warning (JObj m)] else []).
Proof. reflexivity. Qed.

(** Validation either throws without a warning or accepts. *)
Lemma validate_and_score_fatal (r : json) :
  nonempty (categoriesWithInvalidScores r)
  || nonempty (missingTopLevelFields r) = true ->
  exists m, validate_and_score r = (Throw m, []).
Proof.
  intros Hbad. destruct r; try (unfold validate_and_score; rewrite Hbad;
                                eauto).
  simpl. eauto.
Qed.


End ValidationFacts.




Section RecomputationFacts.
Context `{!Builtins}.
Import Validation.

Lemma nonempty_false {A} (l : list A) : nonempty l = false -> l = [].
Proof. destruct l; [reflexivity|discriminate]. Qed.

Lemma weight_key_is_not_overall_score (c : string) :
  In c (map fst Scoring.weights) -> c <> "overall_score".
Proof. intros Hc ->. simpl in Hc. intuition discriminate.
Qed.

(** The score does not read [overall_score]. *)
Lemma calculateOverallScore_ignores_overall_score (r v : json) :
  Scoring.calculateOverallScore (set r "overall_score" v)
  = Scoring.calculateOverallScore r.
Proof.
  apply calculateOverallScore_ext. intros c Hc.
  rewrite get_set_other by (apply weight_key_is_not_overall_score; exact Hc).
  reflexivity.
Qed.

(** Neither does the validation. *)
Lemma validation_ignores_overall_score (r v : json) :
  missingCategories (set r "overall_score" v) = missingCategories r
  /\ categoriesWithInvalidScores (set r "overall_score" v)
     = categoriesWithInvalidScores r
  /\ missingTopLevelFields (set r "overall_score" v)
     = missingTopLevelFields r.
Proof.
  split; [|split].
  - apply missingCategories_ext. intros c Hc.
    apply get_set_other, category_is_not_overall_score, Hc.
  - apply categoriesWithInvalidScores_ext. intros c Hc.
    apply get_set_other, category_is_not_overall_score, Hc.
  - apply missingTopLevelFields_ext. intros c Hc.
    apply get_set_other, field_is_not_overall_score, Hc.
Qed.

(** What an accepted response is turned into. *)
Lemma validate_and_score_accepts (r res : json) (w : list string) :
  validate_and_score r = (Ok res, w) ->
  exists m,
    r = JObj m
    /\ res = JObj (<["overall_score" :=
                       JNum (of_int (Scoring.calculateOverallScore r))]> m)
    /\ categoriesWithInvalidScores r = []
    /\ missingTopLevelFields r = []
    /\ w = (if nonempty (missingCategories r)
            then [missing_warning r] else []).
Proof.
  intros Hv.
  assert (Hok : nonempty (categoriesWithInvalidScores r)
                || nonempty (missingTopLevelFields r) = false).
  { destruct (nonempty (categoriesWithInvalidScores r)
              || nonempty (missingTopLevelFields r)) eqn:Hbad;
      [|reflexivity].
    destruct (validate_and_score_fatal r Hbad) as [m Hm]. congruence. }
  apply orb_false_iff in Hok. destruct Hok as [Hinv Htop].
  apply nonempty_false in Hinv. apply nonempty_false in Htop.
  destruct (fields_present_object r Htop) as [m ->].
  rewrite validate_and_score_object, Hinv, Htop in Hv. simpl in Hv.
  injection Hv as <- <-. exists m. auto.
Qed.

Lemma append_nonempty (a b : string) :
  truthy_str (Some b) = true -> truthy_str (Some (a +:+ b)) = true.
Proof. destruct a; [intros Hb; exact Hb|reflexivity]. Qed.

End RecomputationFacts.

(** C6.  When the validation accepts a response [r]:
    the [overall_score] of the analysis returned is
    [calculateOverallScore r]; the analysis returned, and the warnings,
    are the same whatever [overall_score] the response itself carried;
    the score stored in column [overall_score] by
    [updateAnalysisResultInDB] and the score printed in the report are
    [calculateOverallScore r] again. *)
Theorem overall_score_recomputed `{!Builtins} (r res : json)
    (w : list string) :
  Validation.validate_and_score r = (Ok res, w) ->
  get res "overall_score"
  = Some (JNum (of_int (Scoring.calculateOverallScore r)))
  /\ (forall claimed,
        Validation.validate_and_score (set r "overall_score" claimed)
        = (Ok res, w))
  /\ Handler.writes
       (snd (Pipeline.updateAnalysisResultInDB true res Handler.start))
     = [Job.SetAnalysis res (Scoring.calculateOverallScore r)
          (Pipeline.or_null (get res "recommendation"))
          (Pipeline.or_null (get res "confidence_score"))]
  /\ (forall today now analysisId originalFileName name ops,
        Report.generateInvestmentThesisPDF today now res analysisId
          originalFileName = Ok (name, ops) ->
        In (Report.P (pretty (Scoring.calculateOverallScore r) +:+ " / 100")
              20 false) ops).
Proof.
  intros Hv.
  destruct (validate_and_score_accepts r res w Hv)
    as (m & -> & -> & Hinv & Htop & ->).
  assert (Hres : Scoring.calculateOverallScore
                   (set (JObj m) "overall_score"
                      (JNum (of_int (Scoring.calculateOverallScore (JObj m)))))
                 = Scoring.calculateOverallScore (JObj m))
    by apply calculateOverallScore_ignores_overall_score.
  simpl set in Hres.
  split; [|split; [|split]].
  - apply get_set_same.
  - intros claimed.
    destruct (validation_ignores_overall_score (JObj m) claimed)
      as (Hm & Hi & Ht).
    simpl set in *. rewrite validate_and_score_object.
    unfold Validation.missing_warning. rewrite Hm, Hi, Ht, Hinv, Htop.
    simpl orb. cbv iota.
    change (JObj (<["overall_score":=claimed]> m))
      with (set (JObj m) "overall_score" claimed).
    rewrite calculateOverallScore_ignores_overall_score.
    simpl set. rewrite insert_insert_eq. reflexivity.
  - unfold Pipeline.updateAnalysisResultInDB. simpl. rewrite Hres.
    reflexivity.
  - intros today now analysisId originalFileName name ops.
    unfold Report.generateInvestmentThesisPDF.
    destruct (Report.analysisDateStr now _) as [dateStr|e];
      [|discriminate].
    simpl Js.bind. intros [= _ <-]. rewrite Hres.
    do 7 right. left. unfold Report.addP.
    rewrite append_nonempty by reflexivity. reflexivity.
Qed.

(** A response that claims 99 for itself gets the computed score. *)
Lemma overall_score_recomputed_witness :
  @Validation.validate_and_score Sample.runtime Sample.with_claimed_score
  = (Ok (set Sample.full_response "overall_score" (JNum 61)), []).
Proof.
  assert (Hv : @Validation.validate_and_score Sample.runtime
                 Sample.full_response
               = (Ok (set Sample.full_response "overall_score" (JNum 61)), []))
    by (vm_compute; reflexivity).
  destruct (@overall_score_recomputed Sample.runtime _ _ _ Hv)
    as (_ & Hclaimed & _).
  exact (Hclaimed (JNum 99)).
Defined.

(** ** Notification dispatcher *)

Section EmailFacts.
Import Job Handler Email.

Lemma state_eta (st : state) :
  {| currentStage := currentStage st; writes := writes st |} = st.
Proof. destruct st. reflexivity. Qed.

(** [updateEmailStatus] never throws: it returns whether the write went
    through. *)
Lemma updateEmailStatus_run (e : env) (s : EmailStatus.t)
    (reason : option string) (st : state) :
  updateEmailStatus e s reason st =
  (Ok (db_email_ok e s),
   {| currentStage := currentStage st;
      writes := writes st ++ recorded e s reason |}).
Proof.
  unfold updateEmailStatus, recorded.
  destruct (db_email_ok e s); [reflexivity|].
  unfold ret. rewrite app_nil_r, state_eta. reflexivity.
Qed.

(** [sendCompletionEmail] never throws: it returns [true] when nothing
    failed and [false] otherwise, and its writes are those of
    [email_writes]. *)
Lemma sendCompletionEmail_run (e : env)
    (recipientEmail deckOriginalFilename pdfS3Key : option string)
    (st : state) :
  sendCompletionEmail e recipientEmail deckOriginalFilename pdfS3Key st =
  (Ok (Pipeline.is_null (outcome e recipientEmail pdfS3Key)),
   {| currentStage := currentStage st;
      writes := writes st ++ email_writes e recipientEmail pdfS3Key |}).
Proof.
  unfold sendCompletionEmail, email_writes, outcome.
  destruct (negb (truthy_str (GMAIL_USER e))
            || negb (truthy_str (GMAIL_APP_PASSWORD e))).
  { unfold bind. rewrite updateEmailStatus_run. reflexivity. }
  destruct (negb (truthy_str recipientEmail)).
  { unfold bind. rewrite updateEmailStatus_run. reflexivity. }
  destruct (negb (truthy_str pdfS3Key)).
  { unfold bind. rewrite updateEmailStatus_run. reflexivity. }
  unfold bind, try_catch, await, ret.
  destruct (signed_url e) as [url|m].
  - rewrite updateEmailStatus_run.
    destruct (sendMail e) as [info|m]; rewrite updateEmailStatus_run;
      simpl; rewrite <- app_assoc; reflexivity.
  - rewrite updateEmailStatus_run. reflexivity.
Qed.

Lemma recorded_email_only (e : env) (s : EmailStatus.t)
    (reason : option string) :
  forallb Pipeline.is_email_write (recorded e s reason) = true.
Proof. unfold recorded. destruct (db_email_ok e s); reflexivity. Qed.

Lemma email_writes_email_only (e : env)
    (recipientEmail pdfS3Key : option string) :
  forallb Pipeline.is_email_write (email_writes e recipientEmail pdfS3Key)
  = true.
Proof.
  unfold email_writes.
  destruct (outcome e recipientEmail pdfS3Key) as [[| | |m|m]|];
    rewrite ?forallb_app, !recorded_email_only; reflexivity.
Qed.

(** Writes to the email columns leave the other columns alone. *)
Lemma after_email_only (ws : list db_write) :
  forallb Pipeline.is_email_write ws = true ->
  forall r,
    processing_status (after ws r) = processing_status r
    /\ failure_reason (after ws r) = failure_reason r
    /\ pdf_s3_key (after ws r) = pdf_s3_key r.
Proof.
  induction ws as [|w ws IH]; intros Hall r; [auto|].
  simpl in Hall. apply andb_true_iff in Hall. destruct Hall as [Hw Hws].
  destruct w as [| | |s reason|]; try discriminate.
  destruct (IH Hws (apply_write (SetEmailStatus s reason) r))
    as (H1 & H2 & H3).
  change (after (SetEmailStatus s reason :: ws) r)
    with (after ws (apply_write (SetEmailStatus s reason) r)).
  rewrite H1, H2, H3. auto.
Qed.

Lemma failure_message_truthy (f : failure) :
  truthy_str (Some (failure_message f)) = true.
Proof. destruct f; reflexivity. Qed.

Lemma reasonToStore_failed (f : failure) :
  reasonToStore EmailStatus.FAILED (Some (failure_message f))
  = Some (substring0 255 (failure_message f)).
Proof.
  unfold reasonToStore. rewrite failure_message_truthy. reflexivity.
Qed.

Lemma after_app (ws ws' : list db_write) (r : row) :
  after (ws ++ ws') r = after ws' (after ws r).
Proof. unfold after. apply fold_left_app. Qed.

End EmailFacts.

(** C8.  [sendCompletionEmail] never throws, in whatever state it is
    called: it returns a boolean, [true] exactly when nothing failed, and
    [false] for missing credentials, a missing recipient, a missing report
    key, a failure to sign the URL and a failure of the transport.  Its
    writes only touch [email_status] and [email_failure_reason]: the
    processing status, the failure reason and the report key of the job
    stay as they were.  On each failure, provided the database carries out
    the update, the row ends with [email_status = FAILED] and the reason of
    that failure, cut to 255 characters; on success, with
    [email_status = SENT] and no reason. *)
Theorem sendCompletionEmail_never_raises (e : Email.env)
    (recipientEmail deckOriginalFilename pdfS3Key : option string)
    (st : Handler.state) :
  exists sent ws,
    Email.sendCompletionEmail e recipientEmail deckOriginalFilename
      pdfS3Key st
    = (Ok sent, {| Handler.currentStage := Handler.currentStage st;
                   Handler.writes := Handler.writes st ++ ws |})
    /\ (sent = true <-> Email.outcome e recipientEmail pdfS3Key = None)
    /\ (forall r,
          Job.processing_status (Email.after ws r) = Job.processing_status r
          /\ Job.failure_reason (Email.after ws r) = Job.failure_reason r
          /\ Job.pdf_s3_key (Email.after ws r) = Job.pdf_s3_key r)
    /\ (forall f r,
          Email.outcome e recipientEmail pdfS3Key = Some f ->
          sent = false
          /\ (Email.db_email_ok e EmailStatus.FAILED = true ->
              Job.email_status (Email.after ws r) = Some EmailStatus.FAILED
              /\ Job.email_failure_reason (Email.after ws r)
                 = Some (substring0 255 (Email.failure_message f))))
    /\ (forall r,
          Email.outcome e recipientEmail pdfS3Key = None ->
          Email.db_email_ok e EmailStatus.SENT = true ->
          Job.email_status (Email.after ws r) = Some EmailStatus.SENT
          /\ Job.email_failure_reason (Email.after ws r) = None).
Proof.
  exists (Pipeline.is_null (Email.outcome e recipientEmail pdfS3Key)),
         (Email.email_writes e recipientEmail pdfS3Key).
  split; [apply sendCompletionEmail_run|].
  split; [destruct (Email.outcome e recipientEmail pdfS3Key); simpl;
          intuition congruence|].
  split; [intros r; apply after_email_only, email_writes_email_only|].
  unfold Email.email_writes. split.
  - intros f r ->. split; [reflexivity|]. intros Hdb.
    assert (Hlast : forall r',
              Job.email_status
                (Email.after (Email.recorded e EmailStatus.FAILED
                                (Some (Email.failure_message f))) r')
              = Some EmailStatus.FAILED
              /\ Job.email_failure_reason
                   (Email.after (Email.recorded e EmailStatus.FAILED
                                   (Some (Email.failure_message f))) r')
                 = Some (substring0 255 (Email.failure_message f))).
    { intros r'. unfold Email.recorded.
      rewrite Hdb, reasonToStore_failed. split; reflexivity. }
    destruct f; try apply Hlast. rewrite after_app. apply Hlast.
  - intros r -> Hdb. cbv iota. rewrite after_app.
    assert (Hsent : Email.recorded e EmailStatus.SENT None
                    = [Job.SetEmailStatus EmailStatus.SENT None])
      by (unfold Email.recorded; rewrite Hdb; reflexivity).
    rewrite Hsent. split; reflexivity.
Qed.

(** The transport is down: [false], and the failure is on the row, whose
    status is untouched. *)
Lemma sendCompletionEmail_never_raises_witness :
  exists ws,
    Email.sendCompletionEmail Email.smtp_down (Some "founder@example.com")
      (Some "deck.pptx") (Some "reports/x.pdf") Handler.start
    = (Ok false, {| Handler.currentStage := "Initiating";
                    Handler.writes := ws |})
    /\ Job.email_failure_reason (Email.after ws Job.inserted_row)
       = Some "Gmail SMTP Error: connect ETIMEDOUT"
    /\ Job.processing_status (Email.after ws Job.inserted_row) = Job.PENDING.
Proof.
  destruct (sendCompletionEmail_never_raises Email.smtp_down
              (Some "founder@example.com") (Some "deck.pptx")
              (Some "reports/x.pdf") Handler.start)
    as (sent & ws & Hrun & _ & Hkeep & Hfail & _).
  destruct (Hfail (Email.TransportFailed "connect ETIMEDOUT")
              Job.inserted_row eq_refl) as (-> & Hrec).
  destruct (Hrec eq_refl) as (_ & Hreason).
  destruct (Hkeep Job.inserted_row) as (Hstatus & _).
  exists ws. split; [exact Hrun|]. split; [exact Hreason|exact Hstatus].
Defined.

(** ** The handlers' monad *)

Section HandlerRules.
Import Job Handler.
Context {A B : Type}.

Lemma extends_ret (a : A) (Qok : A -> list db_write -> Prop)
    (Qthrow : string -> list db_write -> Prop) :
  Qok a [] -> extends (ret a) Qok Qthrow.
Proof. intros HQ st. exists []. rewrite app_nil_r. auto. Qed.

Lemma extends_throw (e : string) (Qok : A -> list db_write -> Prop)
    (Qthrow : string -> list db_write -> Prop) :
  Qthrow e [] -> extends (throw e) Qok Qthrow.
Proof. intros HQ st. exists []. rewrite app_nil_r. auto. Qed.

Lemma extends_await (r : result A) (Qok : A -> list db_write -> Prop)
    (Qthrow : string -> list db_write -> Prop) :
  (forall a, Qok a []) -> (forall e, Qthrow e []) ->
  extends (await r) Qok Qthrow.
Proof.
  intros Hok Hthrow st. exists []. rewrite app_nil_r.
  split; [reflexivity|]. unfold await. simpl. destruct r; auto.
Qed.

Lemma extends_bind (m : M A) (k : A -> M B)
    (Qok : B -> list db_write -> Prop)
    (Qthrow : string -> list db_write -> Prop) :
  extends m
    (fun a ws1 =>
       extends (k a) (fun b ws2 => Qok b (ws1 ++ ws2))
                     (fun e ws2 => Qthrow e (ws1 ++ ws2)))
    Qthrow ->
  extends (bind m k) Qok Qthrow.
Proof.
  intros Hm st. unfold bind. destruct (Hm st) as (ws1 & Hw1 & H1).
  destruct (m st) as [[a|e] st1]; simpl in *.
  - destruct (H1 st1) as (ws2 & Hw2 & H2). exists (ws1 ++ ws2).
    rewrite Hw2, Hw1, app_assoc. auto.
  - exists ws1. auto.
Qed.

Lemma extends_try_catch (body : M A) (handler : string -> M A)
    (Qok : A -> list db_write -> Prop)
    (Qthrow : string -> list db_write -> Prop) :
  extends body Qok
    (fun e ws1 =>
       extends (handler e) (fun a ws2 => Qok a (ws1 ++ ws2))
                           (fun e' ws2 => Qthrow e' (ws1 ++ ws2))) ->
  extends (try_catch body handler) Qok Qthrow.
Proof.
  intros Hm st. unfold try_catch. destruct (Hm st) as (ws1 & Hw1 & H1).
  destruct (body st) as [[a|e] st1]; simpl in *.
  - exists ws1. auto.
  - destruct (H1 st1) as (ws2 & Hw2 & H2). exists (ws1 ++ ws2).
    rewrite Hw2, Hw1, app_assoc. auto.
Qed.

Lemma extends_weaken (m : M A) (Qok Qok' : A -> list db_write -> Prop)
    (Qthrow Qthrow' : string -> list db_write -> Prop) :
  extends m Qok Qthrow ->
  (forall a ws, Qok a ws -> Qok' a ws) ->
  (forall e ws, Qthrow e ws -> Qthrow' e ws) ->
  extends m Qok' Qthrow'.
Proof.
  intros Hm Hok Hthrow st. destruct (Hm st) as (ws & Hw & H).
  exists ws. split; [exact Hw|]. destruct (fst (m st)); auto.
Qed.

End HandlerRules.

Section HandlerPrimitives.
Import Job Handler.

Lemma extends_write (w : db_write) (Qok : unit -> list db_write -> Prop)
    (Qthrow : string -> list db_write -> Prop) :
  Qok tt [w] -> extends (write w) Qok Qthrow.
Proof. intros HQ st. exists [w]. auto. Qed.

Lemma extends_set_stage (name : string)
    (Qok : unit -> list db_write -> Prop)
    (Qthrow : string -> list db_write -> Prop) :
  Qok tt [] -> extends (set_stage name) Qok Qthrow.
Proof. intros HQ st. exists []. simpl. rewrite app_nil_r. auto. Qed.

Lemma extends_get_stage (Qok : string -> list db_write -> Prop)
    (Qthrow : string -> list db_write -> Prop) :
  (forall name, Qok name []) -> extends get_stage Qok Qthrow.
Proof. intros HQ st. exists []. simpl. rewrite app_nil_r. auto. Qed.

End HandlerPrimitives.

(** ** Job orchestrator *)

Section PipelineFacts.
Import Job Handler Pipeline.

(** Lowering the starting stage or raising the final one keeps [rises]
    and [remaining_ok]. *)
Lemma rises_bounds (ws : list db_write) :
  forall k k' i i',
    rises k ws k' = true -> (i <= k)%nat -> (k' <= i')%nat ->
    rises i ws i' = true.
Proof.
  induction ws as [|w ws IH]; intros k k' i i' H Hi Hi'.
  - simpl in *. apply Nat.leb_le in H. apply Nat.leb_le. lia.
  - destruct w as [s reason|d sc rc cf| | |]; simpl in *; try discriminate.
    + destruct (stage_index s) as [j|]; [|discriminate].
      apply andb_true_iff in H. destruct H as [H Hr].
      apply andb_true_iff in H. destruct H as [Hk Hj].
      apply Nat.ltb_lt in Hk. rewrite (IH j k' j i' Hr) by lia.
      rewrite Hj. replace (i <? j)%nat with true
        by (symmetry; apply Nat.ltb_lt; lia).
      reflexivity.
    + apply (IH k k'); assumption.
Qed.

Lemma remaining_ok_lower (ws : list db_write) :
  forall k i, remaining_ok k ws = true -> (i <= k)%nat ->
              remaining_ok i ws = true.
Proof.
  induction ws as [|w ws IH]; intros k i H Hi; [reflexivity|].
  destruct w as [s reason|d sc rc cf|key|s reason|]; simpl in *;
    try assumption; try discriminate.
  - destruct s; simpl in *; try assumption; try discriminate;
      (apply andb_true_iff in H; destruct H as [H Hr];
       apply andb_true_iff in H; destruct H as [Hk Hj];
       apply Nat.ltb_lt in Hk; rewrite Hr, Hj, !andb_true_r;
       apply Nat.ltb_lt; lia).
  - apply (IH k); assumption.
Qed.

(** Writes that rise from [k] to [k'], followed by writes that may remain
    at [k'], may remain at [k]. *)
Lemma rises_then_remaining (ws rest : list db_write) :
  forall k k',
    rises k ws k' = true -> remaining_ok k' rest = true ->
    remaining_ok k (ws ++ rest) = true.
Proof.
  induction ws as [|w ws IH]; intros k k' H Hrest.
  - simpl in *. apply Nat.leb_le in H. apply (remaining_ok_lower rest k');
      assumption.
  - destruct w as [s reason|d sc rc cf| | |]; cbn [rises] in H;
      try discriminate.
    + destruct (stage_index s) as [j|] eqn:Hs; [|discriminate].
      apply andb_true_iff in H. destruct H as [H Hr].
      specialize (IH j k' Hr Hrest).
      destruct s; try discriminate; injection Hs as <-;
        cbn [app remaining_ok stage_index]; rewrite H, IH; reflexivity.
    + cbn [app remaining_ok]. apply (IH k k'); assumption.
Qed.

Lemma rises_app (ws ws' : list db_write) :
  forall k j k',
    rises k ws j = true -> rises j ws' k' = true ->
    rises k (ws ++ ws') k' = true.
Proof.
  induction ws as [|w ws IH]; intros k j k' H H'.
  - simpl in *. apply Nat.leb_le in H. apply (rises_bounds ws' j k'); auto.
  - destruct w as [s reason|d sc rc cf| | |]; simpl in *; try discriminate.
    + destruct (stage_index s) as [i|]; [|discriminate].
      apply andb_true_iff in H. destruct H as [H Hr].
      rewrite H. simpl. apply (IH i j); assumption.
    + apply (IH k j); assumption.
Qed.

(** Sequencing. *)
Lemma stage_bind {A B} (k j k' : nat) (m : M A) (f : A -> M B) :
  stage k m j -> (j <= k')%nat -> (forall a, stage j (f a) k') ->
  stage k (bind m f) k'.
Proof.
  intros Hm Hj Hf. apply extends_bind.
  apply (extends_weaken m _ _ _ _ Hm).
  - intros a ws1 H1. apply (extends_weaken (f a) _ _ _ _ (Hf a));
      intros x ws2 H2; apply (rises_app ws1 ws2 k j k'); assumption.
  - intros e ws1 H1. apply (rises_bounds ws1 k j); [assumption|lia|lia].
Qed.

Lemma finishing_bind {A B} (k j : nat) (m : M A) (f : A -> M B) :
  stage k m j -> (j <= 6)%nat -> (forall a, finishing j (f a)) ->
  finishing k (bind m f).
Proof.
  intros Hm Hj Hf. apply extends_bind.
  apply (extends_weaken m _ _ _ _ Hm).
  - intros a ws1 H1. apply (extends_weaken (f a) _ _ _ _ (Hf a)).
    + intros x ws2 H2. apply (rises_then_remaining ws1 ws2 k j); assumption.
    + intros x ws2 H2. apply (rises_app ws1 ws2 k j 6); assumption.
  - intros e ws1 H1. apply (rises_bounds ws1 k j); [assumption|lia|lia].
Qed.

(** The primitives. *)
Lemma stage_set_stage (k : nat) (name : string) : stage k (set_stage name) k.
Proof. apply extends_set_stage. simpl. apply Nat.leb_refl. Qed.

Lemma stage_await {A} (k : nat) (r : result A) : stage k (await r) k.
Proof. apply extends_await; intros; simpl; apply Nat.leb_refl. Qed.

Lemma stage_status (k j : nat) (ok : bool) (s : status)
    (reason : option string) :
  stage_index s = Some j -> (k < j < 7)%nat ->
  stage k (updateAnalysisStatus ok s reason) j.
Proof.
  intros Hs Hj. unfold updateAnalysisStatus. destruct ok.
  - apply extends_write. cbn [rises]. rewrite Hs.
    rewrite (proj2 (Nat.ltb_lt k j)), (proj2 (Nat.ltb_lt j 7)),
      Nat.leb_refl by lia.
    reflexivity.
  - apply extends_ret. simpl. apply Nat.leb_le. lia.
Qed.

Lemma stage_save (k : nat) (ok : bool) (analysisResult : json) :
  stage k (updateAnalysisResultInDB ok analysisResult) k.
Proof.
  unfold updateAnalysisResultInDB. destruct ok.
  - apply extends_write. simpl. apply Nat.leb_refl.
  - apply extends_throw. simpl. apply Nat.leb_refl.
Qed.

(** The file name of the report is prefixed, so the key is never empty. *)
Lemma report_key_truthy (reportFilename : string) :
  truthy_str (Some ("reports/" +:+ reportFilename)) = true.
Proof. reflexivity. Qed.

(** From the completion to the end of the [try] block. *)
Lemma finishing_complete {A} (ok : bool) (rowCount : nat) (key : string)
    (e : Email.env) (recipientEmail deckOriginalFilename : option string)
    (a : A) :
  truthy_str (Some key) = true ->
  finishing 6
    (bind (updatePdfKeyAndComplete ok rowCount key) (fun _ =>
     bind (set_stage "Email Notification") (fun _ =>
     bind (Email.sendCompletionEmail e recipientEmail deckOriginalFilename
             (Some key)) (fun _ =>
     ret a)))).
Proof.
  intros Hkey st. unfold updatePdfKeyAndComplete.
  destruct ok; unfold bind.
  - cbn [write ret set_stage fst snd writes currentStage].
    rewrite sendCompletionEmail_run.
    exists (SetPdfKeyCompleted key
            :: Email.email_writes e recipientEmail (Some key)).
    cbn [fst snd writes ret]. split.
    + rewrite <- app_assoc. reflexivity.
    + cbn [remaining_ok]. rewrite Hkey, email_writes_email_only.
      reflexivity.
  - exists []. rewrite app_nil_r. split; reflexivity.
Qed.

(** The [catch] clause closes whatever the [try] block wrote. *)
Lemma catch_closes {A} (created ok : bool) (message : string)
    (reply : string -> A) (ws : list db_write) :
  rises 0 ws 6 = true ->
  extends
    (bind get_stage (fun currentStage =>
     bind (if created then updateAnalysisStatus ok FAILED (Some message)
           else ret tt) (fun _ =>
     ret (reply currentStage))))
    (fun _ ws' => remaining_ok 0 (ws ++ ws') = true)
    (fun _ ws' => remaining_ok 0 (ws ++ ws') = true).
Proof.
  intros Hws st. unfold bind, get_stage.
  cbn [fst snd].
  assert (Hcases :
    exists ws',
      (if created then updateAnalysisStatus ok FAILED (Some message)
       else ret tt) st
      = (Ok tt, {| currentStage := currentStage st;
                   writes := writes st ++ ws' |})
      /\ remaining_ok 6 ws' = true).
  { destruct created; [unfold updateAnalysisStatus; destruct ok|].
    - eexists [_]. split; reflexivity.
    - exists []. unfold ret. rewrite app_nil_r, state_eta. auto.
    - exists []. unfold ret. rewrite app_nil_r, state_eta. auto. }
  destruct Hcases as (ws' & -> & Hclosed). exists ws'.
  split; [reflexivity|].
  apply (rises_then_remaining ws ws' 0 6); assumption.
Qed.

Ltac run_stage :=
  eapply finishing_bind;
  [ first [ apply stage_set_stage
          | apply stage_await
          | apply stage_save
          | eapply stage_status; [reflexivity|simpl; lia] ]
  | simpl; lia
  | intros ? ].

(** The writes of the upload handler may remain for a row that has just
    been inserted. *)
Lemma upload_writes_ok (e : env) (userEmail originalFileName : string) :
  remaining_ok 0 (upload_writes e userEmail originalFileName) = true.
Proof.
  assert (Hspec :
    extends (upload_handler e userEmail originalFileName)
      (fun _ ws => remaining_ok 0 ws = true)
      (fun _ ws => remaining_ok 0 ws = true)).
  { unfold upload_handler. apply extends_try_catch.
    eapply extends_weaken;
      [|intros a ws H; exact H
       |intros message ws H; apply (catch_closes _ _ message _ ws H)].
    do 8 run_stage.
    match goal with
    | |- context [Validation.slides_of ?x] =>
        destruct (Validation.slides_of x) as [slides|]
    end; [|apply extends_throw; reflexivity].
    do 13 run_stage.
    apply finishing_complete, report_key_truthy. }
  unfold upload_writes. destruct (Hspec start) as (ws & -> & Hws).
  simpl. destruct (fst _); exact Hws.
Qed.

End PipelineFacts.

Section JobMachineFacts.
Import Job Handler Pipeline.

Lemma submitted_invariant (e : env) (userEmail originalFileName : string) :
  invariant (submitted e userEmail originalFileName) = true.
Proof.
  unfold invariant, submitted. simpl.
  apply upload_writes_ok.
Qed.

(** One step keeps the invariant and moves the status as the state
    machine allows; only a download request that cannot access the report
    moves it to FILE_UNAVAILABLE. *)
Lemma step_invariant (s : sys) (ev : event) :
  invariant s = true ->
  invariant (step s ev) = true
  /\ allowed forward (processing_status (job s))
       (processing_status (job (step s ev))) = true
  /\ (processing_status (job (step s ev)) = FILE_UNAVAILABLE ->
      processing_status (job s) = FILE_UNAVAILABLE
      \/ exists err, ev = DownloadRequest (Throw err) true).
Proof.
  assert (Hsame : forall s', invariant s' = true ->
            invariant s' = true
            /\ allowed forward (processing_status (job s'))
                 (processing_status (job s')) = true
            /\ (processing_status (job s') = FILE_UNAVAILABLE ->
                processing_status (job s') = FILE_UNAVAILABLE
                \/ exists err, ev = DownloadRequest (Throw err) true)).
  { intros s' H. split; [exact H|]. split; [|auto].
    destruct (processing_status (job s')); reflexivity. }
  destruct s as [r ws]. destruct ev as [|s3 db_ok].
  - (* the handler's next write *)
    destruct ws as [|w ws]; simpl step; [apply Hsame|].
    clear Hsame. destruct r as [st fr key es er ad os rc cf].
    unfold invariant. cbn [job pending processing_status pdf_s3_key].
    destruct st; destruct w as [s reason|d sc rec conf|k|s reason|];
      try destruct s;
      cbn [apply_write processing_status pdf_s3_key stage_index remaining_ok
           forallb is_email_write is_null];
      intros H; try discriminate H;
      repeat match type of H with
        | _ && _ = true =>
            let H1 := fresh "H" in
            apply andb_true_iff in H; destruct H as [H1 H]
        end;
      try discriminate;
      (split; [|split; [reflexivity
                       |intros Hx; first [discriminate Hx|left; reflexivity]]]);
      repeat (apply andb_true_iff; split);
      try assumption; try reflexivity.
  - (* a download request *)
    unfold step, download. cbn [job pending].
    destruct (truthy_str (pdf_s3_key r)) eqn:Hkey; cbn [negb];
      [|apply (Hsame {| job := r; pending := ws |})].
    destruct (status_eqb (processing_status r) FAILED) eqn:Hf;
      [apply (Hsame {| job := r; pending := ws |})|].
    destruct s3 as [url|err]; cbn [snd Email.after fold_left];
      [apply (Hsame {| job := r; pending := ws |})|].
    destruct db_ok; cbn [Email.after fold_left];
      [|apply (Hsame {| job := r; pending := ws |})].
    clear Hsame. destruct r as [st fr key es er ad os rc cf].
    unfold invariant. cbn [job pending processing_status pdf_s3_key
                           apply_write] in *.
    destruct key as [k|]; [|discriminate].
    destruct st; cbn [is_null]; intros H; try discriminate H;
      (split; [exact H|split; [reflexivity|eauto]]).
Qed.

Lemma run_invariant (evs : list event) :
  forall s, invariant s = true -> invariant (run evs s) = true.
Proof.
  induction evs as [|ev evs IH]; intros s H; [exact H|].
  simpl. apply IH. apply (step_invariant s ev H).
Qed.

(** What the invariant says of the row. *)
Lemma invariant_key (s : sys) :
  invariant s = true ->
  (pdf_s3_key (job s) <> None <->
   processing_status (job s) = COMPLETED
   \/ processing_status (job s) = FILE_UNAVAILABLE).
Proof.
  unfold invariant. destruct (job s) as [st fr key es er ad os rc cf].
  cbn [processing_status pdf_s3_key].
  destruct st; destruct key as [k|]; cbn [is_null truthy_str];
    intros H; try discriminate H;
    (split; [intros Hk|intros [Hs|Hs]]);
    try discriminate; try congruence; auto.
Qed.

End JobMachineFacts.

(** C2, as the code has it.  The write that records the report key sets
    COMPLETED in the same statement.  For every reachable row, the report
    key is non-null if and only if the status is COMPLETED or
    FILE_UNAVAILABLE: the download route changes the status alone and
    keeps the key of the report it failed to find. *)
Theorem report_key_iff_completed_or_unavailable :
  (forall key r,
      Job.processing_status (Job.apply_write (Job.SetPdfKeyCompleted key) r)
      = Job.COMPLETED
      /\ Job.pdf_s3_key (Job.apply_write (Job.SetPdfKeyCompleted key) r)
         = Some key)
  /\ (forall r,
        Pipeline.reachable r ->
        (Job.pdf_s3_key r <> None <->
         Job.processing_status r = Job.COMPLETED
         \/ Job.processing_status r = Job.FILE_UNAVAILABLE)).
Proof.
  split; [intros key r; split; reflexivity|].
  intros r (e & userEmail & originalFileName & evs & <-).
  apply invariant_key, run_invariant, submitted_invariant.
Qed.

(** A job that completed and whose report was then found missing. *)
Lemma report_lost_reachable :
  Pipeline.reachable
    (Pipeline.job (Pipeline.run Pipeline.report_lost
       (Pipeline.submitted Pipeline.all_well "founder@example.com"
          "deck.pptx"))).
Proof.
  exists Pipeline.all_well, "founder@example.com", "deck.pptx",
         Pipeline.report_lost.
  reflexivity.
Qed.

Lemma report_key_iff_completed_or_unavailable_witness :
  Job.pdf_s3_key
    (Pipeline.job (Pipeline.run Pipeline.report_lost
       (Pipeline.submitted Pipeline.all_well "founder@example.com"
          "deck.pptx"))) <> None.
Proof.
  apply (proj2 report_key_iff_completed_or_unavailable _
           report_lost_reachable).
  right. vm_compute. reflexivity.
Defined.

(** C2, as stated, fails: after a download that finds the report missing,
    the row is reachable, its status is FILE_UNAVAILABLE and its report
    key is still there. *)
Lemma report_key_kept_when_file_unavailable :
  ~ (forall r,
       Pipeline.reachable r ->
       (Job.pdf_s3_key r <> None <-> Job.processing_status r = Job.COMPLETED)).
Proof.
  intros Hclaim.
  destruct (Hclaim _ report_lost_reachable) as [Hto _].
  assert (Hstatus :
    Job.processing_status
      (Pipeline.job (Pipeline.run Pipeline.report_lost
         (Pipeline.submitted Pipeline.all_well "founder@example.com"
            "deck.pptx"))) = Job.FILE_UNAVAILABLE)
    by (vm_compute; reflexivity).
  assert (Hkey :
    Job.pdf_s3_key
      (Pipeline.job (Pipeline.run Pipeline.report_lost
         (Pipeline.submitted Pipeline.all_well "founder@example.com"
            "deck.pptx"))) <> None)
    by (vm_compute; discriminate).
  specialize (Hto Hkey). rewrite Hstatus in Hto. discriminate Hto.
Qed.

(** C7.  In every run of a job (the handler's writes interleaved with
    download requests in any order), every step leaves the status where
    it is, or moves it to a later stage of the sequence
    PENDING, UPLOADING_DECK, EXTRACTING_TEXT, ANALYZING_AI,
    SAVING_ANALYSIS, GENERATING_PDF, UPLOADING_PDF, COMPLETED, or moves it
    to FAILED from a non-terminal status, or moves it from COMPLETED to
    FILE_UNAVAILABLE; the last move is made by a download request whose
    access to the stored report failed, and by nothing else. *)
Theorem status_moves_forward (e : Pipeline.env)
    (userEmail originalFileName : string) (evs : list Pipeline.event)
    (ev : Pipeline.event) :
  let s := Pipeline.run evs
             (Pipeline.submitted e userEmail originalFileName) in
  let before := Job.processing_status (Pipeline.job s) in
  let after := Job.processing_status (Pipeline.job (Pipeline.step s ev)) in
  Pipeline.allowed Pipeline.forward before after = true
  /\ (after = Job.FILE_UNAVAILABLE ->
      before = Job.FILE_UNAVAILABLE
      \/ (before = Job.COMPLETED
          /\ exists err, ev = Pipeline.DownloadRequest (Throw err) true)).
Proof.
  intros s before after.
  assert (Hinv : Pipeline.invariant s = true)
    by apply run_invariant, submitted_invariant.
  destruct (step_invariant s ev Hinv) as (Hnext & Hmove & Hlost).
  split; [exact Hmove|].
  intros Hafter. subst before after.
  destruct (Hlost Hafter) as [Hsame|Hdownload]; [left; exact Hsame|].
  destruct (Job.processing_status (Pipeline.job s)) eqn:Hb;
    rewrite Hafter in Hmove; try discriminate Hmove; auto.
Qed.

(** The report of a completed job is found missing by a download. *)
Lemma status_moves_forward_witness :
  Pipeline.allowed Pipeline.forward Job.COMPLETED Job.FILE_UNAVAILABLE = true
  /\ exists err,
       Pipeline.DownloadRequest (Throw "NotFound") true
       = Pipeline.DownloadRequest (Throw err) true.
Proof.
  pose proof (status_moves_forward Pipeline.all_well "founder@example.com"
                "deck.pptx" (replicate 10 Pipeline.HandlerWrite)
                (Pipeline.DownloadRequest (Throw "NotFound") true)) as H.
  vm_compute in H. destruct H as [_ Hlost].
  destruct (Hlost eq_refl) as [Hsame|[_ Hdownload]]; [discriminate Hsame|].
  split; [reflexivity|exact Hdownload].
Defined.

(** When nothing fails, the row goes through the stages in order (the
    analysis is written during SAVING_ANALYSIS, the email status after
    COMPLETED); when the extraction fails, it ends FAILED. *)
Lemma statuses_of_sample_runs :
  Pipeline.statuses Pipeline.all_well
  = [ Job.PENDING; Job.UPLOADING_DECK; Job.EXTRACTING_TEXT; Job.ANALYZING_AI;
      Job.SAVING_ANALYSIS; Job.SAVING_ANALYSIS; Job.GENERATING_PDF;
      Job.UPLOADING_PDF; Job.COMPLETED; Job.COMPLETED; Job.COMPLETED ]
  /\ Pipeline.statuses Pipeline.extraction_fails
     = [ Job.PENDING; Job.UPLOADING_DECK; Job.EXTRACTING_TEXT; Job.FAILED ].
Proof. vm_compute. split; reflexivity. Qed.

(** The upload route does not count the slides again: a deck of four
    slides that is posted to it is analysed to the end. *)
Lemma upload_route_has_no_slide_gate :
  Pipeline.statuses Pipeline.four_slides = Pipeline.statuses Pipeline.all_well.
Proof. vm_compute. reflexivity. Qed.

(** ** The retry loop for any number of retries *)

Section BackoffFacts.
Import Retry Backoff.

Lemma delays_succ (n : nat) :
  delays (S n) = delays n ++ [1500 * 2 ^ Z.of_nat n].
Proof.
  unfold delays. rewrite seq_S, map_app. reflexivity.
Qed.

(** The invariant of the loop: entered with [retries] failures behind it,
    [retries] calls made and the delays of these failures slept. *)
Lemma retry_loop_spec (api : nat -> api_outcome) (maxRetries : nat) :
  forall fuel retries t,
    (retries <= maxRetries)%nat ->
    (S maxRetries - retries < fuel)%nat ->
    calls t = retries ->
    sleeps t = delays retries ->
    exists r t',
      retry_loop fuel api maxRetries retries t = Some (r, t')
      /\ (retries < calls t' <= maxRetries + 1)%nat
      /\ sleeps t' = delays (calls t' - 1)
      /\ (forall k, (retries <= k < calls t' - 1)%nat ->
            is_ok (attempt (api k)) = false)
      /\ match r with
         | Ok text => attempt (api (calls t' - 1)%nat) = Ok text
         | Throw m =>
             calls t' = (maxRetries + 1)%nat
             /\ exists m', attempt (api maxRetries) = Throw m'
                           /\ m = giving_up maxRetries m'
         end.
Proof.
  induction fuel as [|fuel IH]; intros retries t Hle Hfuel Hcalls Hsleeps;
    [lia|].
  cbn [retry_loop]. rewrite (proj2 (Nat.leb_le retries maxRetries) Hle).
  rewrite Hcalls.
  destruct (attempt (api retries)) as [text|message] eqn:Hattempt.
  - exists (Ok text), (called t). cbn [called calls sleeps].
    rewrite Hcalls, Nat.sub_1_r, Nat.pred_succ.
    split; [reflexivity|]. split; [lia|]. split; [exact Hsleeps|].
    split; [intros k Hk; lia|exact Hattempt].
  - destruct (Nat.ltb_spec maxRetries (S retries)) as [Hlast|Hmore].
    + assert (retries = maxRetries) as -> by lia.
      eexists (Throw _), (called t). cbn [called calls sleeps].
      rewrite Hcalls, Nat.sub_1_r, Nat.pred_succ.
      split; [reflexivity|]. split; [lia|]. split; [exact Hsleeps|].
      split; [intros k Hk; lia|]. split; [lia|].
      exists message. split; [exact Hattempt|reflexivity].
    + destruct (IH (S retries)
                  (slept (1500 * 2 ^ (Z.of_nat (S retries) - 1)) (called t)))
        as (r & t' & Hrun & Hbound & Hslept & Hfailed & Hresult);
        [lia|lia|cbn [slept called calls]; lia| |].
      { cbn [slept called sleeps]. rewrite Hsleeps, delays_succ.
        replace (Z.of_nat (S retries) - 1) with (Z.of_nat retries) by lia.
        reflexivity. }
      exists r, t'. split; [exact Hrun|].
      split; [lia|]. split; [exact Hslept|]. split; [|exact Hresult].
      intros k Hk. destruct (decide (k = retries)) as [->|Hne].
      * rewrite Hattempt. reflexivity.
      * apply Hfailed. lia.
Qed.

(** The whole call. *)
Lemma callGeminiWithRetry_spec (api : nat -> api_outcome)
    (maxRetries : nat) :
  exists r t,
    callGeminiWithRetry api maxRetries = Some (r, t)
    /\ (1 <= calls t <= maxRetries + 1)%nat
    /\ sleeps t = delays (calls t - 1)
    /\ (forall k, (k < calls t - 1)%nat -> is_ok (attempt (api k)) = false)
    /\ match r with
       | Ok text => attempt (api (calls t - 1)%nat) = Ok text
       | Throw m =>
           calls t = (maxRetries + 1)%nat
           /\ exists m', attempt (api maxRetries) = Throw m'
                         /\ m = giving_up maxRetries m'
       end.
Proof.
  destruct (retry_loop_spec api maxRetries (maxRetries + 2) 0 no_trace)
    as (r & t & Hrun & Hbound & Hslept & Hfailed & Hresult);
    [lia|lia|reflexivity|reflexivity|].
  exists r, t. split; [exact Hrun|]. split; [lia|]. split; [exact Hslept|].
  split; [intros k Hk; apply Hfailed; lia|exact Hresult].
Qed.

End BackoffFacts.

(** For any [maxRetries], [callGeminiWithRetry] ends after at most
    [maxRetries + 1] calls.  It returns the text of the first call that
    succeeds, having slept 1500 ms, 3000 ms, 6000 ms, ... after the
    failures before it and at no other moment; it throws only when all
    [maxRetries + 1] calls have failed, with the message of the last
    failure, and never with the message of the statement that follows the
    loop. *)
Theorem callGeminiWithRetry_backoff (api : nat -> Retry.api_outcome)
    (maxRetries : nat) :
  exists r t,
    Retry.callGeminiWithRetry api maxRetries = Some (r, t)
    /\ (1 <= Retry.calls t <= maxRetries + 1)%nat
    /\ Retry.sleeps t = Backoff.delays (Retry.calls t - 1)
    /\ (forall k, (k < Retry.calls t - 1)%nat ->
          is_ok (Retry.attempt (api k)) = false)
    /\ match r with
       | Ok text => Retry.attempt (api (Retry.calls t - 1)%nat) = Ok text
       | Throw m =>
           Retry.calls t = (maxRetries + 1)%nat
           /\ (exists m', Retry.attempt (api maxRetries) = Throw m'
                          /\ m = Backoff.giving_up maxRetries m')
           /\ m <> "Gemini analysis failed after all retries."
       end.
Proof.
  destruct (callGeminiWithRetry_spec api maxRetries)
    as (r & t & Hrun & Hbound & Hslept & Hfailed & Hresult).
  exists r, t. split; [exact Hrun|]. split; [exact Hbound|].
  split; [exact Hslept|]. split; [exact Hfailed|].
  destruct r as [text|m]; [exact Hresult|].
  destruct Hresult as (Hcalls & m' & Hlast & ->).
  split; [exact Hcalls|]. split; [eauto|].
  unfold Backoff.giving_up. discriminate.
Qed.

(** Four failures with five retries allowed: five calls, four delays. *)
Lemma callGeminiWithRetry_backoff_witness :
  exists t,
    Retry.callGeminiWithRetry (Backoff.failing_first 4) 5 = Some (Ok "{}", t)
    /\ Retry.calls t = 5%nat
    /\ Retry.sleeps t = [1500; 3000; 6000; 12000].
Proof.
  destruct (callGeminiWithRetry_backoff (Backoff.failing_first 4) 5)
    as (r & t & Hrun & _ & Hslept & _).
  assert (Hsame :
    Retry.callGeminiWithRetry (Backoff.failing_first 4) 5
    = Some (Ok "{}", {| Retry.calls := 5;
                        Retry.sleeps := [1500; 3000; 6000; 12000] |}))
    by (vm_compute; reflexivity).
  assert (Hcalls : Retry.calls t = 5%nat)
    by (rewrite Hsame in Hrun; injection Hrun as _ <-; reflexivity).
  exists t. split; [rewrite Hrun; congruence|].
  split; [exact Hcalls|]. rewrite Hslept, Hcalls. reflexivity.
Defined.

(** ** The two variants of [analyzeWithGemini] *)

Section VariantFacts.
Context `{!Builtins}.
Import Validation.










End VariantFacts.





(** ** The upload handler, by outcome *)

Section UploadFacts.
Import Job Handler Pipeline Upload.

(** [updateAnalysisStatus] never throws and leaves [currentStage] as it
    is. *)
Lemma updateAnalysisStatus_returns (ok : bool) (s : status)
    (reason : option string) (st : state) :
  exists ws,
    updateAnalysisStatus ok s reason st
    = (Ok tt, {| currentStage := currentStage st; writes := ws |}).
Proof.
  unfold updateAnalysisStatus. destruct ok.
  - eexists. reflexivity.
  - exists (writes st). unfold ret. rewrite state_eta. reflexivity.
Qed.

Ltac step_status :=
  match goal with
  | |- context [updateAnalysisStatus ?ok ?s ?r ?st] =>
      let ws := fresh "ws" in
      destruct (updateAnalysisStatus_returns ok s r st) as [ws ->];
      cbn [fst snd currentStage writes]
  end.

(** The answer of the upload handler is fixed by the outcome of its
    [try] block. *)
Lemma upload_handler_response (e : env) (userEmail originalFileName : string)
    (st : state) :
  fst (upload_handler e userEmail originalFileName st)
  = Ok (response_of (outcome_of e)).
Proof.
  unfold upload_handler, outcome_of, try_catch, bind, set_stage, await,
    get_stage, ret, throw.
  cbn [fst snd currentStage writes].
  destruct (db_insert e) as [[]|m]; cbn [is_ok]; [|reflexivity].
  step_status.
  destruct (deck_upload e) as [[]|m]; [|step_status; reflexivity].
  step_status.
  destruct (extraction e) as [extractedTextData|m];
    [|step_status; reflexivity].
  destruct (Validation.slides_of extractedTextData) as [slides|];
    [|step_status; reflexivity].
  cbn [fst snd currentStage writes]. step_status.
  destruct (analysis e) as [analysisResult|m]; [|step_status; reflexivity].
  step_status.
  unfold updateAnalysisResultInDB, write, throw.
  destruct (db_save_ok e); cbn [negb fst snd currentStage writes];
    [|step_status; reflexivity].
  step_status.
  destruct (pdf e) as [reportFilename|m]; [|step_status; reflexivity].
  step_status.
  destruct (pdf_upload e) as [[]|m]; [|step_status; reflexivity].
  unfold updatePdfKeyAndComplete, bind, write, ret, throw.
  destruct (db_finalize_ok e); cbn [negb fst snd currentStage writes];
    [|step_status; reflexivity].
  rewrite sendCompletionEmail_run. reflexivity.
Qed.

End UploadFacts.



(** ** The slide count: reported by the server, judged by the browser *)

(** C3, as the code has it.  The pre-check route reports the number of
    slides that the script counted, whatever it is, in an answer 200 that
    names it.  The upload route does not judge the number either: for a
    deck of one slide or more it inserts the job's row and, when every
    operation succeeds, answers 200 with the report.  The range from 5 to
    35 is that of the browser's form: for a file that passes its type and
    size checks, [handleFile] selects the file exactly when the number
    reported is in the range, and otherwise shows an error that names the
    number ("Slides too low" below 5, "Slides too high" above 35) and
    leaves the selection as it was, so that with no file selected before,
    no request that creates a job is sent: 4 is refused, 5 and 35 are
    accepted, 36 is refused. *)
Theorem slide_count_judged_by_browser (n : Z) :
  SlideCheck.validate_slides
    {| SlideCheck.exit_code := 0;
       SlideCheck.output :=
         Ok {| SlideCheck.error := None; SlideCheck.count := Some n |} |}
  = (200%nat,
     {| SlideCheck.slideCount := Some n;
        SlideCheck.message := "Slide validation complete. File has "
                              +:+ pretty n +:+ " slides." |})
  /\ (forall e userEmail originalFileName st slide slides res reportFilename,
        Pipeline.db_insert e = Ok tt ->
        Pipeline.deck_upload e = Ok tt ->
        Pipeline.extraction e = Ok (Some (JArr (slide :: slides))) ->
        Pipeline.analysis e = Ok res ->
        Pipeline.db_save_ok e = true ->
        Pipeline.pdf e = Ok reportFilename ->
        Pipeline.pdf_upload e = Ok tt ->
        Pipeline.db_finalize_ok e = true ->
        fst (Pipeline.upload_handler e userEmail originalFileName st)
        = Ok (Pipeline.Complete ("reports/" +:+ reportFilename) res))
  /\ (forall ui f,
        SlideCheck.type_ok f = true ->
        SlideCheck.size f <= SlideCheck.maxSize ->
        let ui' := fst (SlideCheck.handleFile (SlideCheck.deck_of n) ui f) in
        snd (SlideCheck.handleFile (SlideCheck.deck_of n) ui f)
        = [SlideCheck.PostValidateSlides f]
        /\ (5 <= n <= 35 ->
            SlideCheck.selectedFile ui' = Some f
            /\ SlideCheck.shown ui' = "")
        /\ (n < 5 ->
            SlideCheck.selectedFile ui' = SlideCheck.selectedFile ui
            /\ SlideCheck.shownType ui' = SlideCheck.error_message
            /\ SlideCheck.shown ui' =
               "Slides too low: Your presentation has " +:+ pretty n
               +:+ " slides. Minimum is 5.")
        /\ (35 < n ->
            SlideCheck.selectedFile ui' = SlideCheck.selectedFile ui
            /\ SlideCheck.shownType ui' = SlideCheck.error_message
            /\ SlideCheck.shown ui' =
               "Slides too high: Your presentation has " +:+ pretty n
               +:+ " slides. Maximum is 35.")
        /\ (n < 5 \/ 35 < n ->
            SlideCheck.selectedFile ui = None ->
            forall token,
              existsb SlideCheck.creates_job
                (snd (SlideCheck.handleFile (SlideCheck.deck_of n) ui f)
                 ++ SlideCheck.handleUpload ui' token) = false))
  /\ SlideCheck.accepted (SlideCheck.deck_of 4) SlideCheck.deck = false
  /\ SlideCheck.accepted (SlideCheck.deck_of 5) SlideCheck.deck = true
  /\ SlideCheck.accepted (SlideCheck.deck_of 35) SlideCheck.deck = true
  /\ SlideCheck.accepted (SlideCheck.deck_of 36) SlideCheck.deck = false.
Proof.
  split; [reflexivity|]. split; [|split].
  - intros e userEmail originalFileName st slide slides res reportFilename
      Hinsert Hdeck Hextraction Hanalysis Hsave Hpdf Hupload Hfinal.
    rewrite upload_handler_response. unfold Upload.outcome_of.
    rewrite Hinsert, Hdeck, Hextraction, Hanalysis, Hsave, Hpdf, Hupload,
      Hfinal.
    reflexivity.
  - intros ui f Htype Hsize. cbv zeta.
    pose proof (handleFile_slide_range ui f n Htype Hsize) as H.
    cbv zeta in H.
    destruct H as (Hsent & Hin & Hlow & Hhigh & Hnone & _).
    split; [exact Hsent|]. split; [exact Hin|]. split; [exact Hlow|].
    split; [exact Hhigh|exact Hnone].
  - assert (Hsize : SlideCheck.size SlideCheck.deck <= SlideCheck.maxSize)
      by (vm_compute; discriminate).
    pose proof (handleFile_slide_range SlideCheck.empty_form SlideCheck.deck
                  4 eq_refl Hsize) as H.
    cbv zeta in H.
    destruct H as (_ & _ & _ & _ & _ & Hrest). exact Hrest.
Qed.

(** A deck of 4 slides in the browser: refused, with the count in the
    message. *)
Lemma slide_count_judged_by_browser_witness :
  SlideCheck.selectedFile
    (fst (SlideCheck.handleFile (SlideCheck.deck_of 4) SlideCheck.empty_form
            SlideCheck.deck)) = None
  /\ SlideCheck.shown
       (fst (SlideCheck.handleFile (SlideCheck.deck_of 4)
               SlideCheck.empty_form SlideCheck.deck))
     = "Slides too low: Your presentation has 4 slides. Minimum is 5.".
Proof.
  assert (Ht : SlideCheck.type_ok SlideCheck.deck = true) by reflexivity.
  assert (Hs : SlideCheck.size SlideCheck.deck <= SlideCheck.maxSize)
    by (vm_compute; discriminate).
  destruct (slide_count_judged_by_browser 4) as (_ & _ & Hform & _).
  destruct (Hform SlideCheck.empty_form SlideCheck.deck Ht Hs)
    as (_ & _ & Hlow & _).
  destruct Hlow as (Hsel & _ & Hmsg); [lia|].
  split; [exact Hsel|exact Hmsg].
Defined.

(** C3, as stated, fails on the server: for a deck of 4 slides the
    pre-check route answers 200, and the upload route, to which the same
    deck is posted, inserts the row of the job and takes it through every
    stage to COMPLETED. *)
Lemma server_accepts_four_slides :
  fst (SlideCheck.validate_slides
         {| SlideCheck.exit_code := 0;
            SlideCheck.output :=
              Ok {| SlideCheck.error := None;
                    SlideCheck.count := Some 4 |} |}) = 200%nat
  /\ Pipeline.extraction Pipeline.four_slides
     = Ok (Some (JArr (replicate 4 Pipeline.slide)))
  /\ fst (Pipeline.upload_handler Pipeline.four_slides
            "founder@example.com" "deck.pptx" Handler.start)
     = Ok (Pipeline.Complete "reports/Investment_Thesis_deck_01012025.pdf"
             Scoring.tie_scores)
  /\ Pipeline.statuses Pipeline.four_slides
     = [ Job.PENDING; Job.UPLOADING_DECK; Job.EXTRACTING_TEXT;
         Job.ANALYZING_AI; Job.SAVING_ANALYSIS; Job.SAVING_ANALYSIS;
         Job.GENERATING_PDF; Job.UPLOADING_PDF; Job.COMPLETED;
         Job.COMPLETED; Job.COMPLETED ].
Proof. repeat split; vm_compute; reflexivity. Qed.

(** ** Assertions on the row *)

Section RowLogic.
Import Job Handler Pipeline Upload.
Context {A B : Type}.

Lemma hoare_bind (P : row -> Prop) (m : M A) (k : A -> M B)
    (R : A -> row -> Prop) (Qok : B -> row -> Prop)
    (Qthrow : string -> row -> Prop) :
  hoare P m R Qthrow ->
  (forall a, hoare (R a) (k a) Qok Qthrow) ->
  hoare P (bind m k) Qok Qthrow.
Proof.
  intros Hm Hk. apply extends_bind.
  apply (extends_weaken m _ _ _ _ Hm).
  - intros a ws1 H1. apply (extends_weaken (k a) _ _ _ _ (Hk a)).
    + intros b ws2 H2 r HP. rewrite after_app. apply H2, H1, HP.
    + intros message ws2 H2 r HP. rewrite after_app. apply H2, H1, HP.
  - intros message ws1 H1. exact H1.
Qed.

Lemma hoare_try_catch (P : row -> Prop) (body : M A)
    (handler : string -> M A) (R : string -> row -> Prop)
    (Qok : A -> row -> Prop) (Qthrow : string -> row -> Prop) :
  hoare P body Qok R ->
  (forall message, hoare (R message) (handler message) Qok Qthrow) ->
  hoare P (try_catch body handler) Qok Qthrow.
Proof.
  intros Hm Hk. apply extends_try_catch.
  apply (extends_weaken body _ _ _ _ Hm).
  - intros a ws1 H1. exact H1.
  - intros message ws1 H1.
    apply (extends_weaken (handler message) _ _ _ _ (Hk message)).
    + intros b ws2 H2 r HP. rewrite after_app. apply H2, H1, HP.
    + intros message' ws2 H2 r HP. rewrite after_app. apply H2, H1, HP.
Qed.

Lemma hoare_ret (P : row -> Prop) (a : A) (Qok : A -> row -> Prop)
    (Qthrow : string -> row -> Prop) :
  (forall r, P r -> Qok a r) -> hoare P (ret a) Qok Qthrow.
Proof. intros H. apply extends_ret. exact H. Qed.

Lemma hoare_throw (P : row -> Prop) (message : string)
    (Qok : A -> row -> Prop) (Qthrow : string -> row -> Prop) :
  (forall r, P r -> Qthrow message r) -> hoare P (throw message) Qok Qthrow.
Proof. intros H. apply extends_throw. exact H. Qed.

Lemma hoare_await (P : row -> Prop) (outcome : result A)
    (Qok : A -> row -> Prop) (Qthrow : string -> row -> Prop) :
  (forall a r, P r -> Qok a r) -> (forall message r, P r -> Qthrow message r) ->
  hoare P (await outcome) Qok Qthrow.
Proof.
  intros Hok Hthrow. apply extends_await.
  - intros a r. apply Hok.
  - intros message r. apply Hthrow.
Qed.

Lemma hoare_weaken (P : row -> Prop) (m : M A)
    (Qok Qok' : A -> row -> Prop) (Qthrow Qthrow' : string -> row -> Prop) :
  hoare P m Qok Qthrow ->
  (forall a r, Qok a r -> Qok' a r) ->
  (forall message r, Qthrow message r -> Qthrow' message r) ->
  hoare P m Qok' Qthrow'.
Proof.
  intros Hm Hok Hthrow. apply (extends_weaken m _ _ _ _ Hm).
  - intros a ws H r HP. apply Hok, H, HP.
  - intros message ws H r HP. apply Hthrow, H, HP.
Qed.

End RowLogic.

Section RowFacts.
Import Job Handler Pipeline Upload.

Lemma progress_in_progress (saved : option json) (r : row) :
  progress saved r -> in_progress r.
Proof. intros [H _]. exact H. Qed.

(** The steps of the [try] block keep the row in progress. *)
Lemma hoare_set_stage (saved : option json) (name : string) :
  hoare (progress saved) (set_stage name) (fun _ => progress saved)
        (fun _ => in_progress).
Proof. apply extends_set_stage. intros r H. exact H. Qed.

Lemma hoare_operation {A} (saved : option json) (outcome : result A) :
  hoare (progress saved) (await outcome) (fun _ => progress saved)
        (fun _ => in_progress).
Proof.
  apply hoare_await; [intros _ r H; exact H|].
  intros _ r H. exact (progress_in_progress saved r H).
Qed.

Lemma hoare_status (saved : option json) (ok : bool) (s : status) :
  terminal s = false ->
  hoare (progress saved) (updateAnalysisStatus ok s None)
        (fun _ => progress saved) (fun _ => in_progress).
Proof.
  intros Hs. unfold updateAnalysisStatus. destruct ok.
  - apply extends_write. intros r ((Ht & Hf & Hk) & Hsaved).
    destruct r. split; [split; [exact Hs|split; [reflexivity|exact Hk]]|].
    exact Hsaved.
  - apply hoare_ret. intros r H. exact H.
Qed.

Lemma hoare_save (saved : option json) (ok : bool) (analysisResult : json) :
  hoare (progress saved) (updateAnalysisResultInDB ok analysisResult)
        (fun _ => progress (Some analysisResult)) (fun _ => in_progress).
Proof.
  unfold updateAnalysisResultInDB. destruct ok.
  - apply extends_write. intros r (Hp & _). destruct r.
    split; [exact Hp|]. split; reflexivity.
  - apply hoare_throw. intros r H. exact (progress_in_progress saved r H).
Qed.

(** Writes to the email columns leave the analysis alone too. *)
Lemma after_email_analysis (ws : list db_write) :
  forallb is_email_write ws = true ->
  forall r,
    analysis_data (Email.after ws r) = analysis_data r
    /\ overall_score (Email.after ws r) = overall_score r.
Proof.
  induction ws as [|w ws IH]; intros Hall r; [auto|].
  simpl in Hall. apply andb_true_iff in Hall. destruct Hall as [Hw Hws].
  destruct w as [| | |s reason|]; try discriminate.
  destruct (IH Hws (apply_write (SetEmailStatus s reason) r)) as (H1 & H2).
  change (Email.after (SetEmailStatus s reason :: ws) r)
    with (Email.after ws (apply_write (SetEmailStatus s reason) r)).
  rewrite H1, H2. auto.
Qed.

(** From the final update to the answer. *)
Lemma hoare_complete (ok : bool) (rowCount : nat) (key : string)
    (e : Email.env) (recipientEmail deckOriginalFilename : option string)
    (analysisResult : json) :
  hoare (progress (Some analysisResult))
    (bind (updatePdfKeyAndComplete ok rowCount key) (fun _ =>
     bind (set_stage "Email Notification") (fun _ =>
     bind (Email.sendCompletionEmail e recipientEmail deckOriginalFilename
             (Some key)) (fun _ =>
     ret (Complete key analysisResult)))))
    (fun resp r =>
       exists key' res,
         resp = Complete key' res /\ completed key' res r)
    (fun _ => in_progress).
Proof.
  intros st. unfold updatePdfKeyAndComplete. destruct ok; unfold bind.
  - cbn [write ret set_stage fst snd writes currentStage].
    rewrite sendCompletionEmail_run.
    exists (SetPdfKeyCompleted key
            :: Email.email_writes e recipientEmail (Some key)).
    cbn [fst snd writes ret]. split; [rewrite <- app_assoc; reflexivity|].
    intros r ((Ht & Hf & Hk) & Hd & Hs).
    exists key, analysisResult. split; [reflexivity|].
    change (Email.after (SetPdfKeyCompleted key :: ?ws) r)
      with (Email.after ws (apply_write (SetPdfKeyCompleted key) r)).
    destruct (after_email_only _
                (email_writes_email_only e recipientEmail (Some key))
                (apply_write (SetPdfKeyCompleted key) r)) as (H1 & H2 & H3).
    destruct (after_email_analysis _
                (email_writes_email_only e recipientEmail (Some key))
                (apply_write (SetPdfKeyCompleted key) r)) as (H4 & H5).
    unfold completed, holds. rewrite H1, H2, H3, H4, H5.
    destruct r. simpl in *. auto.
  - exists []. rewrite app_nil_r. split; [reflexivity|].
    intros r H. exact (progress_in_progress _ r H).
Qed.

(** The [catch] clause. *)
Lemma hoare_catch (created written : bool) (message : string) :
  hoare in_progress
    (bind get_stage (fun currentStage =>
     bind (if created
           then updateAnalysisStatus written FAILED (Some message)
           else ret tt) (fun _ =>
     ret (Failed500 (clientErrorMessage currentStage message) currentStage))))
    (fun resp r =>
       exists stage,
         resp = Failed500 (clientErrorMessage stage message) stage
         /\ closed created written message r)
    (fun _ _ => False).
Proof.
  intros st. unfold bind, get_stage. cbn [fst snd].
  unfold closed, updateAnalysisStatus, stored_reason.
  destruct created; [destruct written|]; cbn [andb status_eqb].
  - eexists [_]. split; [reflexivity|]. intros r (Ht & Hf & Hk).
    exists (currentStage st). split; [reflexivity|].
    destruct r. simpl in *. auto.
  - exists []. unfold ret. cbn [fst snd]. rewrite app_nil_r.
    split; [reflexivity|]. intros r H. eauto.
  - exists []. unfold ret. cbn [fst snd]. rewrite app_nil_r.
    split; [reflexivity|]. intros r H. eauto.
Qed.

Ltac run_row :=
  eapply hoare_bind;
  [ first [ apply hoare_set_stage
          | apply hoare_operation
          | apply hoare_save
          | apply hoare_status; reflexivity ]
  | intros ? ].

(** The upload handler, run on a row in progress. *)
Lemma hoare_upload_handler (e : env) (userEmail originalFileName : string) :
  hoare (progress None) (upload_handler e userEmail originalFileName)
    (fun resp r =>
       match resp with
       | Complete key res => completed key res r
       | Failed500 msg stage =>
           exists message,
             msg = clientErrorMessage stage message
             /\ closed (is_ok (db_insert e)) (db_status_ok e FAILED) message r
       end)
    (fun _ _ => False).
Proof.
  unfold upload_handler.
  apply (hoare_try_catch _ _ _ (fun _ => in_progress)).
  - (* the [try] block *)
    apply (hoare_weaken _ _
             (fun resp r =>
                exists key res, resp = Complete key res /\ completed key res r)
             _ (fun _ => in_progress) _).
    + do 8 run_row.
      match goal with
      | |- context [Validation.slides_of ?x] =>
          destruct (Validation.slides_of x) as [slides|]
      end;
        [|apply hoare_throw; intros r H;
          exact (progress_in_progress None r H)].
      do 13 run_row.
      apply hoare_complete.
    + intros resp r (key & res & -> & Hc). exact Hc.
    + intros message r H. exact H.
  - (* the [catch] clause *)
    intros message.
    apply (hoare_weaken _ _ _ _ _ _
             (hoare_catch (is_ok (db_insert e)) (db_status_ok e FAILED)
                message)).
    + intros resp r (stage & -> & Hc). eauto.
    + intros message' r H. exact H.
Qed.

End RowFacts.

Section InterleavingFacts.
Import Job Handler Pipeline Upload.

(** The handler's answer and the row after its writes, no other request
    having touched the row. *)
Lemma upload_handler_final_row (e : env) (userEmail originalFileName : string) :
  exists resp,
    fst (upload_handler e userEmail originalFileName start) = Ok resp
    /\ match resp with
       | Complete key res =>
           completed key res (final_row e userEmail originalFileName)
       | Failed500 msg stage =>
           exists message,
             msg = clientErrorMessage stage message
             /\ closed (is_ok (db_insert e)) (db_status_ok e FAILED) message
                  (final_row e userEmail originalFileName)
       end.
Proof.
  destruct (hoare_upload_handler e userEmail originalFileName start)
    as (ws & Hws & Hpost).
  unfold final_row, upload_writes. rewrite Hws.
  destruct (fst (upload_handler e userEmail originalFileName start))
    as [resp|message].
  - exists resp. split; [reflexivity|].
    assert (Hstart : progress None inserted_row)
      by (repeat split; reflexivity).
    specialize (Hpost inserted_row Hstart). simpl app. exact Hpost.
  - destruct (Hpost inserted_row). repeat split; reflexivity.
Qed.

(** Marking the report as unavailable and writing the email columns can
    be done in either order. *)
Lemma unavailable_after_email (ws : list db_write) :
  forallb is_email_write ws = true ->
  forall r,
    Email.after ws (apply_write SetFileUnavailable r)
    = apply_write SetFileUnavailable (Email.after ws r).
Proof.
  induction ws as [|w ws IH]; intros Hall r; [reflexivity|].
  simpl in Hall. apply andb_true_iff in Hall as [Hw Hws].
  destruct w as [| | |st reason|]; try discriminate.
  change (Email.after (SetEmailStatus st reason :: ws) ?x)
    with (Email.after ws (apply_write (SetEmailStatus st reason) x)).
  rewrite <- (IH Hws). reflexivity.
Qed.

(** A download request writes nothing, or it marks as unavailable the
    report of a job that has completed, all of whose remaining writes are
    to the email columns. *)
Lemma download_writes (s3 : result string) (db_ok : bool) (s : sys) :
  invariant s = true ->
  snd (download s3 db_ok (job s)) = []
  \/ (snd (download s3 db_ok (job s)) = [SetFileUnavailable]
      /\ forallb is_email_write (pending s) = true
      /\ (processing_status (job s) = COMPLETED
          \/ processing_status (job s) = FILE_UNAVAILABLE)).
Proof.
  unfold invariant, download.
  destruct (job s) as [st fr key es er ad os rc cf].
  cbn [processing_status pdf_s3_key].
  destruct (truthy_str key) eqn:Hkey; [|auto].
  destruct st; cbn [negb status_eqb is_null];
    destruct key as [k|]; try discriminate Hkey;
    cbn [is_null andb]; intros Hinv; try discriminate Hinv; auto;
    destruct s3 as [url|err]; cbn [snd]; auto;
    destruct db_ok; auto; right;
    (split; [reflexivity|]); rewrite Hkey in Hinv; auto.
Qed.

(** Once the handler has made all its writes, the row is the one that
    these writes alone produce, but for the status of a completed job,
    which a download request may have turned into FILE_UNAVAILABLE. *)
Lemma run_to_end (evs : list event) :
  forall s,
    invariant s = true ->
    pending (run evs s) = [] ->
    job (run evs s) = Email.after (pending s) (job s)
    \/ (job (run evs s)
        = apply_write SetFileUnavailable (Email.after (pending s) (job s))
        /\ (processing_status (Email.after (pending s) (job s)) = COMPLETED
            \/ processing_status (Email.after (pending s) (job s))
               = FILE_UNAVAILABLE)).
Proof.
  induction evs as [|ev evs IH]; intros s Hinv Hend.
  - simpl in Hend. rewrite Hend. left. reflexivity.
  - pose proof (proj1 (step_invariant s ev Hinv)) as Hinv'.
    change (run (ev :: evs) s) with (run evs (step s ev)) in *.
    specialize (IH (step s ev) Hinv' Hend).
    destruct ev as [|s3 db_ok].
    + cbn [step] in *. destruct (pending s) as [|w ws] eqn:Hp.
      * rewrite Hp in IH. exact IH.
      * cbn [job pending] in IH. exact IH.
    + cbn [step job pending] in IH |- *.
      destruct (download_writes s3 db_ok s Hinv)
        as [Hnone|(Hone & Hemail & Hdone)].
      * rewrite Hnone in IH |- *. exact IH.
      * rewrite Hone in IH |- *.
        change (Email.after [SetFileUnavailable] (job s))
          with (apply_write SetFileUnavailable (job s)) in IH |- *.
        rewrite (unavailable_after_email _ Hemail) in IH.
        assert (Hstatus :
          processing_status (Email.after (pending s) (job s))
          = processing_status (job s))
          by apply (after_email_only _ Hemail).
        right. rewrite Hstatus. split; [|exact Hdone].
        destruct IH as [IH|[IH _]]; rewrite IH; reflexivity.
Qed.

End InterleavingFacts.

(** The answer tells what is in the row once the handler has made all
    its writes, whatever download requests have come in between.  When
    the handler answers 200 with a report key and an analysis, and the
    final update reports that it matched the row, the row holds that key,
    that analysis and its recomputed score, and no failure reason; its
    status is COMPLETED, or FILE_UNAVAILABLE if a download request has
    found the report missing since.  When the handler answers 500, the
    message quotes an error; then, if the row had been inserted and the
    database carries out the update, the row is FAILED with no report key
    and with the first 500 characters of that error as its reason (no
    reason when the error has no message); otherwise the row is left
    without a terminal status. *)
Theorem upload_response_matches_row (e : Pipeline.env)
    (userEmail originalFileName : string) :
  exists resp,
    fst (Pipeline.upload_handler e userEmail originalFileName Handler.start)
    = Ok resp
    /\ forall evs,
         let s :=
           Pipeline.run evs
             (Pipeline.submitted e userEmail originalFileName) in
         Pipeline.pending s = [] ->
         match resp with
         | Pipeline.Complete key res =>
             (0 < Pipeline.finalize_rowCount e)%nat ->
             Upload.delivered key res (Pipeline.job s)
         | Pipeline.Failed500 msg stage =>
             exists message,
               msg = Upload.clientErrorMessage stage message
               /\ Upload.closed (is_ok (Pipeline.db_insert e))
                    (Pipeline.db_status_ok e Job.FAILED) message
                    (Pipeline.job s)
         end.
Proof.
  destruct (upload_handler_final_row e userEmail originalFileName)
    as (resp & Hresp & Hrow).
  exists resp. split; [exact Hresp|]. intros evs s Hend. subst s.
  destruct (run_to_end evs _
              (submitted_invariant e userEmail originalFileName) Hend)
    as [Hjob|[Hjob Hdone]]; rewrite Hjob; clear Hjob;
    change (Email.after
              (Pipeline.pending
                 (Pipeline.submitted e userEmail originalFileName))
              (Pipeline.job
                 (Pipeline.submitted e userEmail originalFileName)))
      with (Upload.final_row e userEmail originalFileName) in *.
  - destruct resp as [key res|msg stage]; [|exact Hrow].
    intros _. destruct Hrow as (Hs & Hk & Hf & Hd & Ho).
    split; [left; exact Hs|]. repeat split; assumption.
  - destruct resp as [key res|msg stage].
    + intros _. destruct Hrow as (Hs & Hk & Hf & Hd & Ho).
      split; [right; reflexivity|]. repeat split; assumption.
    + exfalso. destruct Hrow as (message & _ & Hclosed).
      unfold Upload.closed in Hclosed.
      destruct (is_ok (Pipeline.db_insert e)
                && Pipeline.db_status_ok e Job.FAILED).
      * destruct Hclosed as (Hfailed & _).
        destruct Hdone as [H|H]; congruence.
      * destruct Hclosed as (Hterm & _).
        destruct Hdone as [H|H]; rewrite H in Hterm; discriminate Hterm.
Qed.

(** A run in which every step succeeds, with a download request that
    finds the report missing before the email columns are written: the
    answer is 200 and the row ends FILE_UNAVAILABLE with the key. *)
Lemma upload_response_matches_row_witness :
  Upload.delivered "reports/Investment_Thesis_deck_01012025.pdf"
    Scoring.tie_scores
    (Pipeline.job
       (Pipeline.run
          (replicate 8 Pipeline.HandlerWrite
           ++ [Pipeline.DownloadRequest (Throw "NotFound") true]
           ++ replicate 2 Pipeline.HandlerWrite)
          (Pipeline.submitted Pipeline.all_well "founder@example.com"
             "deck.pptx")))
  /\ Job.processing_status
       (Pipeline.job
          (Pipeline.run
             (replicate 8 Pipeline.HandlerWrite
              ++ [Pipeline.DownloadRequest (Throw "NotFound") true]
              ++ replicate 2 Pipeline.HandlerWrite)
             (Pipeline.submitted Pipeline.all_well "founder@example.com"
                "deck.pptx")))
     = Job.FILE_UNAVAILABLE.
Proof.
  split; [|reflexivity].
  destruct (upload_response_matches_row Pipeline.all_well
              "founder@example.com" "deck.pptx") as (resp & Hresp & Hrow).
  vm_compute in Hresp. injection Hresp as <-.
  apply (Hrow (replicate 8 Pipeline.HandlerWrite
               ++ [Pipeline.DownloadRequest (Throw "NotFound") true]
               ++ replicate 2 Pipeline.HandlerWrite)).
  - reflexivity.
  - cbn. lia.
Defined.

(** ** The reason columns *)

Section ReasonFacts.
Import Job Handler Pipeline Upload.

Lemma substring0_length (n : nat) :
  forall s, String.length (substring0 n s) = Nat.min n (String.length s).
Proof.
  unfold substring0. induction n as [|n IH]; intros [|c s]; simpl;
    try reflexivity.
  rewrite IH. reflexivity.
Qed.

(** A reason cut to [limit] characters is fit to be stored with a status
    FAILED. *)
Lemma reason_ok_cut (limit : nat) (reason : string) :
  (0 < limit)%nat -> truthy_str (Some reason) = true ->
  reason_ok limit true (Some (substring0 limit reason)) = true.
Proof.
  intros Hl Hr. unfold reason_ok. rewrite substring0_length.
  destruct reason as [|c reason]; [discriminate|]. simpl String.length.
  apply andb_true_iff. split.
  - apply Nat.ltb_lt. lia.
  - apply Nat.leb_le. lia.
Qed.

Lemma updateAnalysisStatus_write_ok (ok : bool) (s : status)
    (failureReason : option string) :
  writes_only write_ok (updateAnalysisStatus ok s failureReason).
Proof.
  unfold updateAnalysisStatus. destruct ok; [|apply extends_ret; reflexivity].
  apply extends_write. cbn [forallb write_ok]. rewrite andb_true_r.
  destruct failureReason as [reason|]; [|reflexivity].
  destruct (status_eqb s FAILED) eqn:Hs; [|reflexivity].
  destruct (truthy_str (Some reason)) eqn:Hr; [|reflexivity].
  cbn [andb]. apply reason_ok_cut; [lia|exact Hr].
Qed.

Lemma recorded_write_ok (e : Email.env) (s : EmailStatus.t)
    (failureReason : option string) :
  forallb write_ok (Email.recorded e s failureReason) = true.
Proof.
  unfold Email.recorded. destruct (Email.db_email_ok e s); [|reflexivity].
  cbn [forallb write_ok]. rewrite andb_true_r. unfold Email.reasonToStore.
  destruct failureReason as [reason|]; [|reflexivity].
  destruct (Email.is_failed s) eqn:Hs; [|reflexivity].
  destruct (truthy_str (Some reason)) eqn:Hr; [|reflexivity].
  cbn [andb]. apply reason_ok_cut; [lia|exact Hr].
Qed.

Lemma sendCompletionEmail_write_ok (e : Email.env)
    (recipientEmail deckOriginalFilename pdfS3Key : option string) :
  writes_only write_ok
    (Email.sendCompletionEmail e recipientEmail deckOriginalFilename
       pdfS3Key).
Proof.
  intros st. rewrite sendCompletionEmail_run. cbn [fst snd writes].
  exists (Email.email_writes e recipientEmail pdfS3Key).
  split; [reflexivity|]. unfold Email.email_writes.
  destruct (Email.outcome e recipientEmail pdfS3Key) as [[| | |m|m]|];
    rewrite ?forallb_app, !recorded_write_ok; reflexivity.
Qed.

Lemma writes_only_bind {A B} (p : db_write -> bool) (m : M A)
    (k : A -> M B) :
  writes_only p m -> (forall a, writes_only p (k a)) ->
  writes_only p (bind m k).
Proof.
  intros Hm Hk. apply extends_bind. apply (extends_weaken m _ _ _ _ Hm).
  - intros a ws1 H1. apply (extends_weaken (k a) _ _ _ _ (Hk a));
      intros x ws2 H2; rewrite forallb_app, H1, H2; reflexivity.
  - intros message ws1 H1. exact H1.
Qed.

Lemma writes_only_try_catch {A} (p : db_write -> bool) (body : M A)
    (handler : string -> M A) :
  writes_only p body -> (forall message, writes_only p (handler message)) ->
  writes_only p (try_catch body handler).
Proof.
  intros Hm Hk. apply extends_try_catch.
  apply (extends_weaken body _ _ _ _ Hm).
  - intros a ws1 H1. exact H1.
  - intros message ws1 H1.
    apply (extends_weaken (handler message) _ _ _ _ (Hk message));
      intros x ws2 H2; rewrite forallb_app, H1, H2; reflexivity.
Qed.

Lemma writes_only_silent {A} (p : db_write -> bool) (m : M A) :
  (forall st, writes (snd (m st)) = writes st) -> writes_only p m.
Proof.
  intros Hm st. exists []. rewrite app_nil_r. split; [apply Hm|].
  destruct (fst (m st)); reflexivity.
Qed.

Ltac writes_ok :=
  repeat first
    [ apply writes_only_bind; [|intros ?]
    | apply updateAnalysisStatus_write_ok
    | apply sendCompletionEmail_write_ok
    | apply writes_only_silent; intros ?; reflexivity ].

(** Every write of the upload handler is fit to be stored. *)
Lemma upload_writes_write_ok (e : env) (userEmail originalFileName : string) :
  forallb write_ok (upload_writes e userEmail originalFileName) = true.
Proof.
  assert (Hspec :
    writes_only write_ok (upload_handler e userEmail originalFileName)).
  { unfold upload_handler. apply writes_only_try_catch.
    - writes_ok.
      match goal with
      | |- context [Validation.slides_of ?x] =>
          destruct (Validation.slides_of x) as [slides|]
      end; writes_ok.
      + unfold updateAnalysisResultInDB. destruct (db_save_ok e).
        * apply extends_write. reflexivity.
        * apply extends_throw. reflexivity.
      + unfold updatePdfKeyAndComplete. destruct (db_finalize_ok e).
        * writes_ok. apply extends_write. reflexivity.
        * apply extends_throw. reflexivity.
    - intros message. writes_ok.
      destruct (is_ok (db_insert e)); writes_ok. }
  unfold upload_writes. destruct (Hspec start) as (ws & -> & Hws).
  simpl. destruct (fst _); exact Hws.
Qed.

End ReasonFacts.

Section ColumnFacts.
Import Job Handler Pipeline Upload.

(** While the job is in progress, the reason columns and the email
    status are empty. *)
Lemma columns_in_progress (r : row) :
  columns_ok r = true -> terminal (processing_status r) = false ->
  failure_reason r = None /\ email_status r = None
  /\ email_failure_reason r = None.
Proof.
  unfold columns_ok. destruct r as [st fr key es er ad os rc cf].
  cbn [processing_status failure_reason email_status email_failure_reason].
  intros Hcols Hst.
  assert (Hes : es = None).
  { destruct es as [x|]; [|reflexivity].
    destruct st; try discriminate Hst;
      cbn [is_null status_eqb orb] in Hcols;
      rewrite andb_false_r in Hcols; discriminate Hcols. }
  subst es. cbn [email_failed is_null orb] in Hcols.
  rewrite andb_true_r in Hcols.
  apply andb_true_iff in Hcols. destruct Hcols as [Hfr Her].
  assert (Hfailed : status_eqb st FAILED = false)
    by (destruct st; try reflexivity; discriminate Hst).
  rewrite Hfailed in Hfr.
  destruct fr as [t|]; [discriminate Hfr|].
  destruct er as [t|]; [discriminate Her|]. auto.
Qed.

Lemma email_failed_is_failed (s : EmailStatus.t) :
  email_failed (Some s) = Email.is_failed s.
Proof. destruct s; reflexivity. Qed.

(** One step of a job keeps the reason columns in order. *)
Lemma step_columns (s : sys) (ev : event) :
  invariant s = true ->
  columns_ok (job s) = true ->
  forallb write_ok (pending s) = true ->
  columns_ok (job (step s ev)) = true
  /\ forallb write_ok (pending (step s ev)) = true.
Proof.
  destruct s as [r ws]. destruct ev as [|s3 db_ok].
  - (* the handler's next write *)
    destruct ws as [|w ws]; simpl step; [auto|].
    cbn [job pending forallb]. intros Hinv Hcols Hws.
    apply andb_true_iff in Hws. destruct Hws as [Hw Hws].
    split; [|exact Hws]. clear Hws.
    destruct (terminal (processing_status r)) eqn:Hst.
    + (* a terminal status: only email writes remain *)
      destruct r as [st fr key es er ad os rc cf].
      unfold invariant in Hinv.
      cbn [job pending processing_status pdf_s3_key] in *.
      destruct st; try discriminate Hst;
        cbn [forallb] in Hinv;
        try (rewrite andb_false_r in Hinv; discriminate Hinv);
        (destruct w as [s reason|d sc rec conf|k|s reason|];
         cbn [is_email_write andb] in Hinv;
         try (rewrite andb_false_r in Hinv; discriminate Hinv);
         unfold columns_ok in *;
         cbn [apply_write processing_status failure_reason email_status
              email_failure_reason write_ok is_null status_eqb orb] in *;
         rewrite ?orb_true_r, ?andb_true_r in *;
         apply andb_true_iff in Hcols; destruct Hcols as [Hfr _];
         rewrite Hfr, email_failed_is_failed; exact Hw).
    + (* in progress *)
      destruct (columns_in_progress r Hcols Hst) as (Hfr & Hes & Her).
      destruct r as [st fr key es er ad os rc cf].
      cbn [processing_status failure_reason email_status
           email_failure_reason] in *.
      subst fr es er.
      destruct w as [s reason|d sc rec conf|k|s reason|];
        unfold columns_ok;
        cbn [apply_write processing_status failure_reason email_status
             email_failure_reason write_ok is_null reason_ok email_failed
             andb orb] in *;
        rewrite ?andb_true_r; try reflexivity.
      * exact Hw.
      * unfold invariant in Hinv. cbn [job pending processing_status] in Hinv.
        destruct st; try discriminate Hst;
          cbn [stage_index remaining_ok] in Hinv;
          rewrite !andb_false_r in Hinv; discriminate Hinv.
  - (* a download request *)
    unfold step, download. cbn [job pending].
    intros Hinv Hcols Hws. split; [|exact Hws].
    destruct (truthy_str (pdf_s3_key r)); cbn [negb snd Email.after fold_left];
      [|exact Hcols].
    destruct (status_eqb (processing_status r) FAILED) eqn:Hf;
      cbn [snd Email.after fold_left]; [exact Hcols|].
    destruct s3 as [url|err]; cbn [snd Email.after fold_left];
      [exact Hcols|].
    destruct db_ok; cbn [snd Email.after fold_left]; [|exact Hcols].
    destruct r as [st fr key es er ad os rc cf].
    unfold columns_ok in *.
    cbn [apply_write processing_status failure_reason email_status
         email_failure_reason] in *.
    rewrite Hf in Hcols. cbn [status_eqb]. rewrite orb_true_r, andb_true_r.
    apply andb_true_iff in Hcols. destruct Hcols as [Hcols _].
    exact Hcols.
Qed.

Lemma run_columns (evs : list event) :
  forall s,
    invariant s = true -> columns_ok (job s) = true ->
    forallb write_ok (pending s) = true ->
    columns_ok (job (run evs s)) = true.
Proof.
  induction evs as [|ev evs IH]; intros s Hinv Hcols Hws; [exact Hcols|].
  simpl. destruct (step_columns s ev Hinv Hcols Hws) as [Hcols' Hws'].
  apply IH; [apply (step_invariant s ev Hinv)|exact Hcols'|exact Hws'].
Qed.

(** What [columns_ok] says of the row. *)
Lemma columns_ok_spelled (r : row) :
  columns_ok r = true ->
  (forall t, failure_reason r = Some t ->
     processing_status r = FAILED
     /\ (0 < String.length t <= 500)%nat)
  /\ (forall t, email_failure_reason r = Some t ->
        email_status r = Some EmailStatus.FAILED
        /\ (0 < String.length t <= 255)%nat)
  /\ (email_status r <> None ->
      processing_status r = COMPLETED
      \/ processing_status r = FILE_UNAVAILABLE).
Proof.
  unfold columns_ok, reason_ok. destruct r as [st fr key es er ad os rc cf].
  cbn [processing_status failure_reason email_status email_failure_reason].
  intros H. apply andb_true_iff in H. destruct H as [H H3].
  apply andb_true_iff in H. destruct H as [H1 H2].
  split; [|split].
  - intros t ->. apply andb_true_iff in H1. destruct H1 as [H1 Hle].
    apply andb_true_iff in H1. destruct H1 as [Hs Hlt].
    apply Nat.ltb_lt in Hlt. apply Nat.leb_le in Hle.
    destruct st; try discriminate Hs. split; [reflexivity|lia].
  - intros t ->. apply andb_true_iff in H2. destruct H2 as [H2 Hle].
    apply andb_true_iff in H2. destruct H2 as [Hs Hlt].
    apply Nat.ltb_lt in Hlt. apply Nat.leb_le in Hle.
    destruct es as [[]|]; try discriminate Hs. split; [reflexivity|lia].
  - intros Hes. destruct es as [e'|]; [|congruence].
    destruct st; try discriminate H3; auto.
Qed.

End ColumnFacts.

(** In every row that a job can reach (the handler's writes interleaved
    with download requests in any order): a failure reason is stored only
    with the status FAILED, and it is between 1 and 500 characters long;
    an email failure reason is stored only with the email status FAILED,
    and it is between 1 and 255 characters long; and the email status is
    set only once the job has completed. *)
Theorem reason_columns_in_order (r : Job.row) :
  Pipeline.reachable r ->
  (forall t, Job.failure_reason r = Some t ->
     Job.processing_status r = Job.FAILED
     /\ (0 < String.length t <= 500)%nat)
  /\ (forall t, Job.email_failure_reason r = Some t ->
        Job.email_status r = Some EmailStatus.FAILED
        /\ (0 < String.length t <= 255)%nat)
  /\ (Job.email_status r <> None ->
      Job.processing_status r = Job.COMPLETED
      \/ Job.processing_status r = Job.FILE_UNAVAILABLE).
Proof.
  intros (e & userEmail & originalFileName & evs & <-).
  apply columns_ok_spelled, run_columns.
  - apply submitted_invariant.
  - reflexivity.
  - apply upload_writes_write_ok.
Qed.

(** The row of a job whose report could not be rendered. *)
Lemma reason_columns_in_order_witness :
  Job.failure_reason
    (Upload.final_row Upload.pdf_fails "founder@example.com" "deck.pptx")
  = Some "Invalid time value"
  /\ Job.processing_status
       (Upload.final_row Upload.pdf_fails "founder@example.com" "deck.pptx")
     = Job.FAILED.
Proof.
  assert (Hreach :
    Pipeline.reachable
      (Upload.final_row Upload.pdf_fails "founder@example.com" "deck.pptx")).
  { exists Upload.pdf_fails, "founder@example.com", "deck.pptx",
           (replicate 7 Pipeline.HandlerWrite).
    vm_compute. reflexivity. }
  destruct (reason_columns_in_order _ Hreach) as (Hreason & _ & _).
  assert (Hstored :
    Job.failure_reason
      (Upload.final_row Upload.pdf_fails "founder@example.com" "deck.pptx")
    = Some "Invalid time value") by (vm_compute; reflexivity).
  split; [exact Hstored|]. exact (proj1 (Hreason _ Hstored)).
Defined.

(** ** Text extraction *)

Section TextExtractionFacts.
Context `{!Builtins}.
Import TextExtraction.

(** The promise resolves only for a script that exited with code 0 and
    printed a JSON value without a truthy [error]; it then resolves with
    that value's [data]. *)
Lemma runTextExtraction_resolves (p : process_end) (data : option json) :
  runTextExtraction p = Ok data ->
  exists out err result,
    p = Closed (Some 0) out err
    /\ JSON_parse out = Ok result
    /\ truthy (get result "error") = false
    /\ data = get result "data".
Proof.
  destruct p as [message|code out err]; [discriminate|].
  unfold runTextExtraction. case_bool_decide as Hcode.
  - subst code. intros Hrun. exists out, err.
    destruct (JSON_parse out) as [result|e]; [|discriminate].
    exists result.
    destruct result; try discriminate;
      (destruct (truthy (get _ "error")) eqn:Herr; [discriminate|];
       injection Hrun as <-; auto).
  - destruct (JSON_parse err) as [errJson|e]; [|discriminate].
    destruct (truthy (get errJson "error")); discriminate.
Qed.

End TextExtractionFacts.

(** [runTextExtraction] resolves only when the script exited with code 0
    and printed a JSON value without a truthy [error] field, and then with
    that value's [data]; it rejects in every other case.  Fed into the
    upload handler, the request can only succeed when that [data] is a
    non-empty array: the handler refuses anything else at the stage
    "Text Extraction". *)
Theorem runTextExtraction_gate `{!Builtins} (p : TextExtraction.process_end) :
  (forall data,
      TextExtraction.runTextExtraction p = Ok data ->
      exists out err result,
        p = TextExtraction.Closed (Some 0) out err
        /\ JSON_parse out = Ok result
        /\ truthy (get result "error") = false
        /\ data = get result "data")
  /\ (forall e userEmail originalFileName st key res,
        Pipeline.extraction e = TextExtraction.runTextExtraction p ->
        fst (Pipeline.upload_handler e userEmail originalFileName st)
        = Ok (Pipeline.Complete key res) ->
        exists out err result slide slides,
          p = TextExtraction.Closed (Some 0) out err
          /\ JSON_parse out = Ok result
          /\ truthy (get result "error") = false
          /\ get result "data" = Some (JArr (slide :: slides)))
  /\ (forall e userEmail originalFileName st data,
        Pipeline.db_insert e = Ok tt ->
        Pipeline.deck_upload e = Ok tt ->
        Pipeline.extraction e = Ok data ->
        Validation.slides_of data = None ->
        fst (Pipeline.upload_handler e userEmail originalFileName st)
        = Ok (Pipeline.Failed500
                (Upload.clientErrorMessage "Text Extraction"
                   "Text extraction yielded no slides or invalid data.")
                "Text Extraction")).
Proof.
  split; [intros data; apply runTextExtraction_resolves|]. split.
  - intros e userEmail originalFileName st key res He.
    rewrite upload_handler_response. intros [= Hresp].
    assert (Hslides :
      exists data slide slides,
        Pipeline.extraction e = Ok data
        /\ data = Some (JArr (slide :: slides))).
    { revert Hresp. unfold Upload.outcome_of.
      destruct (Pipeline.db_insert e) as [[]|m]; [|discriminate].
      destruct (Pipeline.deck_upload e) as [[]|m]; [|discriminate].
      destruct (Pipeline.extraction e) as [[[| | | |[|slide slides]|]|]|m];
        try discriminate.
      eauto. }
    destruct Hslides as (data & slide & slides & Hdata & ->).
    rewrite He in Hdata.
    destruct (runTextExtraction_resolves p _ Hdata)
      as (out & err & result & -> & Hparse & Herr & Hd).
    exists out, err, result, slide, slides. auto.
  - intros e userEmail originalFileName st data Hi Hu He Hs.
    rewrite upload_handler_response. unfold Upload.outcome_of.
    rewrite Hi, Hu, He, Hs. reflexivity.
Qed.

(** The script printed ten slides, and the script printed none. *)
Lemma runTextExtraction_gate_witness :
  (exists out err result,
      TextExtraction.Closed (Some 0) "<ten slides>" ""
      = TextExtraction.Closed (Some 0) out err
      /\ @JSON_parse TextExtraction.reading_ten_slides out = Ok result
      /\ truthy (get result "error") = false
      /\ Some (JArr (replicate 10 Pipeline.slide)) = get result "data")
  /\ fst (Pipeline.upload_handler TextExtraction.no_slides
            "founder@example.com" "deck.pptx" Handler.start)
     = Ok (Pipeline.Failed500
             "Processing failed during 'Text Extraction'. Please check server logs for details. Error: Text extraction yielded no slides or invalid data."
             "Text Extraction").
Proof.
  split.
  - apply (proj1 (@runTextExtraction_gate TextExtraction.reading_ten_slides
                    (TextExtraction.Closed (Some 0) "<ten slides>" ""))).
    vm_compute. reflexivity.
  - apply (proj2 (proj2 (@runTextExtraction_gate Sample.runtime
                           (TextExtraction.Closed (Some 0) "[]" "")))
             TextExtraction.no_slides "founder@example.com" "deck.pptx"
             Handler.start (Some (JArr [])));
      reflexivity.
Defined.

(** ** File names *)

Section StringFacts.
Import Report Names.

Lemma chars_app (a b : string) : chars (a +:+ b) = chars a ++ chars b.
Proof.
  unfold chars. induction a as [|c a IH]; [reflexivity|].
  simpl. rewrite IH. reflexivity.
Qed.

Lemma chars_text (l : list ascii) : chars (text l) = l.
Proof. apply list_ascii_of_string_of_list_ascii. Qed.

Lemma text_chars (s : string) : text (chars s) = s.
Proof. apply string_of_list_ascii_of_string. Qed.

Lemma chars_length (s : string) : length (chars s) = String.length s.
Proof.
  unfold chars. induction s as [|c s IH]; [reflexivity|].
  simpl. rewrite IH. reflexivity.
Qed.

Lemma chars_substring0 (n : nat) :
  forall s, chars (substring0 n s) = take n (chars s).
Proof.
  unfold substring0, chars. induction n as [|n IH]; intros [|c s]; simpl;
    try reflexivity.
  rewrite IH. reflexivity.
Qed.

Lemma all_chars_app (p : ascii -> bool) (a b : string) :
  all_chars p (a +:+ b) = all_chars p a && all_chars p b.
Proof. unfold all_chars. rewrite chars_app. apply forallb_app. Qed.

Lemma all_chars_weaken (p q : ascii -> bool) (s : string) :
  (forall c, p c = true -> q c = true) ->
  all_chars p s = true -> all_chars q s = true.
Proof.
  unfold all_chars. intros Hpq Hs.
  apply forallb_forall. intros c Hc.
  apply Hpq. exact (proj1 (forallb_forall p (chars s)) Hs c Hc).
Qed.

(** The decimal digits of a number. *)
Lemma pretty_N_char_digit (d : N) : is_digit (pretty_N_char d) = true.
Proof.
  unfold pretty_N_char. repeat case_match; reflexivity.
Qed.

Lemma pretty_N_go_digits (x : N) :
  forall s, all_chars is_digit s = true ->
            all_chars is_digit (pretty_N_go x s) = true.
Proof.
  induction (N.lt_wf_0 x) as [x _ IH]. intros s Hs.
  destruct (N.eq_dec x 0%N) as [->|Hx]; [rewrite pretty_N_go_0; exact Hs|].
  rewrite pretty_N_go_step by lia.
  apply IH; [apply N.div_lt; lia|].
  unfold all_chars. simpl. rewrite pretty_N_char_digit. exact Hs.
Qed.

Lemma pretty_N_digits (x : N) : all_chars is_digit (pretty x) = true.
Proof.
  unfold pretty, pretty_N. destruct (decide (x = 0%N)); [reflexivity|].
  apply pretty_N_go_digits. reflexivity.
Qed.

Lemma pretty_nat_digits (n : nat) : all_chars is_digit (pretty n) = true.
Proof. apply pretty_N_digits. Qed.

(** A number is printed with digits and, when negative, a minus sign. *)
Lemma pretty_Z_chars (z : Z) :
  all_chars (fun c => is_digit c || Ascii.eqb c "-") (pretty z) = true.
Proof.
  assert (Hd : forall x : N,
            all_chars (fun c => is_digit c || Ascii.eqb c "-") (pretty x)
            = true).
  { intros x. apply (all_chars_weaken is_digit); [|apply pretty_N_digits].
    intros c ->. reflexivity. }
  destruct z as [|p|p].
  - reflexivity.
  - apply (Hd (N.pos p)).
  - change (pretty (Z.neg p)) with ("-" +:+ pretty (N.pos p)).
    rewrite all_chars_app, Hd. reflexivity.
Qed.

Lemma digit_is_alnum (c : ascii) : is_digit c = true -> is_alnum c = true.
Proof. unfold is_digit, is_alnum. intros ->. apply orb_true_r. Qed.

(** Replacing the characters outside a class. *)
Lemma replace_outside_chars (keep q : ascii -> bool) (s : string) :
  (forall c, keep c = true -> q c = true) -> q "_"%char = true ->
  all_chars q (replace_outside keep s) = true.
Proof.
  intros Hkeep Hunder. unfold all_chars, replace_outside.
  rewrite chars_text. apply forallb_forall. intros c Hc.
  apply in_map_iff in Hc. destruct Hc as (c' & <- & _).
  destruct (keep c') eqn:Hk; [apply Hkeep; exact Hk|exact Hunder].
Qed.

Lemma replace_outside_length (keep : ascii -> bool) (s : string) :
  String.length (replace_outside keep s) = String.length s.
Proof.
  unfold replace_outside.
  rewrite <- !chars_length, chars_text, length_map. reflexivity.
Qed.

Lemma replace_outside_idempotent (keep : ascii -> bool) (s : string) :
  replace_outside keep (replace_outside keep s) = replace_outside keep s.
Proof.
  unfold replace_outside. rewrite chars_text, map_map. f_equal.
  apply map_ext. intros c. destruct (keep c) eqn:Hk; [rewrite Hk|];
    [reflexivity|].
  destruct (keep "_"%char); reflexivity.
Qed.

End StringFacts.

Section ReportNameFacts.
Import Report Names.

Lemma key_char_is_file_char (c : ascii) :
  is_key_char c = true -> is_file_char c = true.
Proof. unfold is_file_char. intros ->. reflexivity. Qed.

Lemma digit_is_key_char (c : ascii) :
  is_digit c || Ascii.eqb c "-" = true -> is_key_char c = true.
Proof.
  unfold is_key_char. intros H. apply orb_true_iff in H.
  destruct H as [H| ->]; [rewrite (digit_is_alnum c H); reflexivity|].
  rewrite orb_true_r. reflexivity.
Qed.

(** What the two replacements leave of a character of the class
    [[a-zA-Z0-9\-_ ]]. *)
Lemma space_to_underscore_key (c : ascii) :
  is_name_char c = true -> is_key_char (space_to_underscore c) = true.
Proof.
  unfold is_name_char, is_key_char, is_alnum, space_to_underscore.
  destruct (Ascii.eqb c " ") eqn:Hsp; [reflexivity|].
  rewrite orb_false_r. intros H. exact H.
Qed.

Lemma fallback_name_chars (analysisId : Z) :
  all_chars is_key_char ("Analysis_" +:+ pretty analysisId) = true.
Proof.
  rewrite all_chars_app. apply andb_true_iff. split; [reflexivity|].
  apply (all_chars_weaken _ _ _ digit_is_key_char), pretty_Z_chars.
Qed.

(** The name derived from the file's name, before the test that it is
    not empty. *)
Lemma derived_name_chars (name : string) :
  all_chars is_key_char
    (substring0 50
       (text (map space_to_underscore
                (keep is_name_char (chars (basename_without_ext name))))))
  = true.
Proof.
  unfold all_chars. rewrite chars_substring0, chars_text.
  apply forallb_forall. intros c Hc.
  apply list_elem_of_In, elem_of_take in Hc. destruct Hc as (i & Hc & _).
  apply list_elem_of_lookup_2, list_elem_of_In, in_map_iff in Hc.
  destruct Hc as (c' & <- & Hc').
  apply space_to_underscore_key.
  unfold keep in Hc'. apply filter_In in Hc'. exact (proj2 Hc').
Qed.

Lemma startupName_of_chars (originalFileName : option string)
    (analysisId : Z) :
  all_chars is_key_char (startupName_of originalFileName analysisId) = true.
Proof.
  unfold startupName_of.
  destruct (truthy_str originalFileName); [|apply fallback_name_chars].
  destruct originalFileName as [name|]; [|apply fallback_name_chars].
  destruct (truthy_str (Some (substring0 50 _)));
    [apply derived_name_chars|apply fallback_name_chars].
Qed.

Lemma two_digits_chars (n : nat) : all_chars is_digit (two_digits n) = true.
Proof.
  unfold two_digits. destruct (n <? 10)%nat; [rewrite all_chars_app|];
    rewrite pretty_nat_digits; reflexivity.
Qed.

Lemma four_digits_chars (n : nat) : all_chars is_digit (four_digits n) = true.
Proof.
  unfold four_digits.
  repeat (match goal with
          | |- context [if ?b then _ else _] => destruct b
          end);
    rewrite ?all_chars_app, pretty_nat_digits; reflexivity.
Qed.

End ReportNameFacts.

(** Whatever the name of the uploaded file, the startup name that
    [prepareReportData] derives is not empty and only holds letters,
    digits, hyphens and underscores; it is the fallback built from the
    analysis id or has at most 50 characters; and the file name of the
    report, hence its key [reports/<file name>] in the bucket, only holds
    these characters and dots. *)
Theorem report_filename_safe (today : instant) (analysisResult : json)
    (originalFileName : option string) (analysisId : Z) :
  let startupName := Report.startupName_of originalFileName analysisId in
  startupName <> ""
  /\ Names.all_chars Names.is_key_char startupName = true
  /\ (startupName = "Analysis_" +:+ pretty analysisId
      \/ (String.length startupName <= 50)%nat)
  /\ Names.all_chars Names.is_file_char
       (Report.filename
          (Report.prepareReportData today analysisResult originalFileName
             analysisId)) = true.
Proof.
  intros startupName. subst startupName.
  split; [|split; [apply startupName_of_chars|split]].
  - unfold Report.startupName_of.
    destruct (truthy_str originalFileName); [|discriminate].
    destruct originalFileName as [name|]; [|discriminate].
    destruct (truthy_str (Some (substring0 50 _))) eqn:Hn; [|discriminate].
    intros Hempty. rewrite Hempty in Hn. discriminate Hn.
  - unfold Report.startupName_of.
    destruct (truthy_str originalFileName); [|auto].
    destruct originalFileName as [name|]; [|auto].
    destruct (truthy_str (Some (substring0 50 _))); [|auto].
    right. rewrite substring0_length. lia.
  - unfold Report.prepareReportData, Report.filename,
      Report.format_ddMMyyyy.
    rewrite !all_chars_app.
    rewrite (all_chars_weaken _ _ _ key_char_is_file_char
               (startupName_of_chars originalFileName analysisId)).
    assert (Hdigit : forall c, Names.is_digit c = true ->
                               Names.is_file_char c = true).
    { intros c Hc. apply key_char_is_file_char, digit_is_key_char.
      rewrite Hc. reflexivity. }
    rewrite (all_chars_weaken _ _ _ Hdigit (two_digits_chars (day today))),
      (all_chars_weaken _ _ _ Hdigit (two_digits_chars (month today))),
      (all_chars_weaken _ _ _ Hdigit (four_digits_chars (year today))).
    reflexivity.
Qed.

Section ReportShapeFacts.
Context `{!Builtins}.
Import Report Names.

(** The first piece of a text that is followed by an underscore. *)
Lemma split_underscore_first (l rest current : list ascii) :
  hd "" (split_underscore (l ++ "_"%char :: rest) current)
  = text (rev current
          ++ take_while (fun c => negb (Ascii.eqb c "_")) l).
Proof.
  revert current. induction l as [|c l IH]; intros current; simpl.
  - rewrite app_nil_r. reflexivity.
  - destruct (Ascii.eqb c "_"); simpl.
    + rewrite app_nil_r. reflexivity.
    + rewrite IH. simpl. rewrite <- app_assoc. reflexivity.
Qed.

(** The third piece of the report's file name is the first piece of the
    startup name. *)
Lemma filename_third_piece (startupName rest : string) :
  nth 2 (split_underscore
           (chars ("Investment_Thesis_" +:+ startupName +:+ "_" +:+ rest))
           []) ""
  = first_piece startupName.
Proof.
  assert (Hskip : forall tail,
    nth 2 (split_underscore (chars ("Investment_Thesis_" +:+ tail)) []) ""
    = hd "" (split_underscore (chars tail) [])).
  { intros tail. simpl. destruct (split_underscore _ []); reflexivity. }
  change ("Investment_Thesis_" +:+ startupName +:+ "_" +:+ rest)
    with ("Investment_Thesis_" +:+ (startupName +:+ "_" +:+ rest)).
  rewrite Hskip, !chars_app. change (chars "_") with ["_"%char].
  simpl app. rewrite split_underscore_first. reflexivity.
Qed.

Lemma is_heading_addP (txt : string) (indent : nat) (oblique : bool) :
  is_heading (addP txt indent oblique) = false.
Proof. reflexivity. Qed.

Lemma headings_of_bullets (v : option json) :
  List.filter is_heading (bullets v) = [].
Proof.
  unfold bullets.
  destruct v as [[| | | |[|x l]|]|]; try reflexivity.
  induction (x :: l) as [|y l' IH]; [reflexivity|]. simpl. exact IH.
Qed.

Lemma headings_of_category (analysisData : json) (category : string) :
  List.filter is_heading (category_section analysisData category)
  = [H2 (category +:+ " (" +:+ percent (weight_of category) +:+ "%)")].
Proof.
  unfold category_section.
  destruct (truthy (get analysisData category)); reflexivity.
Qed.

End ReportShapeFacts.

Section ReportOpsFacts.
Context `{!Builtins}.
Import Report Names.

Lemma filter_flat_map {X Y : Type} (p : Y -> bool) (f : X -> list Y)
    (l : list X) :
  List.filter p (flat_map f l) = flat_map (fun x => List.filter p (f x)) l.
Proof.
  induction l as [|x l IH]; [reflexivity|].
  simpl. rewrite List.filter_app, IH. reflexivity.
Qed.

Lemma headings_of_categories (analysisData : json) :
  List.filter is_heading
    (flat_map (category_section analysisData) categoryOrder)
  = [ H2 "Problem Statement (10%)";
      H2 "Solution/Product (15%)";
      H2 "Market Opportunity (20%)";
      H2 "Business Model (15%)";
      H2 "Competitive Landscape (10%)";
      H2 "Team (10%)";
      H2 "Traction/Milestones (10%)";
      H2 "Financial Projections (5%)";
      H2 "Clarity and Presentation (5%)" ].
Proof.
  rewrite filter_flat_map.
  rewrite (flat_map_ext _
             (fun c => [H2 (c +:+ " (" +:+ percent (weight_of c) +:+ "%)")]))
    by (intros c; apply headings_of_category).
  vm_compute. reflexivity.
Qed.



(** The calls made on the document, when the date line can be
    printed. *)
Lemma generateInvestmentThesisPDF_ops (today now : instant)
    (analysisData : json) (analysisId : Z) (originalFileName : option string)
    (pdfFilename : string) (ops : list op) :
  generateInvestmentThesisPDF today now analysisData analysisId
    originalFileName = Ok (pdfFilename, ops) ->
  pdfFilename
  = filename (prepareReportData today analysisData originalFileName
                analysisId)
  /\ nth_error ops 1
     = Some (P ("Startup Reference: "
                +:+ startup_reference
                      (startupName_of originalFileName analysisId)) 0 false)
  /\ List.filter is_heading ops = headings.
Proof.
  assert (Hname :
    filename (prepareReportData today analysisData originalFileName
                analysisId)
    = "Investment_Thesis_" +:+ startupName_of originalFileName analysisId
      +:+ "_" +:+ format_ddMMyyyy today +:+ ".pdf") by reflexivity.
  unfold generateInvestmentThesisPDF. cbv zeta.
  destruct (analysisDateStr now analysisData) as [dateStr|e];
    [|discriminate].
  unfold Js.bind. rewrite Hname, filename_third_piece.
  match goal with
  | |- Ok (_, ?l) = _ -> _ => remember l as calls eqn:Hcalls
  end.
  intros [= <- <-]. split; [reflexivity|]. subst calls. split.
  - reflexivity.
  - rewrite !List.filter_app, headings_of_categories, !headings_of_bullets.
    reflexivity.
Qed.

End ReportOpsFacts.

(** The line "Startup Reference" of the report does not show the
    startup name that the file name carries, but its part before the
    first underscore, and "Startup" when that part is empty: the file
    name is split at every underscore and the startup name has
    underscores where the name of the deck has spaces. *)
Theorem startup_reference_is_first_piece `{!Builtins} (today now : instant)
    (analysisData : json) (analysisId : Z) (originalFileName : option string)
    (pdfFilename : string) (ops : list Report.op) :
  Report.generateInvestmentThesisPDF today now analysisData analysisId
    originalFileName = Ok (pdfFilename, ops) ->
  pdfFilename
  = "Investment_Thesis_"
    +:+ Report.startupName_of originalFileName analysisId +:+ "_"
    +:+ Report.format_ddMMyyyy today +:+ ".pdf"
  /\ nth_error ops 1
     = Some (Report.P
               ("Startup Reference: "
                +:+ Names.startup_reference
                      (Report.startupName_of originalFileName analysisId))
               0 false)
  /\ Names.startup_reference
       (Report.startupName_of originalFileName analysisId)
     = (let piece :=
          Report.text
            (Report.take_while (fun c => negb (Ascii.eqb c "_"))
               (Report.chars
                  (Report.startupName_of originalFileName analysisId))) in
        if String.eqb piece "" then "Startup" else piece).
Proof.
  intros Hgen.
  destruct (generateInvestmentThesisPDF_ops today now analysisData analysisId
              originalFileName pdfFilename ops Hgen) as (Hname & Hline & _).
  split; [exact Hname|]. split; [exact Hline|].
  unfold Names.startup_reference, Names.first_piece, truthy_str.
  destruct (String.eqb _ ""); reflexivity.
Qed.

(** A deck called "My Startup.pptx": the file name carries
    [My_Startup], the report shows "My". *)
Lemma startup_reference_is_first_piece_witness :
  exists ops,
    @Report.generateInvestmentThesisPDF Sample.runtime Report.new_year
      Report.new_year Sample.full_response 17 (Some "My Startup.pptx")
    = Ok ("Investment_Thesis_My_Startup_01012025.pdf", ops)
    /\ nth_error ops 1 = Some (Report.P "Startup Reference: My" 0 false).
Proof.
  destruct (@Report.generateInvestmentThesisPDF Sample.runtime
              Report.new_year Report.new_year Sample.full_response 17
              (Some "My Startup.pptx")) as [[pdfFilename ops]|e] eqn:Hgen;
    [|vm_compute in Hgen; discriminate Hgen].
  destruct (@startup_reference_is_first_piece Sample.runtime _ _ _ _ _ _ _
              Hgen) as (Hname & Hline & _).
  exists ops. split; [|exact Hline].
  rewrite Hname. reflexivity.
Defined.



(** ** The renderer, the analysis and the clock *)

Section HeapFacts.
Context `{!Builtins}.
Import Report Heap.








End HeapFacts.

Section RenderingFacts.
Context `{!Builtins}.
Import Report Heap.





End RenderingFacts.

Section ClockFacts.
Context `{!Builtins}.
Import Report Names.




End ClockFacts.




(** ** The stored deck *)

Section StoredNameFacts.
Import Report Names.

Lemma upload_char_safe (c : ascii) : is_upload_char (upload_char c) = true.
Proof.
  unfold upload_char. destruct (is_upload_char c) eqn:Hc; [exact Hc|].
  reflexivity.
Qed.

Lemma upload_char_dot (c : ascii) : is_dot (upload_char c) = is_dot c.
Proof.
  unfold upload_char. destruct (is_upload_char c) eqn:Hc; [reflexivity|].
  unfold is_upload_char in Hc. destruct (is_dot c); [|reflexivity].
  rewrite orb_true_r in Hc. discriminate Hc.
Qed.

Lemma upload_char_not_slash (c : ascii) :
  is_upload_char c = true -> is_slash c = false.
Proof.
  destruct c as [[] [] [] [] [] [] [] []]; try reflexivity; discriminate.
Qed.

Lemma upload_char_not_dot_digit (c : ascii) :
  is_digit c || Ascii.eqb c "-" = true ->
  is_upload_char c = true /\ is_dot c = false.
Proof.
  destruct c as [[] [] [] [] [] [] [] []]; try discriminate;
    intros _; split; reflexivity.
Qed.

(** The test of the extension reads a replaced character as it reads the
    character itself. *)
Lemma lower_upload_char (a c : ascii) :
  In a ["."; "p"; "t"; "x"]%char ->
  Ascii.eqb a (lower (upload_char c)) = Ascii.eqb a (lower c).
Proof.
  intros Ha. simpl in Ha.
  destruct Ha as [<-|[<-|[<-|[<-|[]]]]];
    destruct c as [[] [] [] [] [] [] [] []]; reflexivity.
Qed.

Lemma starts_with_upload_char (p l : list ascii) :
  (forall a, In a p -> In a ["."; "p"; "t"; "x"]%char) ->
  starts_with p (map upload_char l) = starts_with p l.
Proof.
  revert l. induction p as [|a p IH]; intros l Hp; [reflexivity|].
  destruct l as [|c l]; [reflexivity|]. simpl.
  rewrite lower_upload_char by (apply Hp; left; reflexivity).
  rewrite IH by (intros a' Ha'; apply Hp; right; exact Ha').
  reflexivity.
Qed.

Lemma allowedExtensions_upload_char (l : list ascii) :
  allowedExtensions (text (map upload_char l)) = allowedExtensions (text l).
Proof.
  unfold allowedExtensions. rewrite !chars_text, <- map_rev.
  rewrite !starts_with_upload_char; [reflexivity| |];
    intros a Ha; simpl in *; tauto.
Qed.

(** A path without a slash is its own last segment. *)
Lemma drop_while_head (p : ascii -> bool) (l : list ascii) :
  forallb (fun c => negb (p c)) l = true -> drop_while p l = l.
Proof.
  destruct l as [|c l]; [reflexivity|]. simpl.
  destruct (p c); [discriminate|reflexivity].
Qed.

Lemma take_while_all (p : ascii -> bool) (l : list ascii) :
  forallb p l = true -> take_while p l = l.
Proof.
  induction l as [|c l IH]; [reflexivity|]. simpl.
  destruct (p c); [|discriminate]. intros Hl. rewrite IH by exact Hl.
  reflexivity.
Qed.

Lemma forallb_rev {X : Type} (p : X -> bool) (l : list X) :
  forallb p (rev l) = forallb p l.
Proof.
  induction l as [|x l IH]; [reflexivity|].
  simpl. rewrite forallb_app, IH. simpl. rewrite andb_true_r.
  apply andb_comm.
Qed.

Lemma last_segment_whole (l : list ascii) :
  forallb (fun c => negb (is_slash c)) l = true -> last_segment l = l.
Proof.
  intros Hl. unfold last_segment.
  rewrite drop_while_head by (rewrite forallb_rev; exact Hl).
  rewrite take_while_all by (rewrite forallb_rev; exact Hl).
  apply rev_involutive.
Qed.

(** Cutting at the last dot. *)
Lemma cut_none (l ext : list ascii) :
  forallb (fun c => negb (is_dot c)) l = true ->
  cut_at_last_dot l ext = None.
Proof.
  revert ext. induction l as [|c l IH]; intros ext; [reflexivity|].
  simpl. destruct (is_dot c); [discriminate|]. intros Hl. apply IH, Hl.
Qed.

Lemma cut_app (l tail ext : list ascii) :
  forallb (fun c => negb (is_dot c)) tail = true ->
  cut_at_last_dot (l ++ tail) ext
  = match cut_at_last_dot l ext with
    | Some (before, e) => Some (rev tail ++ before, e)
    | None => None
    end.
Proof.
  intros Htail. revert ext. induction l as [|c l IH]; intros ext.
  - simpl. apply cut_none, Htail.
  - simpl. destruct (is_dot c); [|apply IH].
    rewrite rev_app_distr. reflexivity.
Qed.

Lemma cut_map (l ext : list ascii) :
  cut_at_last_dot (map upload_char l) (map upload_char ext)
  = match cut_at_last_dot l ext with
    | Some (before, e) => Some (map upload_char before, map upload_char e)
    | None => None
    end.
Proof.
  revert ext. induction l as [|c l IH]; intros ext; [reflexivity|].
  simpl. rewrite upload_char_dot. destruct (is_dot c).
  - rewrite map_rev. reflexivity.
  - apply (IH (c :: ext)).
Qed.

Lemma cut_map_start (l : list ascii) :
  cut_at_last_dot (map upload_char l) []
  = match cut_at_last_dot l [] with
    | Some (before, e) => Some (map upload_char before, map upload_char e)
    | None => None
    end.
Proof. exact (cut_map l []). Qed.

Lemma stored_filename_chars (now : N) (originalname : string) :
  chars (stored_filename now originalname)
  = (chars (pretty now) ++ ["-"%char])
    ++ map upload_char (chars originalname).
Proof.
  unfold stored_filename, safeOriginalName, replace_outside.
  rewrite !chars_app, chars_text, <- app_assoc. reflexivity.
Qed.

(** The stamp and the hyphen: digits and a hyphen, among them no dot. *)
Lemma stamp_chars (now : N) :
  forallb is_upload_char (chars (pretty now) ++ ["-"%char]) = true
  /\ forallb (fun c => negb (is_dot c)) (chars (pretty now) ++ ["-"%char])
     = true.
Proof.
  assert (Hd : forallb (fun c => is_digit c || Ascii.eqb c "-")
                 (chars (pretty now) ++ ["-"%char]) = true).
  { rewrite forallb_app. apply andb_true_iff. split; [|reflexivity].
    apply (all_chars_weaken is_digit); [|apply pretty_N_digits].
    intros c ->. reflexivity. }
  split; apply forallb_forall; intros c Hc;
    destruct (upload_char_not_dot_digit c
                (proj1 (forallb_forall _ _) Hd c Hc)) as [Hu Hn].
  - exact Hu.
  - rewrite Hn. reflexivity.
Qed.

Lemma stored_filename_upload_chars (now : N) (originalname : string) :
  all_chars is_upload_char (stored_filename now originalname) = true.
Proof.
  unfold all_chars. rewrite stored_filename_chars, forallb_app.
  rewrite (proj1 (stamp_chars now)). simpl.
  apply forallb_forall. intros c Hc. apply in_map_iff in Hc.
  destruct Hc as (c' & <- & _). apply upload_char_safe.
Qed.

(** The extension of the stored name, for an original name that has an
    extension and no slash. *)
Lemma stored_filename_extname (now : N) (originalname : string) :
  no_slash originalname = true ->
  extname originalname <> "" ->
  extname (stored_filename now originalname)
  = text (map upload_char (chars (extname originalname))).
Proof.
  intros Hslash Hext. unfold extname in *.
  rewrite (last_segment_whole (chars originalname)) in * by exact Hslash.
  rewrite last_segment_whole.
  2:{ apply forallb_forall. intros c Hc.
      rewrite (upload_char_not_slash c); [reflexivity|].
      exact (proj1 (forallb_forall _ _)
               (stored_filename_upload_chars now originalname) c Hc). }
  rewrite stored_filename_chars, rev_app_distr, <- map_rev.
  rewrite cut_app by (rewrite forallb_rev; apply (stamp_chars now)).
  rewrite cut_map_start.
  destruct (cut_at_last_dot (rev (chars originalname)) [])
    as [[before ext]|]; [|congruence].
  destruct before as [|b before]; [congruence|].
  destruct (String.eqb (text (chars originalname)) "..");
    [congruence|].
  rewrite rev_involutive, chars_text.
  destruct (chars (pretty now) ++ ["-"%char]) as [|d stamp] eqn:Hstamp;
    [destruct (chars (pretty now)); discriminate Hstamp|].
  assert (Hd : is_dot d = false).
  { pose proof (proj2 (stamp_chars now)) as Hnd. rewrite Hstamp in Hnd.
    simpl in Hnd. destruct (is_dot d); [discriminate Hnd|reflexivity]. }
  simpl app.
  destruct (String.eqb (text (d :: _)) "..") eqn:Hdots; [|reflexivity].
  apply String.eqb_eq in Hdots.
  apply (f_equal chars) in Hdots. rewrite chars_text in Hdots.
  injection Hdots as -> _. discriminate Hd.
Qed.

End StoredNameFacts.

(** The name under which multer stores the deck, which is also the key
    of the deck in the bucket, only holds letters, digits, dots, hyphens
    and underscores, whatever the name of the uploaded file; the
    replacement keeps the length of the name and changes nothing when it
    is applied again; and when the original name has no slash and passes
    the filter on the extension, so does the stored name, which ends with
    the same extension. *)
Theorem stored_filename_safe (now : N) (originalname : string) :
  Names.all_chars Names.is_upload_char
    (Names.stored_filename now originalname) = true
  /\ String.length (Names.safeOriginalName originalname)
     = String.length originalname
  /\ Names.safeOriginalName (Names.safeOriginalName originalname)
     = Names.safeOriginalName originalname
  /\ (Names.no_slash originalname = true ->
      Names.fileFilter originalname = true ->
      Names.fileFilter (Names.stored_filename now originalname) = true).
Proof.
  split; [apply stored_filename_upload_chars|].
  split; [apply replace_outside_length|].
  split; [apply replace_outside_idempotent|].
  intros Hslash Hfilter. unfold Names.fileFilter in *.
  rewrite stored_filename_extname; [|exact Hslash|].
  - rewrite allowedExtensions_upload_char, text_chars. exact Hfilter.
  - intros Hempty. rewrite Hempty in Hfilter. discriminate Hfilter.
Qed.

(** A deck whose name has spaces, brackets and an extension in upper
    case. *)
Lemma stored_filename_safe_witness :
  Names.stored_filename 1700000000000 "Pitch Deck (final).PPTX"
  = "1700000000000-Pitch_Deck__final_.PPTX"
  /\ Names.fileFilter
       (Names.stored_filename 1700000000000 "Pitch Deck (final).PPTX")
     = true.
Proof.
  split; [vm_compute; reflexivity|].
  apply (proj2 (proj2 (proj2 (stored_filename_safe 1700000000000
                                "Pitch Deck (final).PPTX"))));
    vm_compute; reflexivity.
Defined.

(** ** The name offered for the download *)

Section DownloadNameFacts.
Import Report Names.

Lemma alnum_is_file_char (c : ascii) :
  is_alnum c = true -> is_file_char c = true.
Proof. unfold is_file_char, is_key_char. intros ->. reflexivity. Qed.

Lemma cleanName_chars (originalFilename : option string) (analysisId : Z) :
  all_chars is_file_char (cleanName originalFilename analysisId) = true.
Proof.
  assert (Hfallback :
    all_chars is_file_char ("Analysis_" +:+ pretty analysisId) = true).
  { apply (all_chars_weaken _ _ _ key_char_is_file_char),
      fallback_name_chars. }
  unfold cleanName. destruct originalFilename as [name|]; [|exact Hfallback].
  destruct (truthy_str (Some name)); [|exact Hfallback].
  apply replace_outside_chars; [exact alnum_is_file_char|reflexivity].
Qed.

(** A name that was read from the file's name only has letters, digits
    and underscores, and is as long as the name without its
    extension. *)
Lemma cleanName_of_name (name : string) (analysisId : Z) :
  name <> "" ->
  all_chars (fun c => is_alnum c || Ascii.eqb c "_")
    (cleanName (Some name) analysisId) = true
  /\ String.length (cleanName (Some name) analysisId)
     = String.length (strip_extension name).
Proof.
  intros Hname. unfold cleanName.
  assert (Ht : truthy_str (Some name) = true)
    by (destruct name; [congruence|reflexivity]).
  rewrite Ht. split.
  - apply replace_outside_chars; [intros c ->; reflexivity|reflexivity].
  - apply replace_outside_length.
Qed.

End DownloadNameFacts.

(** The file name that the download route puts between double quotes in
    the [Content-Disposition] of the signed URL only holds letters,
    digits, underscores, hyphens and dots, whatever the name of the
    uploaded file: no double quote, no slash, no line break.  When the
    row has a file name, the part derived from it only holds letters,
    digits and underscores and is as long as the name without its
    extension. *)
Theorem downloadFilename_safe (originalFilename : option string)
    (analysisId : Z) :
  Names.all_chars Names.is_file_char
    (Names.downloadFilename originalFilename analysisId) = true
  /\ (forall c,
        In c (Report.chars
                (Names.downloadFilename originalFilename analysisId)) ->
        c <> ascii_of_nat 34 /\ c <> "/"%char /\ c <> ascii_of_nat 10
        /\ c <> ascii_of_nat 13)
  /\ (forall name,
        originalFilename = Some name -> name <> "" ->
        Names.all_chars (fun c => Names.is_alnum c || Ascii.eqb c "_")
          (Names.cleanName originalFilename analysisId) = true
        /\ String.length (Names.cleanName originalFilename analysisId)
           = String.length (Names.strip_extension name)).
Proof.
  assert (Hall :
    Names.all_chars Names.is_file_char
      (Names.downloadFilename originalFilename analysisId) = true).
  { unfold Names.downloadFilename. rewrite !all_chars_app.
    rewrite cleanName_chars.
    rewrite (all_chars_weaken _ Names.is_file_char _
               (fun c Hc => key_char_is_file_char c (digit_is_key_char c Hc))
               (pretty_Z_chars analysisId)).
    reflexivity. }
  split; [exact Hall|]. split.
  - intros c Hc.
    pose proof (proj1 (forallb_forall _ _) Hall c Hc) as Hfile.
    repeat split; intros ->; discriminate Hfile.
  - intros name -> Hname. apply cleanName_of_name, Hname.
Qed.

(** A name with a quote and a path in it. *)
Lemma downloadFilename_safe_witness :
  Names.downloadFilename (Some "q3/pitch deck.v2.pptx") 42
  = "InvestAnalyzer_Thesis_q3_pitch_deck_v2_42.pdf"
  /\ String.length (Names.cleanName (Some "q3/pitch deck.v2.pptx") 42)
     = String.length (Names.strip_extension "q3/pitch deck.v2.pptx").
Proof.
  split; [vm_compute; reflexivity|].
  apply (proj2 (proj2 (downloadFilename_safe (Some "q3/pitch deck.v2.pptx")
                         42)) "q3/pitch deck.v2.pptx");
    [reflexivity|discriminate].
Defined.

(** ** The check of the extension, in the browser and on the server *)

Section ExtensionFacts.
Import Report Names.

Lemma chars_substring (a : nat) :
  forall b s, chars (String.substring a b s) = take b (drop a (chars s)).
Proof.
  unfold chars. induction a as [|a IHa].
  - induction b as [|b IHb]; intros [|c s]; simpl; try reflexivity.
    rewrite IHb. reflexivity.
  - intros b [|c s]; simpl.
    + destruct b; reflexivity.
    + apply IHa.
Qed.

(** [s.endsWith(suffix)], on the characters. *)
Lemma ends_with_chars (suffix s : string) :
  SlideCheck.ends_with suffix s = true ->
  exists l, chars s = l ++ chars suffix.
Proof.
  unfold SlideCheck.ends_with. intros H.
  apply andb_true_iff in H. destruct H as [Hle Heq].
  apply Nat.leb_le in Hle. apply String.eqb_eq in Heq.
  apply (f_equal chars) in Heq. rewrite chars_substring in Heq.
  rewrite take_ge in Heq by (rewrite length_drop, chars_length; lia).
  exists (take (String.length s - String.length suffix) (chars s)).
  rewrite <- Heq. symmetry. apply take_drop.
Qed.

(** The extension of a name without a slash that ends with a dot and
    letters, and has something before the dot. *)
Lemma extname_of_suffix (l letters : list ascii) :
  forallb (fun c => negb (is_slash c)) (l ++ "."%char :: letters) = true ->
  forallb (fun c => negb (is_dot c)) letters = true ->
  l <> [] -> letters <> [] ->
  extname (text (l ++ "."%char :: letters)) = text ("."%char :: letters).
Proof.
  intros Hslash Hletters Hl Hne. unfold extname.
  rewrite chars_text, (last_segment_whole _ Hslash).
  rewrite rev_app_distr. simpl rev. rewrite <- app_assoc. simpl app.
  assert (Hcut : forall ext,
    forallb (fun c => negb (is_dot c)) ext = true ->
    cut_at_last_dot (rev letters ++ "."%char :: rev l) ext
    = Some (l, "."%char :: letters ++ ext)).
  { clear Hslash Hne. induction letters as [|c letters IH] using rev_ind;
      intros ext Hext.
    - simpl. rewrite rev_involutive. reflexivity.
    - rewrite rev_app_distr. simpl.
      rewrite forallb_app in Hletters. simpl in Hletters.
      apply andb_true_iff in Hletters. destruct Hletters as [Hl' Hc].
      rewrite andb_true_r in Hc.
      destruct (is_dot c) eqn:Hd; [discriminate Hc|].
      rewrite (IH Hl' (c :: ext)) by (simpl; rewrite Hd; exact Hext).
      rewrite <- app_assoc. reflexivity. }
  rewrite (Hcut [] eq_refl), app_nil_r.
  destruct l as [|c l]; [congruence|].
  destruct (String.eqb (text ((c :: l) ++ "."%char :: letters)) "..")
    eqn:Hdots; [|reflexivity].
  apply String.eqb_eq in Hdots. apply (f_equal chars) in Hdots.
  rewrite chars_text in Hdots. apply (f_equal (@length ascii)) in Hdots.
  rewrite length_app in Hdots. simpl in Hdots.
  destruct letters; [congruence|simpl in Hdots; lia].
Qed.

Lemma name_ends_with_extension (name : string) (letters : list ascii) :
  no_slash name = true ->
  forallb (fun c => negb (is_dot c)) letters = true ->
  letters <> [] ->
  SlideCheck.ends_with (text ("."%char :: letters)) name = true ->
  name <> text ("."%char :: letters) ->
  extname name = text ("."%char :: letters).
Proof.
  intros Hslash Hletters Hne Hends Hname.
  destruct (ends_with_chars _ _ Hends) as [l Hl].
  rewrite chars_text in Hl.
  rewrite <- (text_chars name), Hl.
  apply extname_of_suffix; [|exact Hletters| |exact Hne].
  - rewrite <- Hl. exact Hslash.
  - intros ->. apply Hname. rewrite <- (text_chars name), Hl. reflexivity.
Qed.

End ExtensionFacts.

(** A file that the browser accepts for the ending of its name is
    accepted by the filter of the server, provided the name has no slash
    and is not the bare extension [.ppt] or [.pptx], for which
    [path.extname] returns the empty string.  The two checks differ
    elsewhere: the server accepts an extension in upper case, which the
    browser only accepts for its MIME type; and the browser accepts any
    name for a file whose MIME type is that of a presentation, which the
    server then refuses. *)
Theorem name_check_implies_fileFilter (name : string) :
  (Names.no_slash name = true ->
   SlideCheck.ends_with ".ppt" name = true
   \/ SlideCheck.ends_with ".pptx" name = true ->
   name <> ".ppt" -> name <> ".pptx" ->
   Names.fileFilter name = true)
  /\ Names.fileFilter ".pptx" = false
  /\ (Names.fileFilter "DECK.PPTX" = true
      /\ SlideCheck.ends_with ".pptx" "DECK.PPTX" = false)
  /\ (SlideCheck.type_ok
        {| SlideCheck.name := "deck.key";
           SlideCheck.type := "application/vnd.ms-powerpoint";
           SlideCheck.size := 1 |} = true
      /\ Names.fileFilter "deck.key" = false).
Proof.
  split; [|repeat split; vm_compute; reflexivity].
  intros Hslash [Hends|Hends] Hppt Hpptx; unfold Names.fileFilter.
  - rewrite (name_ends_with_extension name ["p"; "p"; "t"]%char);
      [reflexivity|exact Hslash|reflexivity|discriminate|exact Hends
      |exact Hppt].
  - rewrite (name_ends_with_extension name ["p"; "p"; "t"; "x"]%char);
      [reflexivity|exact Hslash|reflexivity|discriminate|exact Hends
      |exact Hpptx].
Qed.

Lemma name_check_implies_fileFilter_witness :
  Names.fileFilter "deck.v2.pptx" = true.
Proof.
  apply (proj1 (name_check_implies_fileFilter "deck.v2.pptx"));
    [reflexivity|right; reflexivity|discriminate|discriminate].
Defined.

(** ** Authentication *)

Section AuthFacts.
Import Report Auth.

Lemma split_on_whole (sep : ascii) (l current : list ascii) :
  forallb (fun c => negb (Ascii.eqb c sep)) l = true ->
  split_on sep l current = [text (rev current ++ l)].
Proof.
  revert current. induction l as [|c l IH]; intros current Hl; simpl.
  - rewrite app_nil_r. reflexivity.
  - simpl in Hl. destruct (Ascii.eqb c sep); [discriminate Hl|].
    rewrite IH by exact Hl. simpl. rewrite <- app_assoc. reflexivity.
Qed.

Lemma split_on_nonempty (sep : ascii) (l current : list ascii) :
  split_on sep l current <> [].
Proof.
  revert current. induction l as [|c l IH]; intros current; simpl;
    [discriminate|].
  destruct (Ascii.eqb c sep); [discriminate|apply IH].
Qed.

Lemma split_on_one (sep : ascii) (l current : list ascii) (b : string) :
  split_on sep l current = [b] ->
  forallb (fun c => negb (Ascii.eqb c sep)) l = true.
Proof.
  revert current. induction l as [|c l IH]; intros current; simpl;
    [reflexivity|].
  destruct (Ascii.eqb c sep).
  - intros [= _ Hrest]. destruct (split_on_nonempty sep l [] Hrest).
  - apply IH.
Qed.

(** The text splits in two pieces exactly when it holds the separator
    once. *)
Lemma split_on_two (sep : ascii) (l current : list ascii) (a b : string) :
  split_on sep l current = [a; b] <->
  exists l1 l2,
    l = l1 ++ sep :: l2
    /\ forallb (fun c => negb (Ascii.eqb c sep)) l1 = true
    /\ forallb (fun c => negb (Ascii.eqb c sep)) l2 = true
    /\ a = text (rev current ++ l1) /\ b = text l2.
Proof.
  revert current. induction l as [|c l IH]; intros current; simpl.
  - split; [discriminate|]. intros (l1 & l2 & Hl & _).
    destruct l1; discriminate Hl.
  - destruct (Ascii.eqb c sep) eqn:Hc.
    + apply Ascii.eqb_eq in Hc. subst c. split.
      * intros [= <- Hrest]. exists [], l.
        assert (Hl : forallb (fun c => negb (Ascii.eqb c sep)) l = true)
          by exact (split_on_one sep l [] b Hrest).
        rewrite (split_on_whole sep l [] Hl) in Hrest.
        injection Hrest as <-. rewrite app_nil_r. auto.
      * intros (l1 & l2 & Hl & H1 & H2 & -> & ->).
        destruct l1 as [|c1 l1].
        -- simpl in Hl. injection Hl as ->.
           rewrite (split_on_whole sep l2 [] H2), app_nil_r. reflexivity.
        -- simpl in Hl. injection Hl as <- _. simpl in H1.
           rewrite Ascii.eqb_refl in H1. discriminate H1.
    + rewrite (IH (c :: current)). split.
      * intros (l1 & l2 & -> & H1 & H2 & -> & ->).
        exists (c :: l1), l2. simpl. rewrite Hc, <- app_assoc. auto.
      * intros (l1 & l2 & Hl & H1 & H2 & -> & ->).
        destruct l1 as [|c1 l1]; simpl in Hl.
        -- injection Hl as -> _. rewrite Ascii.eqb_refl in Hc. discriminate.
        -- injection Hl as <- ->. simpl in H1. rewrite Hc in H1.
           exists l1, l2. simpl. rewrite <- app_assoc. auto.
Qed.

End AuthFacts.

Section AuthHeaderFacts.
Import Report Auth.

Lemma text_app (a b : list ascii) : text (a ++ b) = text a +:+ text b.
Proof.
  rewrite <- (chars_text a), <- (chars_text b) at 1.
  rewrite <- chars_app. apply text_chars.
Qed.

(** The header splits into the scheme [Bearer] and a token exactly when
    it is [Bearer], one space, and a token without a space. *)
Lemma bearer_header (h token : string) :
  split_on " " (chars h) [] = ["Bearer"; token] <->
  h = "Bearer " +:+ token /\ has_no_space token = true.
Proof.
  rewrite split_on_two. split.
  - intros (l1 & l2 & Hh & H1 & H2 & Hs & ->). simpl in Hs.
    rewrite <- (text_chars h), Hh.
    change (l1 ++ " "%char :: l2) with (l1 ++ [" "%char] ++ l2).
    rewrite !text_app, <- Hs. unfold has_no_space. rewrite chars_text.
    split; [reflexivity|exact H2].
  - intros [-> Htoken]. exists (chars "Bearer"), (chars token).
    rewrite text_chars. repeat split; try reflexivity.
    exact Htoken.
Qed.

End AuthHeaderFacts.

(** [authMiddleware] lets a request through exactly when its
    [Authorization] header is the word [Bearer], one space, and a token
    without a space that [jwt.verify] accepts; [req.user] is then the
    decoded payload.  Every other request is answered 401, or 500 when
    [jwt.verify] fails with an error other than the two that the code
    names. *)
Theorem authMiddleware_passes (verify : string -> Auth.verified)
    (authHeader : option string) :
  (forall user,
      Auth.authMiddleware verify authHeader = Auth.Next user <->
      exists token,
        authHeader = Some ("Bearer " +:+ token)
        /\ Auth.has_no_space token = true
        /\ verify token = Auth.Decoded user)
  /\ (forall status message,
        Auth.authMiddleware verify authHeader = Auth.Deny status message ->
        status = 401%nat
        \/ (status = 500%nat
            /\ exists token name,
                 verify token = Auth.Rejected name
                 /\ name <> "TokenExpiredError"
                 /\ name <> "JsonWebTokenError")).
Proof.
  split.
  - intros user. split.
    + unfold Auth.authMiddleware.
      destruct authHeader as [h|]; [|discriminate].
      destruct (truthy_str (Some h)); [|discriminate]. cbn [negb].
      change (default "" (Some h)) with h.
      destruct (Auth.split_on " " (Report.chars h) [])
        as [|scheme [|token [|x l]]] eqn:Hsplit; try discriminate.
      destruct (String.eqb scheme "Bearer") eqn:Hscheme; [|discriminate].
      apply String.eqb_eq in Hscheme. subst scheme. cbn [negb].
      destruct (verify token) as [payload|name] eqn:Hverify.
      * intros [= <-]. exists token.
        destruct (proj1 (bearer_header h token) Hsplit) as [-> Hspace].
        auto.
      * destruct (String.eqb name "TokenExpiredError"); [discriminate|].
        destruct (String.eqb name "JsonWebTokenError"); discriminate.
    + intros (token & -> & Hspace & Hverify).
      unfold Auth.authMiddleware.
      change (truthy_str (Some ("Bearer " +:+ token))) with true.
      change (default "" (Some ("Bearer " +:+ token)))
        with ("Bearer " +:+ token).
      cbn [negb].
      rewrite (proj2 (bearer_header ("Bearer " +:+ token) token)
                 (conj eq_refl Hspace)).
      cbn [String.eqb negb]. rewrite Hverify. reflexivity.
  - intros status message. unfold Auth.authMiddleware.
    destruct (negb (truthy_str authHeader)); [intros [= <- _]; auto|].
    destruct (Auth.split_on " " (Report.chars (default "" authHeader)) [])
      as [|scheme [|token [|x l]]]; try (intros [= <- _]; auto).
    destruct (negb (String.eqb scheme "Bearer")); [intros [= <- _]; auto|].
    destruct (verify token) as [payload|name] eqn:Hverify; [discriminate|].
    destruct (String.eqb name "TokenExpiredError") eqn:He;
      [intros [= <- _]; auto|].
    destruct (String.eqb name "JsonWebTokenError") eqn:Hj;
      [intros [= <- _]; auto|].
    intros [= <- _]. right. split; [reflexivity|].
    exists token, name. apply String.eqb_neq in He, Hj. auto.
Qed.

(** A good token is let through; a header with two spaces is not. *)
Lemma authMiddleware_passes_witness :
  (exists user,
      Auth.authMiddleware Auth.sample_verify (Some "Bearer good.token")
      = Auth.Next user)
  /\ Auth.authMiddleware Auth.sample_verify (Some "Bearer  good.token")
     = Auth.Deny 401 Auth.format_message.
Proof.
  split; [|reflexivity].
  eexists.
  apply (proj1 (authMiddleware_passes Auth.sample_verify
                  (Some "Bearer good.token"))).
  exists "good.token". repeat split; reflexivity.
Defined.

(** ** The routes over the table *)

Section StoreFacts.
Import Job Store.

Lemma select_Some (id u : Z) (t : table) (r : record) :
  select id u t = Some r <-> t !! id = Some r /\ owned_by u r = true.
Proof.
  unfold select.
  destruct (t !! id) as [r0|];
    [|split; [discriminate|intros [H _]; discriminate H]].
  destruct (owned_by u r0) eqn:Ho; split.
  - intros [= <-]. auto.
  - intros [[= <-] _]. reflexivity.
  - discriminate.
  - intros [[= <-] Hr]. congruence.
Qed.

Lemma select_None (id u : Z) (t : table) :
  select id u t = None <->
  forall r, t !! id = Some r -> owned_by u r = false.
Proof.
  unfold select.
  destruct (t !! id) as [r0|];
    [|split; [intros _ r0 H; discriminate H|reflexivity]].
  destruct (owned_by u r0) eqn:Ho; split.
  - discriminate.
  - intros H. specialize (H r0 eq_refl). congruence.
  - intros _ r [= <-]. exact Ho.
  - reflexivity.
Qed.

Lemma owned_by_one (u v : Z) (r : record) :
  owned_by u r = true -> owned_by v r = true -> u = v.
Proof.
  unfold owned_by. destruct (user_id r); [|discriminate]. lia.
Qed.

(** The DELETE of one record removes the row selected. *)
Lemma delete_where (id u : Z) (t : table) (r : record) :
  select id u t = Some r ->
  filter (fun p => negb ((fst p =? id) && owned_by u (snd p)) = true) t
  = delete id t.
Proof.
  intros [Hr Ho]%select_Some. apply map_eq. intros i.
  rewrite map_lookup_filter. destruct (decide (i = id)) as [->|Hne].
  - rewrite lookup_delete_eq, Hr. simpl. rewrite Z.eqb_refl, Ho.
    reflexivity.
  - rewrite lookup_delete_ne by congruence.
    destruct (t !! i) as [x|]; [|reflexivity]. simpl.
    destruct (Z.eqb_spec i id); [contradiction|]. reflexivity.
Qed.

Lemma update_lookup_ne (id i : Z) (ws : list db_write) (t : table) :
  i <> id -> update id ws t !! i = t !! i.
Proof.
  intros Hne. unfold update. destruct ws; [reflexivity|].
  apply lookup_alter_ne. congruence.
Qed.

(** The rows kept by [DELETE /history/unavailable]. *)
Lemma kept_lookup (u i : Z) (t : table) :
  filter (fun p => unavailable_of u (snd p) = false) t !! i
  = match t !! i with
    | Some r => if unavailable_of u r then None else Some r
    | None => None
    end.
Proof.
  rewrite map_lookup_filter. destruct (t !! i) as [r|]; [|reflexivity].
  simpl. destruct (unavailable_of u r); reflexivity.
Qed.

(** What one request does to the row of one [id]: it leaves the row, or
    removes it, or rewrites columns of the job; the latter two only if
    the row is the caller's. *)
Lemma handle_lookup (d : db) (u : Z) (q : request) (t : table) (i : Z) :
  snd (handle d u q t) !! i = t !! i
  \/ exists r, select i u t = Some r
       /\ (snd (handle d u q t) !! i = None
           \/ exists c, snd (handle d u q t) !! i = Some (with_columns c r)).
Proof.
  destruct q as [aid| |seen|aid s3|aid]; cbn [handle].
  - unfold delete_record. destruct aid as [id|]; [|auto].
    destruct (connect d); [|auto]. destruct (query d 0); [|auto].
    destruct (select id u t) as [r|] eqn:Hsel; [|auto].
    destruct (query d 1); [|auto]. cbn [snd].
    rewrite (delete_where _ _ _ _ Hsel).
    destruct (decide (i = id)) as [->|Hne].
    + right. exists r. split; [exact Hsel|]. left. apply lookup_delete_eq.
    + left. apply lookup_delete_ne. congruence.
  - unfold history. destruct (connect d); [|auto].
    destruct (query d 0); auto.
  - unfold delete_unavailable. destruct (connect d); [|auto].
    destruct (query d 0); [|auto]. destruct (query d 1); [|auto].
    cbn [snd]. rewrite kept_lookup.
    destruct (t !! i) as [r|] eqn:Hr; [|auto].
    destruct (unavailable_of u r) eqn:Hu; [|auto].
    right. exists r. split; [|auto].
    apply select_Some. split; [exact Hr|].
    unfold unavailable_of in Hu. apply andb_true_iff in Hu. tauto.
  - unfold download. destruct aid as [id|]; [|auto].
    destruct (connect d); [|auto]. destruct (query d 0); [|auto].
    destruct (select id u t) as [r|] eqn:Hsel; [|auto].
    destruct (Pipeline.download s3 (is_ok (query d 1)) (columns r))
      as [answer ws]. cbn [snd].
    destruct (decide (i = id)) as [->|Hne].
    + right. exists r. split; [exact Hsel|]. right.
      apply select_Some in Hsel as [Hr _].
      unfold update. destruct ws as [|w ws].
      * exists (columns r). rewrite Hr. destruct r; reflexivity.
      * eexists. rewrite lookup_alter_eq, Hr. reflexivity.
    + left. apply update_lookup_ne. exact Hne.
  - unfold status_of. destruct aid as [id|]; [|auto].
    destruct (connect d); [|auto]. destruct (query d 0); [|auto].
    destruct (select id u t); auto.
Qed.

(** A request leaves alone every [id] at which the caller has no row. *)
Lemma handle_keeps (d : db) (u : Z) (q : request) (t : table) (i : Z) :
  select i u t = None -> snd (handle d u q t) !! i = t !! i.
Proof.
  intros Hnone. destruct (handle_lookup d u q t i) as [H|(r & Hsel & _)];
    [exact H|congruence].
Qed.

End StoreFacts.

(** Whatever the other users request, and whatever the database does
    meanwhile, a user's row stays as it is: it is neither removed nor
    changed in any column. *)
Theorem other_users_leave_rows (v : Z) (qs : list (Store.db * Z * Store.request))
    (t : Store.table) (id : Z) (r : Store.record) :
  Forall (fun x => snd (fst x) <> v) qs ->
  Store.select id v t = Some r ->
  Store.select id v (Store.serve t qs) = Some r.
Proof.
  intros Hqs. revert t. induction Hqs as [|[[d u] q] qs Hu _ IH];
    intros t Hsel; [exact Hsel|].
  apply IH. cbn [fst snd] in Hu.
  apply select_Some in Hsel as [Hr Ho]. apply select_Some.
  split; [|exact Ho].
  rewrite handle_keeps; [exact Hr|].
  apply select_None. intros r' Hr'.
  destruct (Store.owned_by u r') eqn:Hou; [|reflexivity].
  assert (r' = r) by congruence. subst r'.
  exfalso. apply Hu. exact (owned_by_one _ _ _ Hou Ho).
Qed.

(** User 8 deletes, polls and downloads at will: the rows of user 7 stay. *)
Lemma other_users_leave_rows_witness :
  exists r,
    Store.sample_table !! 2 = Some r
    /\ Store.select 2 7
         (Store.serve Store.sample_table
            [ (Store.working, 8, Store.DeleteRecord (Some 2));
              (Store.working, 8,
               Store.DeleteUnavailable Store.sample_table);
              (Store.working, 8,
               Store.GetDownload (Some 1) (Throw "NotFound")) ])
       = Some r.
Proof.
  eexists. split; [reflexivity|].
  apply other_users_leave_rows.
  - repeat constructor; cbn; lia.
  - reflexivity.
Defined.

Section StoreViews.
Import Job Store.

(** The caller's rows, as a table. *)
Lemma owned_lookup (u i : Z) (t : table) :
  filter (fun p => owned_by u (snd p) = true) t !! i = select i u t.
Proof.
  rewrite map_lookup_filter. unfold select.
  destruct (t !! i) as [r|]; [|reflexivity]. simpl.
  destruct (owned_by u r); reflexivity.
Qed.

Lemma unavailable_lookup (u i : Z) (t : table) :
  filter (fun p => unavailable_of u (snd p) = true) t !! i
  = match select i u t with
    | Some r => if unavailable_of u r then Some r else None
    | None => None
    end.
Proof.
  rewrite map_lookup_filter. unfold select.
  destruct (t !! i) as [r|]; [|reflexivity]. simpl.
  destruct (unavailable_of u r) eqn:Hu.
  - pose proof Hu as Hown. unfold unavailable_of in Hown.
    apply andb_true_iff in Hown as [-> _]. rewrite Hu. reflexivity.
  - destruct (owned_by u r); [rewrite Hu|]; reflexivity.
Qed.

Lemma select_kept (u i : Z) (t : table) :
  select i u (filter (fun p => unavailable_of u (snd p) = false) t)
  = match select i u t with
    | Some r => if unavailable_of u r then None else Some r
    | None => None
    end.
Proof.
  unfold select at 1. rewrite kept_lookup. unfold select.
  destruct (t !! i) as [r|]; [|reflexivity].
  destruct (unavailable_of u r) eqn:Hu;
    destruct (owned_by u r) eqn:Ho; rewrite ?Hu, ?Ho; reflexivity.
Qed.

Lemma select_delete (u i id : Z) (t : table) :
  select i u (delete id t)
  = if decide (i = id) then None else select i u t.
Proof.
  unfold select. destruct (decide (i = id)) as [->|Hne].
  - rewrite lookup_delete_eq. reflexivity.
  - rewrite lookup_delete_ne by congruence. reflexivity.
Qed.

Lemma select_update (u i id : Z) (ws : list db_write) (t : table) :
  select i u (update id ws t)
  = if decide (i = id)
    then (fun r => with_columns (Email.after ws (columns r)) r)
           <$> select i u t
    else select i u t.
Proof.
  destruct (decide (i = id)) as [->|Hne].
  - unfold update, select. destruct ws as [|w ws].
    + destruct (t !! id) as [r|]; [|reflexivity].
      destruct (owned_by u r); [|reflexivity]. simpl. destruct r; reflexivity.
    + rewrite lookup_alter_eq. destruct (t !! id) as [r|]; [|reflexivity].
      simpl. unfold owned_by. cbn [user_id with_columns].
      destruct (match user_id r with Some u0 => u0 =? u | None => false end);
        reflexivity.
  - unfold select. rewrite update_lookup_ne by exact Hne. reflexivity.
Qed.

End StoreViews.

(** The answer to a request, and what the request does to the caller's
    rows, depend on the caller's rows only: two tables that differ in the
    rows of other users give the same answer, also when the table that
    the first statement of [DELETE /history/unavailable] sees differs in
    such rows.  A record of another user is answered like a record that
    does not exist. *)
Theorem answers_ignore_other_rows (d : Store.db) (u : Z)
    (q q' : Store.request) (t1 t2 : Store.table) :
  (forall id, Store.select id u t1 = Store.select id u t2) ->
  Store.alike u q q' ->
  fst (Store.handle d u q t1) = fst (Store.handle d u q' t2)
  /\ (forall id, Store.select id u (snd (Store.handle d u q t1))
                 = Store.select id u (snd (Store.handle d u q' t2))).
Proof.
  intros Hsame Halike.
  destruct q as [aid| |seen|aid s3|aid];
    destruct q' as [aid'| |seen'|aid' s3'|aid'];
    cbn [Store.alike] in Halike; try discriminate Halike;
    cbn [Store.handle].
  - injection Halike as <-.
    unfold Store.delete_record. destruct aid as [id|]; [|auto].
    destruct (Store.connect d); [|auto].
    destruct (Store.query d 0); [|auto].
    pose proof (Hsame id) as Hid.
    destruct (Store.select id u t1) as [r1|] eqn:H1;
      destruct (Store.select id u t2) as [r2|] eqn:H2;
      try discriminate; [|auto].
    destruct (Store.query d 1); [|auto]. cbn [fst snd].
    split; [reflexivity|]. intros i.
    rewrite (delete_where _ _ _ _ H1), (delete_where _ _ _ _ H2).
    rewrite !select_delete, Hsame. reflexivity.
  - unfold Store.history. destruct (Store.connect d); [|auto].
    destruct (Store.query d 0); [|auto]. cbn [fst snd].
    split; [|exact Hsame]. do 4 f_equal.
    apply map_eq. intros i. rewrite !owned_lookup. apply Hsame.
  - unfold Store.delete_unavailable. destruct (Store.connect d); [|auto].
    destruct (Store.query d 0); [|auto].
    assert (Hcount :
      filter (fun p => Store.unavailable_of u (snd p) = true) seen
      = filter (fun p => Store.unavailable_of u (snd p) = true) seen').
    { apply map_eq. intros i. rewrite !unavailable_lookup, Halike.
      reflexivity. }
    rewrite Hcount. destruct (Store.query d 1); [|auto]. cbn [fst snd].
    split; [reflexivity|]. intros i. rewrite !select_kept, Hsame.
    reflexivity.
  - injection Halike as <- <-.
    unfold Store.download. destruct aid as [id|]; [|auto].
    destruct (Store.connect d); [|auto].
    destruct (Store.query d 0); [|auto].
    rewrite (Hsame id). destruct (Store.select id u t2) as [r|]; [|auto].
    destruct (Pipeline.download s3 (is_ok (Store.query d 1))
                (Store.columns r)) as [answer ws]. cbn [fst snd].
    split; [reflexivity|]. intros i. rewrite !select_update, Hsame.
    reflexivity.
  - injection Halike as <-.
    unfold Store.status_of. destruct aid as [id|]; [|auto].
    destruct (Store.connect d); [|auto].
    destruct (Store.query d 0); [|auto].
    rewrite (Hsame id). destruct (Store.select id u t2); auto.
Qed.

(** User 8 asks for the status of record 1, which is user 7's, and gets
    the answer given for a record that does not exist. *)
Lemma answers_ignore_other_rows_witness :
  fst (Store.handle Store.working 8 (Store.GetStatus (Some 1))
         Store.sample_table)
  = fst (Store.handle Store.working 8 (Store.GetStatus (Some 1))
           (delete 1 Store.sample_table))
  /\ fst (Store.handle Store.working 8 (Store.GetStatus (Some 1))
            Store.sample_table) = Store.Status Job.PENDING.
Proof.
  split; [|reflexivity].
  apply answers_ignore_other_rows; [|reflexivity].
  intros id. rewrite select_delete.
  destruct (decide (id = 1)) as [->|_]; reflexivity.
Defined.

(** [DELETE /record/:analysisId] answers 200 exactly when the record asked
    for is the caller's and the database carries out the request; the
    table then loses that record and no other, and the answer names it.
    With every other answer the table is as before. *)
Theorem delete_record_removes (d : Store.db) (u : Z) (analysisId : option Z)
    (t : Store.table) :
  (forall id,
      fst (Store.delete_record d u analysisId t) = Store.Deleted id <->
      analysisId = Some id
      /\ is_Some (Store.select id u t)
      /\ is_ok (Store.connect d) = true
      /\ is_ok (Store.query d 0) = true
      /\ is_ok (Store.query d 1) = true)
  /\ match Store.delete_record d u analysisId t with
     | (Store.Deleted id, t') => t' = delete id t
     | (_, t') => t' = t
     end.
Proof.
  unfold Store.delete_record. destruct analysisId as [aid|].
  2:{ split; [|reflexivity]. intros id. split; [discriminate|].
      intros [H _]. discriminate H. }
  destruct (Store.connect d) as [[]|m].
  2:{ split; [|reflexivity]. intros id. split; [discriminate|].
      intros (_ & _ & H & _). discriminate H. }
  destruct (Store.query d 0) as [[]|m].
  2:{ split; [|reflexivity]. intros id. split; [discriminate|].
      intros (_ & _ & _ & H & _). discriminate H. }
  destruct (Store.select aid u t) as [r|] eqn:Hsel.
  2:{ split; [|reflexivity]. intros id. split; [discriminate|].
      intros ([= <-] & [r Hr] & _). congruence. }
  destruct (Store.query d 1) as [[]|m].
  2:{ split; [|reflexivity]. intros id. split; [discriminate|].
      intros (_ & _ & _ & _ & H). discriminate H. }
  cbn [fst]. split.
  - intros id. split.
    + intros [= <-]. rewrite Hsel. repeat split. eauto.
    + intros ([= <-] & _). reflexivity.
  - apply (delete_where _ _ _ _ Hsel).
Qed.

(** User 7 deletes record 1; user 8 cannot. *)
Lemma delete_record_removes_witness :
  Store.delete_record Store.working 7 (Some 1) Store.sample_table
  = (Store.Deleted 1, delete 1 Store.sample_table)
  /\ Store.delete_record Store.working 8 (Some 1) Store.sample_table
     = (Store.RecordNotFound, Store.sample_table).
Proof.
  split; [|reflexivity].
  pose proof (delete_record_removes Store.working 7 (Some 1)
                Store.sample_table) as [Hanswer Htable].
  destruct (Store.delete_record Store.working 7 (Some 1) Store.sample_table)
    as [a t'] eqn:Hrun.
  assert (Ha : a = Store.Deleted 1).
  { apply (Hanswer 1). repeat split. eexists. reflexivity. }
  subst a. rewrite Htable. reflexivity.
Defined.

Section UnavailableFacts.
Import Job Store.

Lemma removed_size (u : Z) (t : table) :
  (size (filter (fun p => unavailable_of u (snd p) = true) t)
   + size (filter (fun p => unavailable_of u (snd p) = false) t)
   = size t)%nat.
Proof.
  assert (Hsplit :
    filter (fun p : Z * record => unavailable_of u (snd p) = false) t
    = filter (fun p : Z * record => ~ unavailable_of u (snd p) = true) t).
  { apply map_filter_ext. intros i r _. cbn.
    destruct (unavailable_of u r); split; congruence. }
  rewrite Hsplit, <- map_size_disj_union
    by apply map_disjoint_filter_complement.
  rewrite map_filter_union_complement. reflexivity.
Qed.

End UnavailableFacts.

(** [DELETE /history/unavailable]: the count in the answer is the number
    of the caller's FILE_UNAVAILABLE rows when the count was taken; the
    rows removed are the caller's FILE_UNAVAILABLE rows when the deletion
    ran, and the rows that remain are those that were then not the
    caller's or not FILE_UNAVAILABLE, unchanged.  The count is the number
    of rows removed when the caller's FILE_UNAVAILABLE rows are the same
    at both moments.  When the answer is an error, the table is as
    before. *)
Theorem delete_unavailable_count (d : Store.db) (u : Z)
    (seen t : Store.table) :
  match Store.delete_unavailable d u seen t with
  | (Store.Removed message n, t') =>
      n = size (filter (fun p => Store.unavailable_of u (snd p) = true) seen)
      /\ message = "Successfully removed " +:+ pretty n
                   +:+ " unavailable records"
      /\ (forall id r,
            t' !! id = Some r <->
            t !! id = Some r /\ Store.unavailable_of u r = false)
      /\ (size (filter (fun p => Store.unavailable_of u (snd p) = true) t)
          + size t' = size t)%nat
      /\ (filter (fun p => Store.unavailable_of u (snd p) = true) seen
          = filter (fun p => Store.unavailable_of u (snd p) = true) t ->
          (n + size t' = size t)%nat)
  | (_, t') => t' = t
  end.
Proof.
  unfold Store.delete_unavailable.
  destruct (Store.connect d); [|reflexivity].
  destruct (Store.query d 0); [|reflexivity].
  destruct (Store.query d 1); [|reflexivity].
  split; [reflexivity|]. split; [reflexivity|]. split; [|split].
  - intros id r. rewrite kept_lookup.
    destruct (t !! id) as [r0|];
      [|split; [discriminate|intros [H _]; discriminate H]].
    destruct (Store.unavailable_of u r0) eqn:Hu; split.
    + discriminate.
    + intros [[= <-] H]. congruence.
    + intros [= <-]. auto.
    + intros [[= <-] _]. reflexivity.
  - apply removed_size.
  - intros ->. apply removed_size.
Qed.

(** User 7 has one unavailable record when the count is taken.  Before
    the deletion runs, a download request of user 7 finds the report of
    record 1 missing: the answer says 1, and two rows are removed. *)
Lemma delete_unavailable_count_witness :
  exists t',
    Store.delete_unavailable Store.working 7 Store.sample_table
      (snd (Store.handle Store.working 7
              (Store.GetDownload (Some 1) (Throw "NotFound"))
              Store.sample_table))
    = (Store.Removed "Successfully removed 1 unavailable records" 1, t')
    /\ size t' = 1%nat /\ is_Some (t' !! 3).
Proof.
  pose proof (delete_unavailable_count Store.working 7 Store.sample_table
                (snd (Store.handle Store.working 7
                        (Store.GetDownload (Some 1) (Throw "NotFound"))
                        Store.sample_table))) as H.
  destruct (Store.delete_unavailable Store.working 7 Store.sample_table
              (snd (Store.handle Store.working 7
                      (Store.GetDownload (Some 1) (Throw "NotFound"))
                      Store.sample_table)))
    as [a t'] eqn:Hrun.
  vm_compute in Hrun. injection Hrun as <- <-.
  destruct H as (_ & _ & Hrows & Hsize & _).
  eexists. split; [reflexivity|]. split; [reflexivity|].
  eexists. apply Hrows. split; reflexivity.
Defined.

Section HistoryFacts.
Import Job Store.

Lemma insert_row_perm (x : Listing.t) (l : list Listing.t) :
  insert_row x l ≡ₚ x :: l.
Proof.
  induction l as [|y l IH]; [reflexivity|]. simpl.
  destruct (Listing.created_at y <=? Listing.created_at x); [reflexivity|].
  rewrite IH. apply Permutation_swap.
Qed.

Lemma newest_first_perm (l : list Listing.t) : newest_first l ≡ₚ l.
Proof.
  induction l as [|x l IH]; [reflexivity|]. simpl.
  rewrite insert_row_perm, IH. reflexivity.
Qed.

Lemma insert_row_sorted (x : Listing.t) (l : list Listing.t) :
  StronglySorted newer l -> StronglySorted newer (insert_row x l).
Proof.
  induction 1 as [|y l Hl IH Hy]; simpl.
  - repeat constructor.
  - destruct (Z.leb_spec (Listing.created_at y) (Listing.created_at x))
      as [Hle|Hgt].
    + constructor; [constructor; assumption|].
      constructor; [exact Hle|].
      eapply Forall_impl; [exact Hy|]. unfold newer. intros z Hz. lia.
    + constructor; [exact IH|].
      rewrite insert_row_perm. constructor; [unfold newer; lia|exact Hy].
Qed.

Lemma newest_first_sorted (l : list Listing.t) :
  StronglySorted newer (newest_first l).
Proof.
  induction l as [|x l IH]; simpl; [constructor|].
  apply insert_row_sorted, IH.
Qed.

End HistoryFacts.

(** [GET /history] answers with the caller's records, each once and no
    other, the newest first; it changes nothing. *)
Theorem history_newest_first (d : Store.db) (u : Z) (t : Store.table)
    (rows : list Store.Listing.t) (t' : Store.table) :
  Store.history d u t = (Store.History rows, t') ->
  t' = t
  /\ (forall x, x ∈ rows <->
        exists id r, Store.select id u t = Some r
                     /\ x = Store.listing id r)
  /\ NoDup (map Store.Listing.id rows)
  /\ StronglySorted
       (fun a b => Store.Listing.created_at b <= Store.Listing.created_at a)
       rows.
Proof.
  unfold Store.history.
  destruct (Store.connect d); [|discriminate].
  destruct (Store.query d 0); [|discriminate].
  intros [= <- <-]. split; [reflexivity|]. split; [|split].
  - intros x. rewrite newest_first_perm, list_elem_of_fmap. split.
    + intros ([id r] & -> & Hin). exists id, r.
      apply elem_of_map_to_list in Hin. rewrite owned_lookup in Hin. auto.
    + intros (id & r & Hsel & ->). exists (id, r). split; [reflexivity|].
      apply elem_of_map_to_list. rewrite owned_lookup. exact Hsel.
  - rewrite newest_first_perm, map_map. cbn [Store.listing Store.Listing.id].
    apply NoDup_fst_map_to_list.
  - apply newest_first_sorted.
Qed.

(** User 7's history: record 2, created later, comes before record 1. *)
Lemma history_newest_first_witness :
  exists rows,
    Store.history Store.working 7 Store.sample_table
    = (Store.History rows, Store.sample_table)
    /\ map Store.Listing.id rows = [2; 1]
    /\ NoDup (map Store.Listing.id rows).
Proof.
  eexists. split; [reflexivity|]. split; [reflexivity|].
  eapply (history_newest_first Store.working 7 Store.sample_table).
  reflexivity.
Defined.
